(** * SNJS: payloads, items, deltas, sync, key recovery, migrations, sessions

    A shallow embedding of the parts of the SNJS client library that its
    specification makes checkable statements about, with those statements
    proved (or refuted at a concrete input) against the embedding.

    Conventions used throughout:
    - a JavaScript [Date] is its time value, an integer number of
      milliseconds since the epoch ([Z]); an absent date is [None];
    - an optional boolean field ([deleted], [dirty], [errorDecrypting])
      is a [bool], absent being falsy;
    - a function that may [throw] returns an [Outcome]; stateful code
      threads its state explicitly through the [Eff] monad;
    - collaborators whose code is not part of the sources read here
      (crypto, storage, network, alert prompts) are Section variables or
      are modelled from the specification, and say so. *)

From Stdlib Require Import ZArith String List Ascii Sorted Permutation Lia Bool.
From stdpp Require Import gmap strings list fin_maps pretty sorting.

Open Scope Z_scope.

(** ** JavaScript helpers *)

Module JS.

(** [Array.prototype.sort(compareFn)]. The comparator returns a
    number; [NaN] ([None]) is read as [+0], as SortCompare does. The
    sort is stable, and for a consistent comparator there is one stable
    result, which the insertion sort below computes. For a comparator
    that is not consistent (one that answers [NaN] for some pairs only,
    say) the order is left to the engine, and this definition is not a
    model of it: what is proved of a sorted array is proved for
    consistent comparators. *)
Definition SortCompare {A} (compareFn : A -> A -> option Z) (x y : A) : Z :=
  match compareFn x y with
  | Some v => v
  | None => 0
  end.

Fixpoint insert {A} (compareFn : A -> A -> option Z) (x : A) (l : list A) : list A :=
  match l with
  | [] => [x]
  | y :: l' =>
      if SortCompare compareFn x y <=? 0
      then x :: y :: l'
      else y :: insert compareFn x l'
  end.

Fixpoint sort {A} (compareFn : A -> A -> option Z) (l : list A) : list A :=
  match l with
  | [] => []
  | x :: l' => insert compareFn x (sort compareFn l')
  end.

(** [Array.prototype.join(sep)] over numbers that may be [undefined]:
    an undefined element contributes the empty string, an integer its
    decimal digits. *)
Definition numberToString (n : option Z) : string :=
  match n with
  | Some z => pretty z
  | None => ""
  end.

Definition join (sep : string) (l : list (option Z)) : string :=
  String.concat sep (map numberToString l).

(** [isNullOrUndefined] of lib/utils. *)
Definition isNullOrUndefined {A} (v : option A) : bool :=
  match v with
  | None => true
  | Some _ => false
  end.

End JS.

(** ** Outcomes and the state-and-exception monad *)

(** What a [throw] statement throws: a bare string ([throw 'text']) or
    an error object ([throw Error('text')], or a [TypeError] raised by
    the engine). *)
Inductive Exception :=
| BareString (text : string)
| ErrorObject (name message : string).

#[global] Instance Exception_eq_dec : EqDecision Exception.
Proof. solve_decision. Defined.

Inductive Outcome (A : Type) : Type :=
| Returned (a : A)
| Thrown (e : Exception).
Arguments Returned {A} a.
Arguments Thrown {A} e.

Module Eff.

(** A computation over a state [S]: it either returns a value or
    throws, and in both cases leaves a state behind (what a JavaScript
    method did to [this] before it threw stays done). *)
Definition M (S A : Type) : Type := S -> Outcome A * S.

Definition ret {S A} (a : A) : M S A := fun s => (Returned a, s).

Definition bind {S A B} (c : M S A) (k : A -> M S B) : M S B :=
  fun s =>
    match c s with
    | (Returned a, s') => k a s'
    | (Thrown e, s') => (Thrown e, s')
    end.

Definition throw {S A} (e : Exception) : M S A := fun s => (Thrown e, s).
Definition get {S} : M S S := fun s => (Returned s, s).
Definition put {S} (s : S) : M S unit := fun _ => (Returned tt, s).
Definition modify {S} (f : S -> S) : M S unit := fun s => (Returned tt, f s).

Fixpoint forEach {S A} (l : list A) (body : A -> M S unit) : M S unit :=
  match l with
  | [] => ret tt
  | x :: l' => bind (body x) (fun _ => forEach l' body)
  end.

(** A [for ... of] loop that pushes one result per element. *)
Fixpoint mapM {S A B} (f : A -> M S B) (l : list A) : M S (list B) :=
  match l with
  | [] => ret []
  | x :: l' => bind (f x) (fun y => bind (mapM f l') (fun ys => ret (y :: ys)))
  end.

End Eff.

Declare Scope eff_scope.
Delimit Scope eff_scope with eff.
Notation "'let*' x := c 'in' k" := (Eff.bind c (fun x => k))
  (at level 10, x name, c at level 200, k at level 200, only parsing) : eff_scope.

(** ** SHA-256 *)

(** Modelled from the spec: the SHA-256 digest that
    [protocolService.crypto.sha256] computes; the crypto package is not
    part of the sources. This is FIPS 180-4 over 32-bit words held in
    [Z], every addition reduced modulo 2^32. *)
Module SHA256.

Definition w32 (x : Z) : Z := x mod 2 ^ 32.
Definition add32 (x y : Z) : Z := w32 (x + y).
Definition rotr (n x : Z) : Z :=
  Z.lor (Z.shiftr x n) (w32 (Z.shiftl x (32 - n))).
Definition shr (n x : Z) : Z := Z.shiftr x n.
Definition not32 (x : Z) : Z := Z.lxor x 0xffffffff.

Definition Ch (x y z : Z) : Z := Z.lxor (Z.land x y) (Z.land (not32 x) z).
Definition Maj (x y z : Z) : Z :=
  Z.lxor (Z.lxor (Z.land x y) (Z.land x z)) (Z.land y z).
Definition Sigma0 (x : Z) : Z := Z.lxor (Z.lxor (rotr 2 x) (rotr 13 x)) (rotr 22 x).
Definition Sigma1 (x : Z) : Z := Z.lxor (Z.lxor (rotr 6 x) (rotr 11 x)) (rotr 25 x).
Definition sigma0 (x : Z) : Z := Z.lxor (Z.lxor (rotr 7 x) (rotr 18 x)) (shr 3 x).
Definition sigma1 (x : Z) : Z := Z.lxor (Z.lxor (rotr 17 x) (rotr 19 x)) (shr 10 x).

(** The round constants are the first 32 bits of the fractional parts of
    the cube roots of the first 64 primes; the initial hash value, of
    the square roots of the first 8. *)
Definition isPrime (n : nat) : bool :=
  forallb (fun d => negb (Z.of_nat n mod Z.of_nat d =? 0)) (seq 2 (n - 2)).

Definition primes : list Z :=
  map Z.of_nat (firstn 64 (List.filter isPrime (seq 2 310))).

Definition cubeRoot (n : Z) : Z :=
  fold_left
    (fun r bit => let r' := r + 2 ^ Z.of_nat bit in if r' * r' * r' <=? n then r' else r)
    (rev (seq 0 48)) 0.

Definition K : list Z := map (fun p => w32 (cubeRoot (p * 2 ^ 96))) primes.

Definition H0 : list Z := map (fun p => w32 (Z.sqrt (p * 2 ^ 64))) (firstn 8 primes).

Definition be_bytes (n : nat) (x : Z) : list Z :=
  map (fun i => Z.land (Z.shiftr x (8 * Z.of_nat i)) 0xff) (rev (seq 0 n)).

(** The message, the 0x80 marker, zero fill up to 56 modulo 64, then
    the bit length as a 64-bit big-endian integer. *)
Definition pad (msg : list Z) : list Z :=
  let len := Z.of_nat (length msg) in
  let fill := Z.to_nat ((55 - len) mod 64) in
  msg ++ [0x80] ++ repeat 0 fill ++ be_bytes 8 (8 * len).

Fixpoint words (bs : list Z) : list Z :=
  match bs with
  | a :: b :: c :: d :: rest =>
      (Z.shiftl a 24 + Z.shiftl b 16 + Z.shiftl c 8 + d) :: words rest
  | _ => []
  end.

Fixpoint chunks (n : nat) (ws : list Z) : list (list Z) :=
  match n with
  | O => []
  | S n' => match ws with
            | [] => []
            | _ => firstn 16 ws :: chunks n' (skipn 16 ws)
            end
  end.

Definition W_at (w : list Z) (i : nat) : Z := nth i w 0.

Fixpoint schedule (n : nat) (w : list Z) : list Z :=
  match n with
  | O => w
  | S n' =>
      let t := length w in
      let x := add32 (add32 (sigma1 (W_at w (t - 2))) (W_at w (t - 7)))
                     (add32 (sigma0 (W_at w (t - 15))) (W_at w (t - 16))) in
      schedule n' (w ++ [x])
  end.

Record regs := Regs { ra : Z; rb : Z; rc : Z; rd : Z; re : Z; rf : Z; rg : Z; rh : Z }.

Definition round (r : regs) (kw : Z * Z) : regs :=
  let t1 := add32 (add32 (add32 (rh r) (Sigma1 (re r))) (Ch (re r) (rf r) (rg r)))
                  (add32 (fst kw) (snd kw)) in
  let t2 := add32 (Sigma0 (ra r)) (Maj (ra r) (rb r) (rc r)) in
  Regs (add32 t1 t2) (ra r) (rb r) (rc r) (add32 (rd r) t1) (re r) (rf r) (rg r).

Definition regs_of (h : list Z) : regs :=
  Regs (W_at h 0) (W_at h 1) (W_at h 2) (W_at h 3) (W_at h 4) (W_at h 5) (W_at h 6) (W_at h 7).

Definition compress (h : list Z) (block : list Z) : list Z :=
  let r := fold_left round (combine K (schedule 48 block)) (regs_of h) in
  let out := [ra r; rb r; rc r; rd r; re r; rf r; rg r; rh r] in
  map (fun p => add32 (fst p) (snd p)) (combine h out).

Definition hex_digit (d : Z) : string :=
  String (nth (Z.to_nat d) (list_ascii_of_string "0123456789abcdef") "0"%char) EmptyString.

Definition hex_word (x : Z) : string :=
  String.concat ""
    (map (fun i => hex_digit (Z.land (Z.shiftr x (4 * Z.of_nat i)) 0xf)) (rev (seq 0 8))).

Definition digest (msg : list Z) : list Z :=
  let ws := words (pad msg) in
  fold_left compress (chunks (length ws) ws) H0.

Definition bytes_of_string (s : string) : list Z :=
  map (fun c => Z.of_N (N_of_ascii c)) (list_ascii_of_string s).

(** The lower-case hex digest of the bytes of [s]. *)
Definition sha256 (s : string) : string :=
  String.concat "" (map hex_word (digest (bytes_of_string s))).

End SHA256.


(** ** Payloads *)

Module Payloads.

(** The sources a payload can be tagged with (only those the code read
    here names). *)
Inductive PayloadSource :=
| RemoteRetrieved | RemoteSaved | LocalSaved | LocalRetrieved | LocalChanged
| RemoteRejected | DecryptedTransient | ConflictData | FileImport.

#[global] Instance PayloadSource_eq_dec : EqDecision PayloadSource.
Proof. solve_decision. Defined.

(** A content object is a JSON object: a finite map from keys to values.
    Three shapes of value matter to the code: scalars, the [references]
    array, and the [appData] object (domain -> key -> scalar). *)
Record ContentReference := mkReference {
  ref_uuid : string;
  ref_content_type : string
}.

#[global] Instance ContentReference_eq_dec : EqDecision ContentReference.
Proof. solve_decision. Defined.

Inductive Scalar :=
| SBool (b : bool)
| SNum (z : Z)
| SStr (s : string)
| SDate (ms : Z)
| SInvalidDate.

#[global] Instance Scalar_eq_dec : EqDecision Scalar.
Proof. solve_decision. Defined.

Inductive JsValue :=
| JScalar (s : Scalar)
| JReferences (l : list ContentReference)
| JDomains (d : gmap string (gmap string Scalar)).

#[global] Instance JsValue_eq_dec : EqDecision JsValue.
Proof. solve_decision. Defined.

Abbreviation PayloadContent := (gmap string JsValue).

(** [content] is absent, a ciphertext string, or a parsed object. *)
Inductive ContentField :=
| NoContent
| Ciphertext (s : string)
| Decrypted (c : PayloadContent).

#[global] Instance ContentField_eq_dec : EqDecision ContentField.
Proof. solve_decision. Defined.

(** The max payload: every field a payload can carry. *)
Record PurePayload := mkPayload {
  uuid : string;
  content_type : string;
  content : ContentField;
  created_at : option Z;
  updated_at : option Z;
  deleted : bool;
  dirty : bool;
  dirtiedDate : option Z;
  errorDecrypting : bool;
  waitingForKey : bool;
  lastSyncBegan : option Z;
  lastSyncEnd : option Z;
  source : option PayloadSource
}.

#[global] Instance PurePayload_eq_dec : EqDecision PurePayload.
Proof. solve_decision. Defined.

(** An override object: the fields it sets, in the order [Object.assign]
    copies them. A key of the object that is not a field of the payload
    ([SetNoField]) sets nothing: the payload made has the payload's
    fields only. *)
Inductive FieldAssign :=
| SetContent (c : ContentField)
| SetDeleted (b : bool)
| SetDirty (b : bool)
| SetDirtiedDate (d : Z)
| SetLastSyncBegan (d : Z)
| SetLastSyncEnd (d : Z)
| SetNoField (key : string).

Abbreviation PayloadOverride := (list FieldAssign).

Definition assign (p : PurePayload) (a : FieldAssign) : PurePayload :=
  match a with
  | SetContent c =>
      mkPayload (uuid p) (content_type p) c (created_at p) (updated_at p)
        (deleted p) (dirty p) (dirtiedDate p) (errorDecrypting p) (waitingForKey p)
        (lastSyncBegan p) (lastSyncEnd p) (source p)
  | SetDeleted b =>
      mkPayload (uuid p) (content_type p) (content p) (created_at p) (updated_at p)
        b (dirty p) (dirtiedDate p) (errorDecrypting p) (waitingForKey p)
        (lastSyncBegan p) (lastSyncEnd p) (source p)
  | SetDirty b =>
      mkPayload (uuid p) (content_type p) (content p) (created_at p) (updated_at p)
        (deleted p) b (dirtiedDate p) (errorDecrypting p) (waitingForKey p)
        (lastSyncBegan p) (lastSyncEnd p) (source p)
  | SetDirtiedDate d =>
      mkPayload (uuid p) (content_type p) (content p) (created_at p) (updated_at p)
        (deleted p) (dirty p) (Some d) (errorDecrypting p) (waitingForKey p)
        (lastSyncBegan p) (lastSyncEnd p) (source p)
  | SetLastSyncBegan d =>
      mkPayload (uuid p) (content_type p) (content p) (created_at p) (updated_at p)
        (deleted p) (dirty p) (dirtiedDate p) (errorDecrypting p) (waitingForKey p)
        (Some d) (lastSyncEnd p) (source p)
  | SetLastSyncEnd d =>
      mkPayload (uuid p) (content_type p) (content p) (created_at p) (updated_at p)
        (deleted p) (dirty p) (dirtiedDate p) (errorDecrypting p) (waitingForKey p)
        (lastSyncBegan p) (Some d) (source p)
  | SetNoField _ => p
  end.

(** [Object.assign(rawPayload, override)]. *)
Definition ObjectAssign (p : PurePayload) (override : PayloadOverride) : PurePayload :=
  fold_left assign override p.

(** [CopyPayload(payload, override)]: a new payload with the fields of
    [payload], those named by [override] replaced. *)
Definition CopyPayload (p : PurePayload) (override : PayloadOverride) : PurePayload :=
  ObjectAssign p override.

Definition withSource (p : PurePayload) (s : PayloadSource) : PurePayload :=
  mkPayload (uuid p) (content_type p) (content p) (created_at p) (updated_at p)
    (deleted p) (dirty p) (dirtiedDate p) (errorDecrypting p) (waitingForKey p)
    (lastSyncBegan p) (lastSyncEnd p) (Some s).

(** [CreateSourcedPayloadFromObject(object, source, override)]: the
    fields of [object], tagged with [source], then the override
    assigned on top. *)
Definition CreateSourcedPayloadFromObject
    (object : PurePayload) (s : PayloadSource) (override : PayloadOverride) : PurePayload :=
  ObjectAssign (withSource object s) override.

(** [CreateMaxPayloadFromAnyObject({object, override})] of
    payloads/generator: pick the max payload's fields, assign the
    override. *)
Definition CreateMaxPayloadFromAnyObject
    (object : PurePayload) (override : PayloadOverride) : PurePayload :=
  ObjectAssign object override.

End Payloads.


(** ** Items *)

Module SNItem.
Import Payloads.

(** The item classes of the sources: the base [SNItem] and
    [SNPrivileges], which overrides [isSingleton]. *)
Inductive ItemClass := BaseItem | Privileges.

#[global] Instance ItemClass_eq_dec : EqDecision ItemClass.
Proof. solve_decision. Defined.

Record t := mkItem {
  payload : PurePayload;
  class : ItemClass
}.

#[global] Instance SNItem_eq_dec : EqDecision t.
Proof. solve_decision. Defined.

Definition uuid (i : t) : string := Payloads.uuid (payload i).
Definition content (i : t) : ContentField := Payloads.content (payload i).
Definition content_type (i : t) : string := Payloads.content_type (payload i).
Definition deleted (i : t) : bool := Payloads.deleted (payload i).
Definition created_at (i : t) : option Z := Payloads.created_at (payload i).
Definition updated_at (i : t) : option Z := Payloads.updated_at (payload i).
Definition dirtiedDate (i : t) : option Z := Payloads.dirtiedDate (payload i).
Definition dirty (i : t) : bool := Payloads.dirty (payload i).
Definition errorDecrypting (i : t) : bool := Payloads.errorDecrypting (payload i).
Definition waitingForKey (i : t) : bool := Payloads.waitingForKey (payload i).
Definition lastSyncBegan (i : t) : option Z := Payloads.lastSyncBegan (payload i).
Definition lastSyncEnd (i : t) : option Z := Payloads.lastSyncEnd (payload i).

Definition payloadRepresentation (i : t) (override : PayloadOverride) : PurePayload :=
  CopyPayload (payload i) override.

Definition DefaultAppDomain : string := "org.standardnotes.sn".

(** Whether the item has never been synced to a server:
    [!this.updated_at || this.updated_at.getTime() === 0]. *)
Definition neverSynced (i : t) : bool :=
  match updated_at i with
  | None => true
  | Some ms => ms =? 0
  end.

Definition isSingleton (i : t) : bool :=
  match class i with
  | BaseItem => false
  | Privileges => true
  end.

(** [this.updated_at?.getTime()]: milliseconds since the epoch, or
    undefined. *)
Definition updatedAtTimestamp (i : t) : option Z := updated_at i.

End SNItem.

(** ** Sync manager: the data integrity hash *)

Module Integrity.

(** Modelled from the spec: [modelManager.nonDeletedItems], the items of
    the collection that are not deleted (the model manager is not part
    of the sources). *)
Definition nonDeletedItems (items : list SNItem.t) : list SNItem.t :=
  List.filter (fun i => negb (SNItem.deleted i)) items.

(** [b.updated_at - a.updated_at]; subtracting with an undefined operand
    is [NaN]. *)
Definition compareFn (a b : SNItem.t) : option Z :=
  match SNItem.updated_at b, SNItem.updated_at a with
  | Some tb, Some ta => Some (tb - ta)
  | _, _ => None
  end.

Section WithDigest.
Variable sha256 : string -> string.

(** [computeDataIntegrityHash]. None of the steps in the [try] block
    raises here, so the [catch] branch ([null], our [None]) is never
    taken. *)
Definition computeDataIntegrityHash (allItems : list SNItem.t) : option string :=
  let items := JS.sort compareFn (nonDeletedItems allItems) in
  let dates := map SNItem.updatedAtTimestamp items in
  let string := JS.join "," dates in
  Some (sha256 string).

(** The hash as the specification words it: the timestamps as
    microsecond strings. A [Date] holds milliseconds; its microsecond
    value is a thousand times that. *)
Definition microsecondString (i : SNItem.t) : string :=
  JS.numberToString (option_map (fun ms => ms * 1000) (SNItem.updated_at i)).

Definition specifiedIntegrityHash (allItems : list SNItem.t) : option string :=
  let items := JS.sort compareFn (nonDeletedItems allItems) in
  Some (sha256 (String.concat "," (map microsecondString items))).

End WithDigest.

(** Descending [updated_at] order; an item without [updated_at] compares
    equal to every other. *)
Definition updatedAtDescending (a b : SNItem.t) : Prop :=
  match SNItem.updated_at a, SNItem.updated_at b with
  | Some ta, Some tb => tb <= ta
  | _, _ => True
  end.

(** Descending [updated_at] order of items that both have the date: the
    first was updated no earlier than the second. *)
Definition notEarlier (a b : SNItem.t) : Prop :=
  exists ta tb, SNItem.updated_at a = Some ta /\ SNItem.updated_at b = Some tb /\ tb <= ta.

Definition millisecondString (i : SNItem.t) : string :=
  match SNItem.updated_at i with
  | Some ms => pretty ms
  | None => ""
  end.

(** A never-deleted note last updated at [ms]. *)
Definition integrity_item (ms : Z) : SNItem.t :=
  SNItem.mkItem
    (Payloads.mkPayload "5f2a" "Note" Payloads.NoContent (Some ms) (Some ms)
       false false None false false None None None)
    SNItem.BaseItem.

End Integrity.

(** ** Conflict strategies *)

Module Conflicts.
Import Payloads.

Inductive ConflictStrategies :=
| KeepLeft
| KeepRight
| KeepLeftDuplicateRight
| KeepRightDuplicateLeft
| KeepLeftMergeRefs.

#[global] Instance ConflictStrategies_eq_dec : EqDecision ConflictStrategies.
Proof. solve_decision. Defined.

(** [omitInPlace(object, keys)] of lib/utils: delete every listed key. *)
Definition omitInPlace {V} (object : gmap string V) (keys : list string) : gmap string V :=
  fold_left (fun o key => delete key o) keys object.

(** The keys inside [appData[DefaultAppDomain]] are omitted the same
    way. *)
Definition omitAppDataKeys (c : PayloadContent) (keys : list string) : PayloadContent :=
  match c !! "appData" with
  | Some (JDomains d) =>
      <["appData" := JDomains
          (alter (fun domainData => omitInPlace domainData keys) SNItem.DefaultAppDomain d)]> c
  | _ => c
  end.

(** What omitting the app-domain keys does to the value under
    [appData]. *)
Definition omittedAppData (keys : list string) (v : option JsValue) : option JsValue :=
  match v with
  | Some (JDomains d) =>
      Some (JDomains
              (alter (fun domainData => omitInPlace domainData keys)
                 SNItem.DefaultAppDomain d))
  | other => other
  end.

(** Modelled from the spec: [ItemContentsEqual] of models/core/functions
    (not part of the sources): equality of the two content objects once
    the keys to ignore, and the app-domain keys to ignore, are left out. *)
Definition ItemContentsEqual
    (leftContent rightContent : PayloadContent)
    (keysToIgnore appDataKeysToIgnore : list string) : bool :=
  bool_decide
    (omitInPlace (omitAppDataKeys leftContent appDataKeysToIgnore) keysToIgnore
     = omitInPlace (omitAppDataKeys rightContent appDataKeysToIgnore) keysToIgnore).

Definition contentKeysToIgnoreWhenCheckingEquality : list string := ["conflict_of"].
Definition appDataContentKeysToIgnoreWhenCheckingEquality : list string := ["client_updated_at"].

(** Modelled from the spec: [ItemContentsDiffer(item1, item2,
    excludeContentKeys)], the negation of [ItemContentsEqual] with the
    excluded keys added to those the first item ignores. Contents that
    are not both parsed objects are compared as they are. *)
Definition ItemContentsDiffer (item1 item2 : SNItem.t) (excludeContentKeys : list string) : bool :=
  match SNItem.content item1, SNItem.content item2 with
  | Decrypted c1, Decrypted c2 =>
      negb (ItemContentsEqual c1 c2
              (contentKeysToIgnoreWhenCheckingEquality ++ excludeContentKeys)
              appDataContentKeysToIgnoreWhenCheckingEquality)
  | f1, f2 => negb (bool_decide (f1 = f2))
  end.

(** [SNItem.strategyWhenConflictingWithItem], the base implementation. *)
Definition strategyWhenConflictingWithItem (this item : SNItem.t) : ConflictStrategies :=
  if SNItem.errorDecrypting this then KeepLeftDuplicateRight
  else if SNItem.isSingleton this then KeepLeft
  else if SNItem.deleted this || SNItem.deleted item then KeepRight
  else
    let contentDiffers := ItemContentsDiffer this item [] in
    if negb contentDiffers then KeepRight
    else
      let differsExclRefs := ItemContentsDiffer this item ["references"] in
      if differsExclRefs then KeepLeftDuplicateRight
      else KeepLeftMergeRefs.

(** The claim's table, read top to bottom. *)
Definition specifiedStrategy (this item : SNItem.t) : ConflictStrategies :=
  if SNItem.isSingleton this || SNItem.errorDecrypting this then KeepLeft
  else if SNItem.deleted this || SNItem.deleted item
          || negb (ItemContentsDiffer this item []) then KeepRight
  else if negb (ItemContentsDiffer this item ["references"]) then KeepLeftMergeRefs
  else KeepLeftDuplicateRight.

(** Concrete items. *)
Definition note (content : PayloadContent) (errored : bool) : SNItem.t :=
  SNItem.mkItem
    (mkPayload "a1b2" "Note"
       (if errored then Ciphertext "004:nonce:ciphertext:aad" else Decrypted content)
       (Some 1500) (Some 1600)
       false false None errored false None None None)
    SNItem.BaseItem.

Definition titled (title : string) (refs : list ContentReference) : PayloadContent :=
  <["title" := JScalar (SStr title)]> (<["references" := JReferences refs]> ∅).

End Conflicts.

(** ** Deltas: remote rejected *)

Module Deltas.
Import Payloads.

(** A collection: its payloads, in the order [all()] lists them, and the
    source they came from. Payloads are indexed by uuid. *)
Record PayloadCollection := mkCollection {
  all : list PurePayload;
  collectionSource : PayloadSource
}.

Definition find (c : PayloadCollection) (id : string) : option PurePayload :=
  List.find (fun p => bool_decide (uuid p = id)) (all c).

Definition WithPayloads (payloads : list PurePayload) (s : PayloadSource) : PayloadCollection :=
  mkCollection payloads s.

(** Modelled from the spec: the delta base class (not part of the
    sources) holds the base collection, the apply collection and a set
    of related collections; [findRelatedPayload(id, source)] looks [id]
    up in the related collection of that source. *)
Record PayloadsDelta := mkDelta {
  baseCollection : PayloadCollection;
  applyCollection : PayloadCollection;
  relatedCollectionSet : list PayloadCollection
}.

Definition collectionForSource (set : list PayloadCollection) (s : PayloadSource)
  : option PayloadCollection :=
  List.find (fun c => bool_decide (collectionSource c = s)) set.

Definition findRelatedPayload (this : PayloadsDelta) (id : string) (s : PayloadSource)
  : option PurePayload :=
  match collectionForSource (relatedCollectionSet this) s with
  | Some c => find c id
  | None => None
  end.

Definition counterpartOf (this : PayloadsDelta) (p : PurePayload) : option PurePayload :=
  findRelatedPayload this (uuid p) DecryptedTransient.

(** [r] is [decrypted] re-sourced as a rejected payload at time
    [time]. *)
Definition resourced (time : Z) (decrypted r : PurePayload) : Prop :=
  source r = Some RemoteRejected /\ dirty r = false /\
  lastSyncEnd r = Some time /\
  uuid r = uuid decrypted /\ content_type r = content_type decrypted /\
  content r = content decrypted /\ deleted r = deleted decrypted /\
  created_at r = created_at decrypted /\ updated_at r = updated_at decrypted.

Section WithClock.
(** [timeAt n] is the time value the [n]-th [new Date()] of a run
    yields; the state counts the readings taken. *)
Variable timeAt : nat -> Z.

Definition newDate : Eff.M nat Z := fun n => (Returned (timeAt n), S n).

Definition rejectedPayload (this : PayloadsDelta) (payload : PurePayload)
  : Eff.M nat PurePayload :=
  (match findRelatedPayload this (uuid payload) DecryptedTransient with
   | None =>
       Eff.throw (BareString "Unable to find decrypted counterpart for rejected payload.")
   | Some decrypted =>
       let* now := newDate in
       Eff.ret (CreateSourcedPayloadFromObject decrypted RemoteRejected
                  [SetLastSyncEnd now; SetDirty false])
   end)%eff.

(** [DeltaRemoteRejected.resultingCollection]. *)
Definition resultingCollection (this : PayloadsDelta) : Eff.M nat PayloadCollection :=
  (let* results := Eff.mapM (rejectedPayload this) (all (applyCollection this)) in
   Eff.ret (WithPayloads results RemoteRejected))%eff.

End WithClock.

(** Concrete collections: two payloads the server rejected, and their
    decrypted counterparts. *)
Definition rejected (id : string) : PurePayload :=
  mkPayload id "Note" (Ciphertext "004:n:c:a") (Some 10) (Some 20)
    false true (Some 30) false false (Some 40) None (Some RemoteRejected).

Definition counterpart (id : string) : PurePayload :=
  mkPayload id "Note" (Decrypted ∅) (Some 10) (Some 20)
    false true (Some 30) false false (Some 40) None (Some DecryptedTransient).

Definition exampleDelta (related : list PurePayload) : PayloadsDelta :=
  mkDelta (mkCollection [] LocalRetrieved)
    (mkCollection [rejected "u1"; rejected "u2"] RemoteRejected)
    [mkCollection related DecryptedTransient].

Definition exampleClock (n : nat) : Z := 1617004805233 + Z.of_nat n.

End Deltas.

(** ** Item mutators *)

Module Mutator.
Import Payloads.

(** [enum MutationType { UserInteraction = 1, Internal = 1 }]: at run
    time a mutation source is the number. *)
Definition UserInteraction : Z := 1.
Definition Internal : Z := 1.

Definition UserModifiedDateKey : string := "client_updated_at".

Record ItemMutator := mkMutator {
  item : SNItem.t;
  source : Z;
  payload : PurePayload;
  content : ContentField
}.

(** Modelled from the spec: [Copy] of lib/utils (not part of the
    sources) makes the working copy of the content. Payloads and items
    are frozen, so contents are values here and the copy is the same
    value held apart. *)
Definition Copy (c : ContentField) : ContentField := c.

(** [new ItemMutator(item, source)]. *)
Definition new (i : SNItem.t) (s : Z) : ItemMutator :=
  mkMutator i s (SNItem.payload i) (Copy (Payloads.content (SNItem.payload i))).

(** The mutator under mutation, and the number of clock readings taken
    so far. *)
Record World := mkWorld {
  this : ItemMutator;
  reads : nat
}.

Definition setThisContent (c : ContentField) : Eff.M World unit :=
  Eff.modify (fun w =>
    mkWorld (mkMutator (item (this w)) (source (this w)) (payload (this w)) c) (reads w)).

Definition setThisPayload (p : PurePayload) : Eff.M World unit :=
  Eff.modify (fun w =>
    mkWorld (mkMutator (item (this w)) (source (this w)) p (content (this w))) (reads w)).

Definition TypeError (message : string) : Exception := ErrorObject "TypeError" message.

Definition truthy (s : Scalar) : bool :=
  match s with
  | SBool b => b
  | SNum z => negb (z =? 0)
  | SStr s => negb (bool_decide (s = ""))
  | SDate _ => true
  | SInvalidDate => true
  end.

(** [this.content!.appData], made an object when it is missing or
    falsy: the domains it holds. [None]: the value there is not an
    object of domains. A truthy primitive takes no properties, and the
    assignment that follows throws. An array or a [Date] would take the
    property, but the content model has no value for an array or a
    [Date] with properties of its own: these two are outside the model,
    and every statement about the setters is made for contents where
    [appDataOf] is [Some]. *)
Definition appDataOf (c : PayloadContent) : option (gmap string (gmap string Scalar)) :=
  match c !! "appData" with
  | None => Some ∅
  | Some (JDomains d) => Some d
  | Some (JScalar s) => if truthy s then None else Some ∅
  | Some (JReferences _) => None
  end.

(** [this.content!.references || []]. [None]: the value there has no
    [find], [push] or [filter]. *)
Definition referencesOf (c : PayloadContent) : option (list ContentReference) :=
  match c !! "references" with
  | None => Some []
  | Some (JReferences l) => Some l
  | Some (JScalar s) => if truthy s then None else Some []
  | Some (JDomains _) => None
  end.

(** [this.content!.key = value]: [this.content] must be an object; class
    bodies are strict code, where assigning a property of a string
    throws. *)
Definition setContentKey (key : string) (value : JsValue) : Eff.M World unit :=
  (let* w := Eff.get in
   match content (this w) with
   | NoContent => Eff.throw (TypeError "Cannot set properties of undefined")
   | Ciphertext _ => Eff.throw (TypeError "Cannot create property on string")
   | Decrypted c => setThisContent (Decrypted (<[key := value]> c))
   end)%eff.

Definition setDeleted : Eff.M World unit :=
  (let* _ := setThisContent NoContent in
   let* w := Eff.get in
   setThisPayload (CopyPayload (payload (this w))
                     [SetContent (content (this w)); SetDeleted true]))%eff.

Definition set_lastSyncBegan (began : Z) : Eff.M World unit :=
  (let* w := Eff.get in
   setThisPayload (CopyPayload (payload (this w))
                     [SetContent (content (this w)); SetLastSyncBegan began]))%eff.

Definition set_protected (isProtected : bool) : Eff.M World unit :=
  setContentKey "protected" (JScalar (SBool isProtected)).

Definition set_trashed (trashed : bool) : Eff.M World unit :=
  setContentKey "trashed" (JScalar (SBool trashed)).

(** [setDomainData(data, domain)]: its last statement reads
    [content.appData[domain]] off the appData object and assigns
    nothing. *)
Definition setDomainData (data : gmap string Scalar) (domain : string) : Eff.M World unit :=
  (let* w := Eff.get in
   if errorDecrypting (payload (this w)) then Eff.ret tt
   else
     match content (this w) with
     | NoContent => Eff.throw (TypeError "Cannot read properties of undefined")
     | Ciphertext _ => Eff.throw (TypeError "Cannot read properties of undefined")
     | Decrypted c =>
         match c !! "appData" with
         | Some (JDomains d) =>
             match d !! "appData" with
             | Some _ => Eff.ret tt
             | None => Eff.throw (TypeError "Cannot read properties of undefined")
             end
         | _ => Eff.throw (TypeError "Cannot read properties of undefined")
         end
     end)%eff.

Definition setDomainDataKey (key : string) (value : Scalar) (domain : string)
  : Eff.M World unit :=
  (let* w := Eff.get in
   if errorDecrypting (payload (this w)) then Eff.ret tt
   else
     match content (this w) with
     | NoContent => Eff.throw (TypeError "Cannot read properties of undefined")
     | Ciphertext _ => Eff.throw (TypeError "Cannot create property on string")
     | Decrypted c =>
         match appDataOf c with
         | None => Eff.throw (TypeError "Cannot create property on a primitive")
         | Some globalData =>
             let domainData := default ∅ (globalData !! domain) in
             setThisContent
               (Decrypted
                  (<["appData" :=
                       JDomains (<[domain := <[key := value]> domainData]> globalData)]> c))
         end
     end)%eff.

Definition setAppDataItem (key : string) (value : Scalar) : Eff.M World unit :=
  setDomainDataKey key value SNItem.DefaultAppDomain.

Definition set_pinned (pinned : bool) : Eff.M World unit := setAppDataItem "pinned" (SBool pinned).
Definition set_archived (archived : bool) : Eff.M World unit := setAppDataItem "archived" (SBool archived).
Definition set_locked (locked : bool) : Eff.M World unit := setAppDataItem "locked" (SBool locked).

Definition hasReference (references : list ContentReference) (i : SNItem.t) : bool :=
  existsb (fun r => bool_decide (ref_uuid r = SNItem.uuid i)) references.

Definition addItemAsRelationship (i : SNItem.t) : Eff.M World unit :=
  (let* w := Eff.get in
   match content (this w) with
   | NoContent => Eff.throw (TypeError "Cannot read properties of undefined")
   | Ciphertext _ => Eff.throw (TypeError "Cannot create property on string")
   | Decrypted c =>
       match referencesOf c with
       | None => Eff.throw (TypeError "references.find is not a function")
       | Some references =>
           let references' :=
             if hasReference references i then references
             else references ++ [mkReference (SNItem.uuid i) (SNItem.content_type i)] in
           setThisContent (Decrypted (<["references" := JReferences references']> c))
       end
   end)%eff.

Definition removeItemAsRelationship (i : SNItem.t) : Eff.M World unit :=
  (let* w := Eff.get in
   match content (this w) with
   | NoContent => Eff.throw (TypeError "Cannot read properties of undefined")
   | Ciphertext _ => Eff.throw (TypeError "Cannot create property on string")
   | Decrypted c =>
       match referencesOf c with
       | None => Eff.throw (TypeError "references.filter is not a function")
       | Some references =>
           let references' :=
             List.filter (fun r => negb (bool_decide (ref_uuid r = SNItem.uuid i))) references in
           setThisContent (Decrypted (<["references" := JReferences references']> c))
       end
   end)%eff.

(** [SNItem.getDomainData] and [SNItem.getAppDomainValue], read off the
    payload's [safeContent] (the content when it is an object, an empty
    object otherwise). The second indexes the domain data without a
    check. *)
Definition getDomainData (i : SNItem.t) (domain : string) : option (gmap string Scalar) :=
  match SNItem.content i with
  | Decrypted c =>
      match c !! "appData" with
      | Some (JDomains d) => d !! domain
      | _ => None
      end
  | _ => None
  end.

Definition getAppDomainValue (i : SNItem.t) (key : string) : Outcome (option Scalar) :=
  match getDomainData i SNItem.DefaultAppDomain with
  | None => Thrown (TypeError "Cannot read properties of undefined")
  | Some appData => Returned (appData !! key)
  end.

Definition liftOutcome {S A} (o : Outcome A) : Eff.M S A := fun s => (o, s).

Section WithClock.
Variable timeAt : nat -> Z.

Definition newDate : Eff.M World Z :=
  fun w => (Returned (timeAt (reads w)), mkWorld (this w) (S (reads w))).

(** [ItemMutator.getResult]. *)
Definition getResult : Eff.M World PurePayload :=
  (let* w := Eff.get in
   let* _ :=
     if negb (deleted (payload (this w))) then
       if source (this w) =? UserInteraction then
         let* now := newDate in
         setAppDataItem UserModifiedDateKey (SDate now)
       else
         let* currentValue :=
           liftOutcome (getAppDomainValue (item (this w)) UserModifiedDateKey) in
         if negb (from_option truthy false currentValue) then
           setAppDataItem UserModifiedDateKey
             (from_option SDate SInvalidDate (SNItem.updated_at (item (this w))))
         else Eff.ret tt
     else Eff.ret tt in
   let* now := newDate in
   let* w' := Eff.get in
   Eff.ret (CopyPayload (payload (this w'))
              [SetContent (content (this w')); SetDirty true; SetDirtiedDate now]))%eff.

End WithClock.





Definition exampleClock (n : nat) : Z := 1617004805233 + Z.of_nat n.

End Mutator.

(** ** Migration service *)

Module Migrations.

(** A migration class, as [migrationImports] exports it: what matters
    of it is its static [version()]. *)
Record MigrationClass := mkMigration {
  className : string;
  version : string
}.

#[global] Instance MigrationClass_eq_dec : EqDecision MigrationClass.
Proof. solve_decision. Defined.

(** What the service reads from its environment: the raw storage of the
    device interface, and the answer of the base migration's
    [needsKeychainRepair]. *)
Record Services := mkServices {
  rawStorage : gmap string string;
  identifier : string;
  needsKeychainRepair : bool
}.

(** Modelled from the spec: [namespacedKey(identifier,
    RawStorageKey.SnjsVersion)] of lib/storage_keys (not part of the
    sources): the key [snjs_version], namespaced by the application
    identifier. *)
Definition namespacedKey (namespace key : string) : string :=
  String.append namespace (String.append "-" key).

Definition SnjsVersionKey : string := "snjs_version".

Section WithVersions.
(** [compareSemVersions] and [isRightVersionGreaterThanLeft] come from
    lib/version, which is not part of the sources; they and the list of
    exported migration classes are parameters. *)
Variable compareSemVersions : string -> string -> Z.
Variable isRightVersionGreaterThanLeft : string -> string -> bool.
Variable migrationImports : list MigrationClass.

(** [SNMigrationService.getRequiredMigrations]. *)
Definition getRequiredMigrations (storedVersion : string) : list MigrationClass :=
  let migrationClasses :=
    JS.sort (fun a b => Some (compareSemVersions (version a) (version b))) migrationImports in
  fold_left
    (fun resultingClasses migrationClass =>
       let migrationVersion := version migrationClass in
       if bool_decide (migrationVersion = storedVersion) then resultingClasses
       else if isRightVersionGreaterThanLeft storedVersion migrationVersion
            then resultingClasses ++ [migrationClass]
            else resultingClasses)
    migrationClasses [].

(** [getStoredSnjsVersion]: a missing (or empty) value throws the
    logged [Error]. *)
Definition getStoredSnjsVersion (services : Services) : Outcome string :=
  match rawStorage services !! namespacedKey (identifier services) SnjsVersionKey with
  | Some v =>
      if bool_decide (v = "")
      then Thrown (ErrorObject "Error" "Snjs version missing from storage, run base migration.")
      else Returned v
  | None => Thrown (ErrorObject "Error" "Snjs version missing from storage, run base migration.")
  end.

(** [hasPendingMigrations]. *)
Definition hasPendingMigrations (services : Services) : Outcome bool :=
  match getStoredSnjsVersion services with
  | Thrown e => Thrown e
  | Returned storedVersion =>
      let requiredMigrations := getRequiredMigrations storedVersion in
      Returned ((0 <? length requiredMigrations)%nat || needsKeychainRepair services)
  end.

End WithVersions.

(** Modelled from the spec: a semantic version is [major.minor.patch];
    versions compare by their numeric components, left to right; a
    component that is missing counts as zero. The answer is [-1], [0] or
    [1]. *)
Definition digitValue (c : ascii) : N := (N_of_ascii c - 48) mod 10.

Fixpoint parseNumber (acc : N) (s : string) : N :=
  match s with
  | EmptyString => acc
  | String c s' => parseNumber (10 * acc + digitValue c) s'
  end.

Fixpoint splitOnDot (current : string) (s : string) : list string :=
  match s with
  | EmptyString => [current]
  | String c s' =>
      if Ascii.eqb c "."%char then current :: splitOnDot "" s'
      else splitOnDot (String.append current (String c EmptyString)) s'
  end.

Definition components (v : string) : Z * Z * Z :=
  let parts := map (fun p => Z.of_N (parseNumber 0 p)) (splitOnDot "" v) in
  (nth 0 parts 0, nth 1 parts 0, nth 2 parts 0).

Definition compareNumbers (x y : Z) (otherwise : Z) : Z :=
  if x <? y then -1 else if y <? x then 1 else otherwise.

Definition semverCompare (left right : string) : Z :=
  let '(a1, b1, c1) := components left in
  let '(a2, b2, c2) := components right in
  compareNumbers a1 a2 (compareNumbers b1 b2 (compareNumbers c1 c2 0)).

Definition semverRightGreater (left right : string) : bool :=
  semverCompare left right =? -1.

(** A comparator the sort and the filter can rely on. *)
Record ComparatorLaws (compare : string -> string -> Z) (rightGreater : string -> string -> bool)
  : Prop := mkLaws {
  greater_iff : forall l r, rightGreater l r = true <-> compare l r < 0;
  compare_refl : forall v, compare v v = 0;
  compare_flip : forall a b, 0 < compare a b -> compare b a < 0;
  compare_trans : forall a b c, compare a b <= 0 -> compare b c <= 0 -> compare a c <= 0
}.

(** Ascending order of versions. *)
Definition ascending (compare : string -> string -> Z) (a b : MigrationClass) : Prop :=
  compare (version a) (version b) <= 0.

Definition exampleImports : list MigrationClass :=
  [mkMigration "Migration2_7_0" "2.7.0"; mkMigration "Migration2_0_15" "2.0.15";
   mkMigration "Migration2_0_0" "2.0.0"].

Definition exampleServices (stored : string) (repair : bool) : Services :=
  mkServices (<["app-snjs_version" := stored]> ∅) "app" repair.

End Migrations.

(** ** Session manager *)

Module Session.

Definition MINIMUM_PASSWORD_LENGTH : Z := 8.

(** A JavaScript string whose [length] matters: its UTF-16 code units. *)
Abbreviation CodeUnits := (list N).

(** The texts of services/api/messages (not part of the sources), by
    name. *)
Inductive Message :=
| InsufficientPasswordMessage (minimum : Z)
| API_MESSAGE_FALLBACK_LOGIN_FAIL
| UNSUPPORTED_PROTOCOL_VERSION
| EXPIRED_PROTOCOL_VERSION
| INVALID_PASSWORD_COST
| OUTDATED_PROTOCOL_VERSION
| OUTDATED_PROTOCOL_ALERT_TITLE
| OUTDATED_PROTOCOL_ALERT_IGNORE
| UNSUPPORTED_KEY_DERIVATION
| StrictSignInFailed (current latest : string).

#[global] Instance Message_eq_dec : EqDecision Message.
Proof. solve_decision. Defined.

Record User := mkUser {
  user_uuid : string;
  user_email : string
}.

#[global] Instance User_eq_dec : EqDecision User.
Proof. solve_decision. Defined.

(** Key params as the sign-in flow reads them: the protocol version and
    the legacy cost [content002.pw_cost], which newer versions lack. *)
Record KeyParams := mkKeyParams {
  version : string;
  pw_cost : option Z;
  pw_nonce : string
}.

#[global] Instance KeyParams_eq_dec : EqDecision KeyParams.
Proof. solve_decision. Defined.

Record RootKey := mkRootKey {
  masterKey : string;
  serverPassword : string;
  keyParams : KeyParams
}.

#[global] Instance RootKey_eq_dec : EqDecision RootKey.
Proof. solve_decision. Defined.

(** An HTTP response: an error (created locally from a message, or sent
    by the server, then possibly asking for an MFA code), or a success
    carrying the user, a legacy JWT token if any, and key params. *)
Inductive HttpError :=
| LocalError (m : Message)
| ServerError (text : string) (mfa_key : option string).

#[global] Instance HttpError_eq_dec : EqDecision HttpError.
Proof. solve_decision. Defined.

Record HttpResponse := mkResponse {
  error : option HttpError;
  user : option User;
  token : option string;
  key_params : option KeyParams
}.

#[global] Instance HttpResponse_eq_dec : EqDecision HttpResponse.
Proof. solve_decision. Defined.

(** [apiService.createErrorResponse(message)]. *)
Definition createErrorResponse (m : Message) : HttpResponse :=
  mkResponse (Some (LocalError m)) None None None.

Record SessionManagerResponse := mkSMResponse {
  response : HttpResponse;
  rootKey : option RootKey
}.

Inductive SessionToken :=
| JwtSession (token : string)
| TokenSession (fromResponse : HttpResponse).

(** What the session manager asks of its collaborators, in the order it
    asks. *)
Inductive Call :=
| GetAccountKeyParams (email : string)
| Confirm (text title confirmButtonText : Message)
| CreateRootKey (email : string) (password : CodeUnits)
| ComputeRootKey (password : CodeUnits) (params : KeyParams)
| ApiRegister (email serverPassword : string) (params : KeyParams)
| ApiSignIn (email serverPassword : string) (mfaKeyPath mfaCode : option string)
| PromptForMfaValue
| StorageSetUser (u : option User)
| ApiSetSession (s : SessionToken).

(** The collaborators themselves (API service, protocol service, alert
    service, challenge prompts): none of them is part of the sources;
    they are the environment of the session manager. *)
Record Env := mkEnv {
  apiGetAccountKeyParams : string -> HttpResponse;
  KeyParamsFromApiResponse : HttpResponse -> option KeyParams;
  supportedVersions : list string;
  isVersionNewerThanLibraryVersion : string -> bool;
  isProtocolVersionOutdated : string -> bool;
  costMinimumForVersion : string -> Z;
  platformSupportsKeyDerivation : KeyParams -> bool;
  getLatestVersion : string;
  leftVersionGreaterThanOrEqualToRight : string -> string -> bool;
  alertConfirm : Message -> Message -> Message -> bool;
  createRootKey : string -> CodeUnits -> RootKey;
  computeRootKey : CodeUnits -> KeyParams -> RootKey;
  ExpandedCopy : RootKey -> option KeyParams -> RootKey;
  apiRegister : string -> string -> KeyParams -> HttpResponse;
  apiSignIn : string -> string -> option string -> option string -> HttpResponse
}.

(** The session manager's own state ([this.user]), the session the API
    service holds, the user record in storage, the answers the user will
    give to successive MFA prompts, and the calls made so far. *)
Record World := mkWorld {
  thisUser : option User;
  apiSession : option SessionToken;
  storedUser : option User;
  mfaAnswers : list (option string);
  calls : list Call
}.

Definition call (c : Call) : Eff.M World unit :=
  Eff.modify (fun w =>
    mkWorld (thisUser w) (apiSession w) (storedUser w) (mfaAnswers w) (calls w ++ [c])).

Definition setSession (s : SessionToken) : Eff.M World unit :=
  (let* _ := call (ApiSetSession s) in
   Eff.modify (fun w =>
     mkWorld (thisUser w) (Some s) (storedUser w) (mfaAnswers w) (calls w)))%eff.

(** [handleSuccessAuthResponse]: a response with a truthy [token] is a
    legacy JWT response; any other makes a token session. *)
Definition handleSuccessAuthResponse (r : HttpResponse) : Eff.M World unit :=
  (let* _ := Eff.modify (fun w =>
     mkWorld (user r) (apiSession w) (storedUser w) (mfaAnswers w) (calls w)) in
   let* _ := call (StorageSetUser (user r)) in
   let* _ := Eff.modify (fun w =>
     mkWorld (thisUser w) (apiSession w) (user r) (mfaAnswers w) (calls w)) in
   match token r with
   | Some t =>
       if bool_decide (t = "") then setSession (TokenSession r)
       else setSession (JwtSession t)
   | None => setSession (TokenSession r)
   end)%eff.

(** [promptForMfaValue]: the next answer of the user; a dismissed prompt
    (or no answer left) is [None]. *)
Definition promptForMfaValue : Eff.M World (option string) :=
  (let* _ := call PromptForMfaValue in
   let* w := Eff.get in
   match mfaAnswers w with
   | [] => Eff.ret None
   | answer :: rest =>
       let* _ := Eff.put (mkWorld (thisUser w) (apiSession w) (storedUser w) rest (calls w)) in
       Eff.ret answer
   end)%eff.

Section WithEnv.
Variable env : Env.

(** [register(email, password)]. *)
Definition register (email : string) (password : CodeUnits)
  : Eff.M World SessionManagerResponse :=
  (if Z.of_nat (length password) <? MINIMUM_PASSWORD_LENGTH then
     Eff.ret (mkSMResponse
                (createErrorResponse (InsufficientPasswordMessage MINIMUM_PASSWORD_LENGTH))
                None)
   else
     let* _ := call (CreateRootKey email password) in
     let rootKey := createRootKey env email password in
     let serverPassword := serverPassword rootKey in
     let keyParams := keyParams rootKey in
     let* _ := call (ApiRegister email serverPassword keyParams) in
     let registerResponse := apiRegister env email serverPassword keyParams in
     let* _ :=
       match error registerResponse with
       | None => handleSuccessAuthResponse registerResponse
       | Some _ => Eff.ret tt
       end in
     Eff.ret (mkSMResponse registerResponse (Some rootKey)))%eff.

(** [bypassChecksAndSignInWithServerPassword]. The user is prompted
    when the error carries a truthy [mfa_key]. Every further round
    consumes one answer to the MFA prompt, and a prompt with no answer
    left is dismissed; [rounds] bounds the recursion and, set to more
    than the answers left, is never what stops it. *)
Fixpoint signInRounds (rounds : nat)
    (email serverPassword : string) (mfaKeyPath mfaCode : option string)
  : Eff.M World HttpResponse :=
  (let* _ := call (ApiSignIn email serverPassword mfaKeyPath mfaCode) in
   let signInResponse := apiSignIn env email serverPassword mfaKeyPath mfaCode in
   match error signInResponse with
   | None =>
       let* _ := handleSuccessAuthResponse signInResponse in
       Eff.ret signInResponse
   | Some (ServerError _ (Some mfa_key)) =>
       if bool_decide (mfa_key = "") then Eff.ret signInResponse
       else
         let* mfaCode := promptForMfaValue in
         match mfaCode, rounds with
         | Some code, S rounds' =>
             if bool_decide (code = "") then Eff.ret signInResponse
             else signInRounds rounds' email serverPassword (Some mfa_key) (Some code)
         | _, _ => Eff.ret signInResponse
         end
   | Some _ => Eff.ret signInResponse
   end)%eff.

Definition bypassChecksAndSignInWithServerPassword
    (email serverPassword : string) (mfaKeyPath mfaCode : option string)
  : Eff.M World HttpResponse :=
  (let* w := Eff.get in
   signInRounds (S (length (mfaAnswers w))) email serverPassword mfaKeyPath mfaCode)%eff.

(** [keyParams.content002.pw_cost < minimum]; comparing [undefined] is
    false. *)
Definition costBelow (params : KeyParams) (minimum : Z) : bool :=
  match pw_cost params with
  | Some cost => cost <? minimum
  | None => false
  end.

(** The end of [signIn]: derive the root key and sign in with its server
    password. *)
Definition authenticate (email : string) (password : CodeUnits) (params : KeyParams)
  : Eff.M World SessionManagerResponse :=
  (let* _ := call (ComputeRootKey password params) in
   let rootKey := computeRootKey env password params in
   let* signInResponse :=
     bypassChecksAndSignInWithServerPassword email (serverPassword rootKey) None None in
   Eff.ret (mkSMResponse signInResponse
              (Some (ExpandedCopy env rootKey (key_params signInResponse)))))%eff.

(** [signIn] from the key derivation check on. *)
Definition signInChecked (email : string) (password : CodeUnits) (strict : bool)
    (minAllowedVersion : option string) (params : KeyParams)
  : Eff.M World SessionManagerResponse :=
  if negb (platformSupportsKeyDerivation env params) then
    Eff.ret (mkSMResponse (createErrorResponse UNSUPPORTED_KEY_DERIVATION) None)
  else
    let minAllowedVersion :=
      if strict then Some (getLatestVersion env) else minAllowedVersion in
    match minAllowedVersion with
    | Some minimum =>
        if negb (leftVersionGreaterThanOrEqualToRight env (version params) minimum)
        then Eff.ret (mkSMResponse
                        (createErrorResponse (StrictSignInFailed (version params) minimum))
                        None)
        else authenticate email password params
    | None => authenticate email password params
    end.

(** [signIn(email, password, strict, minAllowedVersion)]. *)
Definition signIn (email : string) (password : CodeUnits) (strict : bool)
    (minAllowedVersion : option string) : Eff.M World SessionManagerResponse :=
  (let* _ := call (GetAccountKeyParams email) in
   let paramsResponse := apiGetAccountKeyParams env email in
   match error paramsResponse with
   | Some _ => Eff.ret (mkSMResponse paramsResponse None)
   | None =>
   match KeyParamsFromApiResponse env paramsResponse with
   | None => Eff.ret (mkSMResponse (createErrorResponse API_MESSAGE_FALLBACK_LOGIN_FAIL) None)
   | Some keyParams =>
   if bool_decide (version keyParams = "") then
     Eff.ret (mkSMResponse (createErrorResponse API_MESSAGE_FALLBACK_LOGIN_FAIL) None)
   else if negb (bool_decide (version keyParams ∈ supportedVersions env)) then
     if isVersionNewerThanLibraryVersion env (version keyParams)
     then Eff.ret (mkSMResponse (createErrorResponse UNSUPPORTED_PROTOCOL_VERSION) None)
     else Eff.ret (mkSMResponse (createErrorResponse EXPIRED_PROTOCOL_VERSION) None)
   else if isProtocolVersionOutdated env (version keyParams) then
     (* Cost minimums only apply to now outdated versions (001 and 002) *)
     let minimum := costMinimumForVersion env (version keyParams) in
     if costBelow keyParams minimum then
       Eff.ret (mkSMResponse (createErrorResponse INVALID_PASSWORD_COST) None)
     else
       let* _ := call (Confirm OUTDATED_PROTOCOL_VERSION OUTDATED_PROTOCOL_ALERT_TITLE
                         OUTDATED_PROTOCOL_ALERT_IGNORE) in
       let confirmed := alertConfirm env OUTDATED_PROTOCOL_VERSION
                          OUTDATED_PROTOCOL_ALERT_TITLE OUTDATED_PROTOCOL_ALERT_IGNORE in
       if negb confirmed then
         Eff.ret (mkSMResponse (createErrorResponse API_MESSAGE_FALLBACK_LOGIN_FAIL) None)
       else signInChecked email password strict minAllowedVersion keyParams
   else signInChecked email password strict minAllowedVersion keyParams
   end end)%eff.

End WithEnv.

(** The world after further calls. *)
Definition afterCalls (w : World) (cs : list Call) : World :=
  mkWorld (thisUser w) (apiSession w) (storedUser w) (mfaAnswers w) (calls w ++ cs).

(** A concrete environment: an account on protocol 002 with the given
    cost, a platform that asks 3000 at least, and a user who answers the
    outdated-protocol warning with [confirms]. *)
Definition exampleEnv (cost : Z) (confirms : bool) : Env :=
  let params := mkKeyParams "002" (Some cost) "nonce" in
  let success := mkResponse None (Some (mkUser "u-1" "a@b.c")) None (Some params) in
  mkEnv
    (fun _ => mkResponse None None None (Some params))
    key_params
    ["001"; "002"; "003"; "004"]
    (fun v => negb (String.leb v "004"))
    (fun v => bool_decide (v = "001") || bool_decide (v = "002"))
    (fun _ => 3000)
    (fun _ => true)
    "004"
    (fun l r => String.leb r l)
    (fun _ _ _ => confirms)
    (fun _ _ => mkRootKey "master" "server" params)
    (fun _ p => mkRootKey "master" "server" p)
    (fun k _ => k)
    (fun _ _ _ => success)
    (fun _ _ _ _ => success).

Definition signedOut : World := mkWorld None None None [] [].

End Session.

(** ** Payload manager *)

Module PayloadManager.
Import Payloads.

Definition ItemsKey : string := "SN|ItemsKey".

(** What an emission tells the observers. The observer read here does
    not look at the discarded payloads, and they are left out. *)
Record Emission := mkEmission {
  changed : list PurePayload;
  inserted : list PurePayload;
  ignored : list PurePayload;
  emissionSource : PayloadSource
}.

(** Modelled from the spec: the ignored-key rule of the payload manager
    (not part of the sources). An incoming items key that is
    [errorDecrypting] while the master copy decrypts is ignored. *)
Definition isIgnored (master : gmap string PurePayload) (incoming : PurePayload) : bool :=
  bool_decide (content_type incoming = ItemsKey)
  && errorDecrypting incoming
  && match master !! uuid incoming with
     | Some current => negb (errorDecrypting current)
     | None => false
     end.

(** Modelled from the spec: one incoming payload is either ignored, the
    master copy kept, or laid over the master collection and reported as
    changed (the uuid was there) or inserted (it was not). *)
Definition mergeOntoMaster (state : gmap string PurePayload * Emission) (incoming : PurePayload)
  : gmap string PurePayload * Emission :=
  let '(master, e) := state in
  if isIgnored master incoming then
    (master, mkEmission (changed e) (inserted e) (ignored e ++ [incoming]) (emissionSource e))
  else
    match master !! uuid incoming with
    | Some _ =>
        (<[uuid incoming := incoming]> master,
         mkEmission (changed e ++ [incoming]) (inserted e) (ignored e) (emissionSource e))
    | None =>
        (<[uuid incoming := incoming]> master,
         mkEmission (changed e) (inserted e ++ [incoming]) (ignored e) (emissionSource e))
    end.



End PayloadManager.

(** ** Key recovery service *)

Module KeyRecovery.
Import Payloads.

(** The embedded key params of an items key; what they hold is of no
    concern here. *)
Record DecryptionQueueItem (KeyParams : Type) := mkQueueItem {
  key : SNItem.t;
  keyParams : KeyParams;
  removesFromUndecryptablesOnSuccess : bool
}.
Arguments mkQueueItem {KeyParams}.
Arguments key {KeyParams}.

(** The master collection of the payload manager, the value stored under
    [key_recovery_undecryptable_items] (absent until first written), and
    the decryption queue. *)
Record World (KeyParams : Type) := mkWorld {
  master : gmap string PurePayload;
  undecryptableItems : option (gmap string PurePayload);
  decryptionQueue : list (DecryptionQueueItem KeyParams)
}.
Arguments mkWorld {KeyParams}.
Arguments master {KeyParams}.
Arguments undecryptableItems {KeyParams}.
Arguments decryptionQueue {KeyParams}.

(** [payload.ejected()]: the raw payload, the same fields. *)
Definition ejected (p : PurePayload) : PurePayload := p.

Section WithCollaborators.
Context {KeyParams : Type}.
(** [protocolService.getKeyEmbeddedKeyParams], and the recovery wizard
    [beginProcessingQueue] (prompts, key derivation, sign-in): the first
    is not part of the sources, the second is left as it is found. *)
Variable getKeyEmbeddedKeyParams : SNItem.t -> option KeyParams.
Variable beginProcessingQueue : World KeyParams -> World KeyParams.

(** [getUndecryptables]: the stored record, [{}] by default. *)
Definition getUndecryptables (w : World KeyParams) : gmap string PurePayload :=
  default ∅ (undecryptableItems w).

Definition persistUndecryptables (record : gmap string PurePayload) (w : World KeyParams)
  : World KeyParams :=
  mkWorld (master w) (Some record) (decryptionQueue w).

(** [saveToUndecryptables(keys)]. *)
Definition saveToUndecryptables (keys : list SNItem.t) (w : World KeyParams) : World KeyParams :=
  let record := getUndecryptables w in
  let record :=
    fold_left (fun record key => <[SNItem.uuid key := ejected (SNItem.payload key)]> record)
      keys record in
  persistUndecryptables record w.






End WithCollaborators.





End KeyRecovery.

(** ** Sync manager: the sync operation *)

Module Sync.
Import Payloads.

Definition DEFAULT_MAJOR_CHANGE_THRESHOLD : nat := 15.
Definition INVALID_SESSION_RESPONSE_STATUS : Z := 401.

Definition TIMING_STRATEGY_RESOLVE_ON_NEXT : Z := 1.
Definition TIMING_STRATEGY_FORCE_SPAWN_NEW : Z := 2.

Definition SYNC_MODE_DEFAULT : Z := 1.
Definition SYNC_MODE_INITIAL : Z := 2.

(** The argument of [sync]: each field may be left out. *)
Record SyncOptions := mkOptions {
  timingStrategy : option Z;
  mode : option Z;
  checkIntegrity : option bool
}.

Definition noOptions : SyncOptions := mkOptions None None None.

Inductive SyncEvents :=
| SyncError (error : string)
| InvalidSession
| SingleSyncCompleted
| FullSyncCompleted
| InitialSyncCompleted
| MajorDataChange.

Inductive EncryptionIntents := IntentSync | IntentLocalStorageDecrypted.

(** A server response, as far as the manager itself looks into it; the
    rest of it is for the success handler. *)
Record Response (Body : Type) := mkResponse {
  hasError : bool;
  status : Z;
  error : string;
  body : Body
}.
Arguments mkResponse {Body}.
Arguments hasError {Body}.
Arguments status {Body}.
Arguments error {Body}.
Arguments body {Body}.

(** What an operation signals to its receiver while it runs; the last
    case stands for the operation itself raising. *)
Inductive Signal (Body : Type) :=
| ResponseSignal (response : Response Body)
| OfflineResponseSignal (payloads : list PurePayload)
| StatusChangedSignal
| Raises (e : Exception).
Arguments ResponseSignal {Body}.
Arguments OfflineResponseSignal {Body}.
Arguments StatusChangedSignal {Body}.
Arguments Raises {Body}.

(** What the manager does to its collaborators, in order: payloads saved
    to storage, payloads mapped onto the local items, an operation
    created with the payloads it is to upload, an event notified. *)
Inductive Effect :=
| Persisted (payloads : list PurePayload)
| Emitted (payloads : list PurePayload) (s : option PayloadSource)
| OperationCreated (isOnline : bool) (payloads : option (list PurePayload))
    (integrity : option bool)
| Notified (event : SyncEvents).

Record World := mkWorld {
  locked : bool;
  databaseLoaded : bool;
  completedInitialSync : bool;
  syncInProgress : bool;
  online : bool;
  items : list SNItem.t;
  lastPreSyncSaveDate : option Z;
  resolveQueue : list nat;
  spawnQueue : list (nat * option bool);
  nextPromise : nat;
  resolved : list nat;
  pendingSyncs : list SyncOptions;
  opError : option string;
  lastSyncDate : option Z;
  reads : nat;
  log : list Effect
}.

Definition set_locked (v : bool) (w : World) : World :=
  mkWorld v (databaseLoaded w) (completedInitialSync w) (syncInProgress w) (online w)
    (items w) (lastPreSyncSaveDate w) (resolveQueue w) (spawnQueue w) (nextPromise w)
    (resolved w) (pendingSyncs w) (opError w) (lastSyncDate w) (reads w) (log w).

Definition set_databaseLoaded (v : bool) (w : World) : World :=
  mkWorld (locked w) v (completedInitialSync w) (syncInProgress w) (online w) (items w)
    (lastPreSyncSaveDate w) (resolveQueue w) (spawnQueue w) (nextPromise w) (resolved w)
    (pendingSyncs w) (opError w) (lastSyncDate w) (reads w) (log w).

Definition set_completedInitialSync (v : bool) (w : World) : World :=
  mkWorld (locked w) (databaseLoaded w) v (syncInProgress w) (online w) (items w)
    (lastPreSyncSaveDate w) (resolveQueue w) (spawnQueue w) (nextPromise w) (resolved w)
    (pendingSyncs w) (opError w) (lastSyncDate w) (reads w) (log w).

Definition set_syncInProgress (v : bool) (w : World) : World :=
  mkWorld (locked w) (databaseLoaded w) (completedInitialSync w) v (online w) (items w)
    (lastPreSyncSaveDate w) (resolveQueue w) (spawnQueue w) (nextPromise w) (resolved w)
    (pendingSyncs w) (opError w) (lastSyncDate w) (reads w) (log w).

Definition set_online (v : bool) (w : World) : World :=
  mkWorld (locked w) (databaseLoaded w) (completedInitialSync w) (syncInProgress w) v
    (items w) (lastPreSyncSaveDate w) (resolveQueue w) (spawnQueue w) (nextPromise w)
    (resolved w) (pendingSyncs w) (opError w) (lastSyncDate w) (reads w) (log w).

Definition set_items (v : list SNItem.t) (w : World) : World :=
  mkWorld (locked w) (databaseLoaded w) (completedInitialSync w) (syncInProgress w)
    (online w) v (lastPreSyncSaveDate w) (resolveQueue w) (spawnQueue w) (nextPromise w)
    (resolved w) (pendingSyncs w) (opError w) (lastSyncDate w) (reads w) (log w).

Definition set_lastPreSyncSaveDate (v : option Z) (w : World) : World :=
  mkWorld (locked w) (databaseLoaded w) (completedInitialSync w) (syncInProgress w)
    (online w) (items w) v (resolveQueue w) (spawnQueue w) (nextPromise w) (resolved w)
    (pendingSyncs w) (opError w) (lastSyncDate w) (reads w) (log w).

Definition set_resolveQueue (v : list nat) (w : World) : World :=
  mkWorld (locked w) (databaseLoaded w) (completedInitialSync w) (syncInProgress w)
    (online w) (items w) (lastPreSyncSaveDate w) v (spawnQueue w) (nextPromise w)
    (resolved w) (pendingSyncs w) (opError w) (lastSyncDate w) (reads w) (log w).

Definition set_spawnQueue (v : list (nat * option bool)) (w : World) : World :=
  mkWorld (locked w) (databaseLoaded w) (completedInitialSync w) (syncInProgress w)
    (online w) (items w) (lastPreSyncSaveDate w) (resolveQueue w) v (nextPromise w)
    (resolved w) (pendingSyncs w) (opError w) (lastSyncDate w) (reads w) (log w).

Definition set_nextPromise (v : nat) (w : World) : World :=
  mkWorld (locked w) (databaseLoaded w) (completedInitialSync w) (syncInProgress w)
    (online w) (items w) (lastPreSyncSaveDate w) (resolveQueue w) (spawnQueue w) v
    (resolved w) (pendingSyncs w) (opError w) (lastSyncDate w) (reads w) (log w).

Definition set_resolved (v : list nat) (w : World) : World :=
  mkWorld (locked w) (databaseLoaded w) (completedInitialSync w) (syncInProgress w)
    (online w) (items w) (lastPreSyncSaveDate w) (resolveQueue w) (spawnQueue w)
    (nextPromise w) v (pendingSyncs w) (opError w) (lastSyncDate w) (reads w) (log w).

Definition set_pendingSyncs (v : list SyncOptions) (w : World) : World :=
  mkWorld (locked w) (databaseLoaded w) (completedInitialSync w) (syncInProgress w)
    (online w) (items w) (lastPreSyncSaveDate w) (resolveQueue w) (spawnQueue w)
    (nextPromise w) (resolved w) v (opError w) (lastSyncDate w) (reads w) (log w).

Definition set_opError (v : option string) (w : World) : World :=
  mkWorld (locked w) (databaseLoaded w) (completedInitialSync w) (syncInProgress w)
    (online w) (items w) (lastPreSyncSaveDate w) (resolveQueue w) (spawnQueue w)
    (nextPromise w) (resolved w) (pendingSyncs w) v (lastSyncDate w) (reads w) (log w).

Definition set_lastSyncDate (v : option Z) (w : World) : World :=
  mkWorld (locked w) (databaseLoaded w) (completedInitialSync w) (syncInProgress w)
    (online w) (items w) (lastPreSyncSaveDate w) (resolveQueue w) (spawnQueue w)
    (nextPromise w) (resolved w) (pendingSyncs w) (opError w) v (reads w) (log w).

Definition set_reads (v : nat) (w : World) : World :=
  mkWorld (locked w) (databaseLoaded w) (completedInitialSync w) (syncInProgress w)
    (online w) (items w) (lastPreSyncSaveDate w) (resolveQueue w) (spawnQueue w)
    (nextPromise w) (resolved w) (pendingSyncs w) (opError w) (lastSyncDate w) v (log w).

Definition set_log (v : list Effect) (w : World) : World :=
  mkWorld (locked w) (databaseLoaded w) (completedInitialSync w) (syncInProgress w)
    (online w) (items w) (lastPreSyncSaveDate w) (resolveQueue w) (spawnQueue w)
    (nextPromise w) (resolved w) (pendingSyncs w) (opError w) (lastSyncDate w) (reads w)
    v.

(** How a call of [sync] ends for its caller, a throw apart: it returns
    at once because syncing is locked; it hands back a promise that a
    later sync settles; it runs to its end; or it ends in the tail call
    [return this.sync()]. *)
Inductive RoundResult :=
| ReturnedLocked
| Deferred (promise : nat)
| Finished
| Chained.

Definition effect (e : Effect) : Eff.M World unit :=
  Eff.modify (fun w => set_log (log w ++ [e]) w).

Definition notifyEvent (event : SyncEvents) : Eff.M World unit :=
  effect (Notified event).

Definition newDate (timeAt : nat -> Z) : Eff.M World Z :=
  fun w => (Returned (timeAt (reads w)), set_reads (S (reads w)) w).

(** Modelled from the spec: [modelManager.getDirtyItems], the items with
    [dirty = true] (the model manager is not part of the sources). *)
Definition getDirtyItems (w : World) : list SNItem.t :=
  List.filter SNItem.dirty (items w).

Definition itemsNeedingSync : Eff.M World (list SNItem.t) :=
  fun w => (Returned (getDirtyItems w), w).

(** Modelled from the spec: mapping a payload onto the local items lays
    it over the item of the same uuid, or adds an item for it. *)
Fixpoint overlay (its : list SNItem.t) (p : PurePayload) : list SNItem.t :=
  match its with
  | [] => [SNItem.mkItem p SNItem.BaseItem]
  | i :: rest =>
      if bool_decide (SNItem.uuid i = uuid p)
      then SNItem.mkItem p (SNItem.class i) :: rest
      else i :: overlay rest p
  end.

Definition mapPayloadsToLocalItems (payloads : list PurePayload) (s : option PayloadSource)
  : Eff.M World unit :=
  (let* _ := effect (Emitted payloads s) in
   Eff.modify (fun w => set_items (fold_left overlay payloads (items w)) w))%eff.

(** Modelled from the spec: [modelManager.setItemsProperties] gives
    each of the items the properties, here [lastSyncBegan]. *)
Definition setItemsProperties (its : list SNItem.t) (began : Z) : Eff.M World unit :=
  Eff.modify (fun w =>
    set_items
      (fold_left overlay
         (map (fun i => SNItem.payloadRepresentation i [SetLastSyncBegan began]) its)
         (items w)) w).

(** [persistPayloads]: nothing is saved for an empty list. The storage
    manager is not part of the sources; saving is recorded, and is taken
    not to fail. *)
Definition persistPayloads (decryptedPayloads : list PurePayload) : Eff.M World unit :=
  if (length decryptedPayloads =? 0)%nat then Eff.ret tt
  else effect (Persisted decryptedPayloads).

(** [subtractFromArray(array, toSubtract)] of lib/utils (not part of the
    sources): the elements of the second array are taken out of the
    first. *)
Definition subtractFromArray {A} `{EqDecision A} (array toSubtract : list A) : list A :=
  List.filter (fun x => negb (bool_decide (x ∈ toSubtract))) array.

Section WithCollaborators.
Context {Body : Type}.
Variable timeAt : nat -> Z.
(** Not part of the sources: what encryption makes of a payload's
    content; the signals an operation delivers once run, and the number
    of items it involved, both told from how it was created. *)
Variable encryptedContent : EncryptionIntents -> PurePayload -> ContentField.
Variable operationSignals : bool -> option (list PurePayload) -> option bool -> list (Signal Body).
Variable numberOfItemsInvolved : bool -> option (list PurePayload) -> option bool -> nat.
(** In the sources, but made of collaborators that are not (decryption,
    the response resolver, the sync state): left as it is found, a step
    that changes the world and may throw. *)
Variable handleSuccessServerResponse : Response Body -> Eff.M World unit.

Definition payloadsByEncryptingPayloads (payloads : list PurePayload) (intent : EncryptionIntents)
  : list PurePayload :=
  map (fun p => CopyPayload p [SetContent (encryptedContent intent p)]) payloads.

(** [popPayloadsNeedingPreSyncSave]. *)
Definition popPayloadsNeedingPreSyncSave (from : list PurePayload)
  : Eff.M World (list PurePayload) :=
  (let* w := Eff.get in
   match lastPreSyncSaveDate w with
   | None => Eff.ret from
   | Some lastPreSyncSave =>
       let payloads :=
         List.filter
           (fun candidate =>
              match dirtiedDate candidate with
              | None => true
              | Some d => lastPreSyncSave <? d
              end)
           from in
       let* now := newDate timeAt in
       let* _ := Eff.modify (set_lastPreSyncSaveDate (Some now)) in
       Eff.ret payloads
   end)%eff.

(** [timingStrategyResolveOnNext] and [timingStrategyForceSpawnNew]: a
    new promise, queued. *)
Definition timingStrategyResolveOnNext : Eff.M World nat :=
  (let* w := Eff.get in
   let promise := nextPromise w in
   let* _ := Eff.modify (fun w =>
     set_nextPromise (S promise) (set_resolveQueue (resolveQueue w ++ [promise]) w)) in
   Eff.ret promise)%eff.

Definition timingStrategyForceSpawnNew (integrity : option bool) : Eff.M World nat :=
  (let* w := Eff.get in
   let promise := nextPromise w in
   let* _ := Eff.modify (fun w =>
     set_nextPromise (S promise)
       (set_spawnQueue (spawnQueue w ++ [(promise, integrity)]) w)) in
   Eff.ret promise)%eff.

(** A call of [this.sync(options)] that is not awaited: the call is
    made, and runs interleaved with what follows; it is recorded, not
    run. *)
Definition syncInBackground (options : SyncOptions) : Eff.M World unit :=
  Eff.modify (fun w => set_pendingSyncs (pendingSyncs w ++ [options]) w).

(** [popSpawnQueue]: whether a sync was spawned from the queue. *)
Definition popSpawnQueue : Eff.M World bool :=
  (let* w := Eff.get in
   match spawnQueue w with
   | [] => Eff.ret false
   | (promise, integrity) :: rest =>
       let* _ := Eff.modify (set_spawnQueue rest) in
       let* _ := syncInBackground
                   (mkOptions (Some TIMING_STRATEGY_FORCE_SPAWN_NEW) None integrity) in
       Eff.ret true
   end)%eff.

Definition handleErrorServerResponse (response : Response Body) : Eff.M World unit :=
  (let* _ :=
     if status response =? INVALID_SESSION_RESPONSE_STATUS
     then notifyEvent InvalidSession else Eff.ret tt in
   let* _ := Eff.modify (set_opError (Some (error response))) in
   notifyEvent (SyncError (error response)))%eff.

Definition handleOfflineResponse (decryptedPayloads : list PurePayload) : Eff.M World unit :=
  (let* _ := persistPayloads decryptedPayloads in
   mapPayloadsToLocalItems decryptedPayloads (Some LocalSaved))%eff.

(** [handleStatusChange] only reports upload counts to the status
    object. *)
Definition handleStatusChange : Eff.M World unit := Eff.ret tt.

(** The receivers [syncOnlineOperation] and [syncOfflineOperation] give
    their operation. *)
Definition receiver (isOnline : bool) (signal : Signal Body) : Eff.M World unit :=
  match signal with
  | ResponseSignal response =>
      if isOnline then
        if hasError response then handleErrorServerResponse response
        else handleSuccessServerResponse response
      else Eff.ret tt
  | OfflineResponseSignal payloads =>
      if isOnline then Eff.ret tt else handleOfflineResponse payloads
  | StatusChangedSignal => handleStatusChange
  | Raises e => Eff.throw e
  end.

(** [operation.run()]: the operation delivers its signals to the
    receiver, one after the other. *)
Definition run (isOnline : bool) (payloads : option (list PurePayload)) (integrity : option bool)
  : Eff.M World unit :=
  Eff.forEach (operationSignals isOnline payloads integrity) (receiver isOnline).

Definition handleSyncOperationCompletion (involved : nat) : Eff.M World unit :=
  (let* now := newDate timeAt in
   let* _ := Eff.modify (fun w => set_lastSyncDate (Some now) (set_opError None w)) in
   let* _ :=
     if (DEFAULT_MAJOR_CHANGE_THRESHOLD <=? involved)%nat
     then notifyEvent MajorDataChange else Eff.ret tt in
   notifyEvent FullSyncCompleted)%eff.

(** [handleNeverSyncedDeleted]. The argument it gives
    [payloadRepresentation] is the object [{override: {dirty: false}}];
    [SNItem.payloadRepresentation(override)] takes the override itself,
    so the object's one key, [override], is what is laid over the
    payload, and it is no field of a payload. *)
Definition neverSyncedDeletedOverride : PayloadOverride := [SetNoField "override"].

Definition handleNeverSyncedDeleted (its : list SNItem.t) : Eff.M World unit :=
  (let payloads :=
     map (fun i => SNItem.payloadRepresentation i neverSyncedDeletedOverride) its in
   let* _ := mapPayloadsToLocalItems payloads None in
   persistPayloads payloads)%eff.

(** The items [sync] sets aside: never synced, and deleted. *)
Definition neverSyncedDeletedOf (its : list SNItem.t) : list SNItem.t :=
  List.filter (fun i => SNItem.neverSynced i && SNItem.deleted i) its.

(** [sync], from the operation's end to its own: the in-time resolvers
    are resolved, a queued or waiting sync is started, completion is
    notified, the never-synced deleted items are cleared, and a further
    sync is chained if need be. *)
Definition afterOperation (useMode : Z) (involved : nat)
    (inTimeResolveQueue : list nat) (neverSyncedDeleted : list SNItem.t)
  : Eff.M World RoundResult :=
  (let* _ := Eff.modify (set_syncInProgress false) in
   let* _ := Eff.modify (fun w => set_resolved (resolved w ++ inTimeResolveQueue) w) in
   let* _ := Eff.modify (fun w =>
     set_resolveQueue (subtractFromArray (resolveQueue w) inTimeResolveQueue) w) in
   let* spawned := popSpawnQueue in
   let* w := Eff.get in
   let* _ :=
     if negb spawned && (0 <? length (resolveQueue w))%nat
     then syncInBackground noOptions else Eff.ret tt in
   let* _ := handleSyncOperationCompletion involved in
   let* _ := handleNeverSyncedDeleted neverSyncedDeleted in
   if useMode =? SYNC_MODE_INITIAL then
     let* _ := Eff.modify (set_completedInitialSync true) in
     let* _ := notifyEvent InitialSyncCompleted in
     Eff.ret Chained
   else
     let* dirtyItems := itemsNeedingSync in
     if (0 <? length dirtyItems)%nat then Eff.ret Chained else Eff.ret Finished)%eff.

(** [sync], where the payloads that need it are saved before any
    request is made. *)
Definition preSyncSave (decryptedPayloads : list PurePayload) : Eff.M World unit :=
  (let* payloadsNeedingSave := popPayloadsNeedingPreSyncSave decryptedPayloads in
   persistPayloads payloadsNeedingSave)%eff.

(** [sync], when a sync is in progress or the database is not loaded. *)
Definition defer (options : SyncOptions) : Eff.M World RoundResult :=
  (let useStrategy := default TIMING_STRATEGY_RESOLVE_ON_NEXT (timingStrategy options) in
   if useStrategy =? TIMING_STRATEGY_RESOLVE_ON_NEXT then
     let* promise := timingStrategyResolveOnNext in
     Eff.ret (Deferred promise)
   else if useStrategy =? TIMING_STRATEGY_FORCE_SPAWN_NEW then
     let* promise := timingStrategyForceSpawnNew (checkIntegrity options) in
     Eff.ret (Deferred promise)
   else
     Eff.throw (BareString (String.append "Unhandled timing strategy " (pretty useStrategy))))%eff.

(** The payloads [sync] hands its operation, by mode. *)
Definition uploadPayloadsFor (useMode : Z) (isOnline : bool) (decryptedPayloads : list PurePayload)
  : Eff.M World (option (list PurePayload)) :=
  (let* w := Eff.get in
   if useMode =? SYNC_MODE_DEFAULT then
     if negb (completedInitialSync w) then
       Eff.throw
         (BareString "Attempting to default mode sync without having completed initial.")
     else
       Eff.ret (Some (payloadsByEncryptingPayloads decryptedPayloads
                        (if isOnline then IntentSync else IntentLocalStorageDecrypted)))
   else if useMode =? SYNC_MODE_INITIAL then Eff.ret (Some [])
   else Eff.ret None)%eff.

(** [sync], once it has begun: the payloads to upload are made, the
    operation is created with them and run, and the round is wound
    up. *)
Definition operate (options : SyncOptions) (isOnline : bool)
    (decryptedPayloads : list PurePayload) (inTimeResolveQueue : list nat)
    (neverSyncedDeleted : list SNItem.t) : Eff.M World RoundResult :=
  (let useMode := default SYNC_MODE_DEFAULT (mode options) in
   let* uploadPayloads := uploadPayloadsFor useMode isOnline decryptedPayloads in
   let integrity := if isOnline then checkIntegrity options else None in
   let* _ := effect (OperationCreated isOnline uploadPayloads integrity) in
   let* _ := run isOnline uploadPayloads integrity in
   afterOperation useMode (numberOfItemsInvolved isOnline uploadPayloads integrity)
     inTimeResolveQueue neverSyncedDeleted)%eff.

(** One call of [sync(options)], up to the tail call that may end it. *)
Definition syncRound (options : SyncOptions) : Eff.M World RoundResult :=
  (let* w := Eff.get in
   if locked w then Eff.ret ReturnedLocked
   else
     let* dirtyItems := itemsNeedingSync in
     let neverSyncedDeleted := neverSyncedDeletedOf dirtyItems in
     let items := subtractFromArray dirtyItems neverSyncedDeleted in
     let decryptedPayloads :=
       map (fun i => CreateMaxPayloadFromAnyObject (SNItem.payload i) []) items in
     let* _ := preSyncSave decryptedPayloads in
     let* w := Eff.get in
     let inTimeResolveQueue := resolveQueue w in
     if syncInProgress w || negb (databaseLoaded w) then defer options
     else
       let* _ := Eff.modify (set_syncInProgress true) in
       let* beginDate := newDate timeAt in
       let* _ := setItemsProperties items beginDate in
       let* w := Eff.get in
       operate options (online w) decryptedPayloads inTimeResolveQueue neverSyncedDeleted)%eff.

(** [sync]: rounds chained by [return this.sync()], as many as [rounds]
    allows; [None] when more were asked for. *)
Fixpoint sync (rounds : nat) (options : SyncOptions) : Eff.M World (option RoundResult) :=
  match rounds with
  | O => Eff.ret None
  | S rounds' =>
      (let* result := syncRound options in
       match result with
       | Chained => sync rounds' noOptions
       | _ => Eff.ret (Some result)
       end)%eff
  end.

(** The items a sync of [w] uploads and those it sets aside, and the
    payloads of the first. *)
Definition setAside (w : World) : list SNItem.t := neverSyncedDeletedOf (getDirtyItems w).

Definition toUpload (w : World) : list SNItem.t :=
  subtractFromArray (getDirtyItems w) (setAside w).

Definition decryptedPayloadsOf (w : World) : list PurePayload :=
  map (fun i => CreateMaxPayloadFromAnyObject (SNItem.payload i) []) (toUpload w).

(** What saving before the sync leaves alone. *)
Definition sameControl (w w' : World) : Prop :=
  locked w' = locked w /\ databaseLoaded w' = databaseLoaded w /\
  completedInitialSync w' = completedInitialSync w /\
  syncInProgress w' = syncInProgress w /\ online w' = online w /\
  items w' = items w /\ resolveQueue w' = resolveQueue w /\
  spawnQueue w' = spawnQueue w /\ nextPromise w' = nextPromise w.

(** Whether a sync asked of [w] is put off, and whether it is a default
    mode sync made before the initial one completed. *)
Definition mustDefer (w : World) : bool := syncInProgress w || negb (databaseLoaded w).

Definition useStrategyOf (options : SyncOptions) : Z :=
  default TIMING_STRATEGY_RESOLVE_ON_NEXT (timingStrategy options).

Definition useModeOf (options : SyncOptions) : Z :=
  default SYNC_MODE_DEFAULT (mode options).

Definition knownStrategy (strategy : Z) : bool :=
  (strategy =? TIMING_STRATEGY_RESOLVE_ON_NEXT) || (strategy =? TIMING_STRATEGY_FORCE_SPAWN_NEW).

Definition prematureDefault (options : SyncOptions) (w : World) : bool :=
  (useModeOf options =? SYNC_MODE_DEFAULT) && negb (completedInitialSync w).

(** The payloads an operation is created with, when [sync] gets that
    far. *)
Definition uploadsOf (options : SyncOptions) (w : World) : option (list PurePayload) :=
  if useModeOf options =? SYNC_MODE_DEFAULT then
    Some (payloadsByEncryptingPayloads (decryptedPayloadsOf w)
            (if online w then IntentSync else IntentLocalStorageDecrypted))
  else if useModeOf options =? SYNC_MODE_INITIAL then Some []
  else None.

Definition integrityOf (options : SyncOptions) (w : World) : option bool :=
  if online w then checkIntegrity options else None.

Definition unhandledTimingStrategy (options : SyncOptions) : Exception :=
  BareString (String.append "Unhandled timing strategy " (pretty (useStrategyOf options))).

Definition prematureDefaultSync : Exception :=
  BareString "Attempting to default mode sync without having completed initial.".

(** The payloads [handleNeverSyncedDeleted] makes of the never-synced
    deleted items, and what it does with them; what completion
    notifies. *)
Definition clearedPayloads (neverSyncedDeleted : list SNItem.t) : list PurePayload :=
  map (fun i => SNItem.payloadRepresentation i neverSyncedDeletedOverride) neverSyncedDeleted.



(** The operation a sync of [w] runs and how it winds up, told from [w]
    and the options. *)
Definition runOperation (options : SyncOptions) (w : World) : Eff.M World unit :=
  run (online w) (uploadsOf options w) (integrityOf options w).

Definition windUp (options : SyncOptions) (w : World) : Eff.M World RoundResult :=
  afterOperation (useModeOf options)
    (numberOfItemsInvolved (online w) (uploadsOf options w) (integrityOf options w))
    (resolveQueue w) (setAside w).

End WithCollaborators.

(** Concrete collaborators and worlds: a server that answers nothing,
    and a manager whose database is loaded but whose initial sync has
    not completed. *)
Definition exampleClock (n : nat) : Z := 1617004805233 + Z.of_nat n.

Definition exampleEncryption (_ : EncryptionIntents) (_ : PurePayload) : ContentField :=
  Ciphertext "004:nonce:ciphertext:aad".

Definition quietServer (_ : bool) (_ : option (list PurePayload)) (_ : option bool)
  : list (Signal unit) := [].

Definition noItemsInvolved (_ : bool) (_ : option (list PurePayload)) (_ : option bool) : nat := 0.

Definition ignoreSuccess (_ : Response unit) : Eff.M World unit := Eff.ret tt.


Definition editedNote : SNItem.t :=
  SNItem.mkItem
    (mkPayload "e-1" "Note" (Decrypted ∅) (Some 10) (Some 20) false true (Some 60)
       false false None None None)
    SNItem.BaseItem.

Definition loadedWorld (initialSyncDone : bool) (its : list SNItem.t) : World :=
  mkWorld false true initialSyncDone false true its None [] [] 0 [] [] None None 0 [].

End Sync.

(** ** Sync manager: further collaborators for examples *)

Module SyncExamples.
Import Sync.

(** A server that answers one sync request without error, and a
    success handler during which a further caller asks for a sync and is
    queued. *)
Definition oneResponse (_ : bool) (_ : option (list Payloads.PurePayload)) (_ : option bool)
  : list (Signal unit) :=
  [ResponseSignal (mkResponse false 200 "" tt)].

Definition lateCaller (_ : Response unit) : Eff.M World unit :=
  (let* _ := timingStrategyResolveOnNext in Eff.ret tt)%eff.

End SyncExamples.

(** ** Items read back *)

Module Reading.
Import Payloads.

(** Modelled from the spec: [payload.safeContent] (the payload class is
    not part of the sources) is the content when it is a parsed object,
    and an empty object otherwise. *)
Definition safeContent (i : SNItem.t) : PayloadContent :=
  match SNItem.content i with
  | Decrypted c => c
  | _ => ∅
  end.

(** [new SNItem(payload)]: a payload without a [uuid] or a
    [content_type] is refused. *)
Definition new (p : PurePayload) : Outcome SNItem.t :=
  if bool_decide (uuid p = "") || bool_decide (content_type p = "")
  then Thrown (ErrorObject "Error" "Cannot create item without both uuid and content_type")
  else Returned (SNItem.mkItem p SNItem.BaseItem).

(** [hasRelationshipWithItem(item)]:
    [!!safeContent.references?.find((r) => r.uuid === item.uuid)]. The
    optional chaining covers a missing [references] only; a value there
    that is not an array has no [find]. *)
Definition hasRelationshipWithItem (this item : SNItem.t) : Outcome bool :=
  match safeContent this !! "references" with
  | None => Returned false
  | Some (JReferences references) => Returned (Mutator.hasReference references item)
  | Some _ => Thrown (Mutator.TypeError "references.find is not a function")
  end.

(** The getters [protected] and [trashed] read the content; [pinned],
    [archived] and [locked] read the default app domain. *)
Definition protected (i : SNItem.t) : option JsValue := safeContent i !! "protected".
Definition trashed (i : SNItem.t) : option JsValue := safeContent i !! "trashed".

Definition pinned (i : SNItem.t) : Outcome (option Scalar) := Mutator.getAppDomainValue i "pinned".
Definition archived (i : SNItem.t) : Outcome (option Scalar) := Mutator.getAppDomainValue i "archived".
Definition locked (i : SNItem.t) : Outcome (option Scalar) := Mutator.getAppDomainValue i "locked".

Section WithDateParser.
(** [new Date(string)] parses the string; the parser belongs to the
    engine. *)
Variable parseDate : string -> option Z.

(** [new Date(value)]: the time value, [None] for an invalid date. *)
Definition dateOf (value : Scalar) : option Z :=
  match value with
  | SDate ms => Some ms
  | SInvalidDate => None
  | SNum z => Some z
  | SBool b => Some (if b then 1 else 0)
  | SStr s => parseDate s
  end.

(** [user_modified_at]:
    [new Date(this.getAppDomainValue(UserModifiedDate) || this.updated_at)]. *)
Definition user_modified_at (i : SNItem.t) : Outcome (option Z) :=
  match Mutator.getAppDomainValue i Mutator.UserModifiedDateKey with
  | Thrown e => Thrown e
  | Returned value =>
      if from_option Mutator.truthy false value
      then Returned (from_option dateOf None value)
      else Returned (SNItem.updated_at i)
  end.

End WithDateParser.

(** A note that refers to nothing, and a tag. *)
Definition plainNote : SNItem.t :=
  SNItem.mkItem
    (mkPayload "n-7" "Note" (Decrypted (<["title" := JScalar (SStr "Groceries")]> ∅))
       (Some 1500) (Some 1600) false false None false false None None None)
    SNItem.BaseItem.

Definition someTag : SNItem.t :=
  SNItem.mkItem
    (mkPayload "t-3" "Tag" (Decrypted (<["title" := JScalar (SStr "Errands")]> ∅))
       (Some 1500) (Some 1600) false false None false false None None None)
    SNItem.BaseItem.

End Reading.

(** ** Privileges *)

Module Privileges.

(** [desktopPrivileges] is an object used as a map from an action to
    the array of credentials it requires: its own properties, and the
    object it inherits from, [Object.prototype] ([None]) unless an
    assignment to [__proto__] has put an array in its place. The arrays
    of two actions are two arrays, as they are in a content parsed from
    JSON. *)
Record DesktopPrivileges := mkDesktopPrivileges {
  own : gmap string (list string);
  prototype : option (list string)
}.

(** The content of a privileges item, as far as the class looks into
    it: absent, a ciphertext string (the item could not be decrypted),
    or a parsed object, with or without [desktopPrivileges]. *)
Inductive Content :=
| Absent
| Ciphertext (s : string)
| Parsed (desktopPrivileges : option DesktopPrivileges).

Record SNPrivileges := mkPrivileges {
  errorDecrypting : bool;
  content : Content
}.

Definition TypeError (message : string) : Exception := ErrorObject "TypeError" message.

(** The property names every object inherits from [Object.prototype]:
    those of the language and of its Annex B. *)
Definition objectPrototypeNames : list string :=
  ["constructor"; "__defineGetter__"; "__defineSetter__"; "hasOwnProperty";
   "__lookupGetter__"; "__lookupSetter__"; "isPrototypeOf"; "propertyIsEnumerable";
   "toString"; "valueOf"; "__proto__"; "toLocaleString"].

Definition inherited (name : string) : bool := bool_decide (name ∈ objectPrototypeNames).

(** What reading a property of [desktopPrivileges] can give: nothing,
    an array of credentials, a string (an element of an array that is
    the prototype), a number (its length), or a function or prototype
    object of the engine. *)
Inductive Value :=
| Undefined
| Credentials (credentials : list string)
| Text (s : string)
| Number (n : nat)
| Builtin.

Section WithEngine.
(** Reading a property of an array of strings off the array itself or
    off what it inherits from: an element under an index, the length,
    a method of [Array.prototype] or of [Object.prototype], or nothing.
    The tables are the engine's. *)
Variable arrayGet : list string -> string -> Value.

(** [desktopPrivileges[name]]: an own property first; then the
    prototype, where [__proto__] reads the prototype itself. *)
Definition getProperty (o : DesktopPrivileges) (name : string) : Value :=
  match own o !! name with
  | Some credentials => Credentials credentials
  | None =>
      match prototype o with
      | None => if inherited name then Builtin else Undefined
      | Some elements =>
          if bool_decide (name = "__proto__") then Credentials elements
          else arrayGet elements name
      end
  end.

(** [desktopPrivileges[name] = credentials]: an own property is
    written, or created over what is inherited, except under
    [__proto__], whose setter makes the array the prototype. *)
Definition setProperty (o : DesktopPrivileges) (name : string) (credentials : list string)
  : DesktopPrivileges :=
  match own o !! name with
  | Some _ => mkDesktopPrivileges (<[name := credentials]> (own o)) (prototype o)
  | None =>
      if bool_decide (name = "__proto__")
      then mkDesktopPrivileges (own o) (Some credentials)
      else mkDesktopPrivileges (<[name := credentials]> (own o)) (prototype o)
  end.

(** [this.content.desktopPrivileges[action]]: the read throws when
    there is no [desktopPrivileges] to index. *)
Definition credentialsAt (action : string) : Eff.M SNPrivileges Value :=
  (let* this := Eff.get in
   match content this with
   | Parsed (Some d) => Eff.ret (getProperty d action)
   | _ => Eff.throw (TypeError "Cannot read properties of undefined")
   end)%eff.

Definition setCredentialsForAction (action : string) (credentials : list string)
  : Eff.M SNPrivileges unit :=
  (let* this := Eff.get in
   match content this with
   | Parsed (Some d) =>
       Eff.put (mkPrivileges (errorDecrypting this)
                  (Parsed (Some (setProperty d action credentials))))
   | _ => Eff.throw (TypeError "Cannot set properties of undefined")
   end)%eff.

(** [value || []]: the empty string and zero are falsy, as nothing
    is. *)
Definition orEmptyArray (value : Value) : Value :=
  match value with
  | Undefined => Credentials []
  | Text s => if bool_decide (s = "") then Credentials [] else Text s
  | Number n => if (n =? 0)%nat then Credentials [] else Number n
  | other => other
  end.

(** [this.content.desktopPrivileges[action] || []]. *)
Definition getCredentialsForAction (action : string) : Eff.M SNPrivileges Value :=
  (let* stored := credentialsAt action in
   Eff.ret (orEmptyArray stored))%eff.

(** [String.prototype.includes(searchString)]: whether the search
    string occurs in the string. *)
Fixpoint includes (s searchString : string) : bool :=
  String.prefix searchString s
  || match s with
     | EmptyString => false
     | String _ rest => includes rest searchString
     end.

(** [credentialsRequired.includes(credential)]: arrays and strings have
    the method, a number or a function has not. *)
Definition isCredentialRequiredForAction (action credential : string)
  : Eff.M SNPrivileges bool :=
  (let* credentialsRequired := getCredentialsForAction action in
   match credentialsRequired with
   | Credentials credentials => Eff.ret (bool_decide (credential ∈ credentials))
   | Text s => Eff.ret (includes s credential)
   | _ => Eff.throw (TypeError "credentialsRequired.includes is not a function")
   end)%eff.

(** Whether the credential is one of the characters of the string:
    what [pull] looks for when it is given a string. *)
Definition isCharacterOf (credential s : string) : bool :=
  match credential with
  | String c EmptyString => existsb (Ascii.eqb c) (list_ascii_of_string s)
  | _ => false
  end.

(** [pull(array, credential)] of lodash takes every occurrence out of
    the array, in place. It leaves alone what is falsy or has no
    [length], and a function, none of whose indices holds a string; in a
    string it finds the credential when that is one of its characters,
    and the removal then throws. *)
Definition removeCredentialForAction (action credential : string) : Eff.M SNPrivileges unit :=
  (let* stored := credentialsAt action in
   match stored with
   | Credentials credentials =>
       setCredentialsForAction action
         (List.filter (fun c => negb (bool_decide (c = credential))) credentials)
   | Text s =>
       if isCharacterOf credential s
       then Eff.throw (TypeError "Cannot delete property of a string")
       else Eff.ret tt
   | _ => Eff.ret tt
   end)%eff.

(** [credentials.push(credential)], then the array is assigned: only
    an array has [push]. *)
Definition addCredentialForAction (action credential : string) : Eff.M SNPrivileges unit :=
  (let* credentials := getCredentialsForAction action in
   match credentials with
   | Credentials credentials => setCredentialsForAction action (credentials ++ [credential])
   | _ => Eff.throw (TypeError "credentials.push is not a function")
   end)%eff.

Definition toggleCredentialForAction (action credential : string) : Eff.M SNPrivileges unit :=
  (let* required := isCredentialRequiredForAction action credential in
   if required then removeCredentialForAction action credential
   else addCredentialForAction action credential)%eff.

End WithEngine.

(** An engine's table for arrays, as far as the names used below go:
    the decimal indices, [length], and two of the methods. *)
Definition exampleArrayGet (elements : list string) (name : string) : Value :=
  if bool_decide (name = "length") then Number (length elements)
  else if bool_decide (name = "push") || bool_decide (name = "includes") || inherited name
  then Builtin
  else
    match list_find (fun i => name = pretty i) (seq 0 (length elements)) with
    | Some (_, i) => from_option Text Undefined (elements !! i)
    | None => Undefined
    end.

(** Privileges that ask for the account password before protected notes
    are viewed. *)
Definition examplePrivileges : SNPrivileges :=
  mkPrivileges false
    (Parsed (Some (mkDesktopPrivileges
                     (<["ActionViewProtectedNotes" := ["CredentialAccountPassword"]]> ∅)
                     None))).

End Privileges.

(** ** The base migration *)

Module BaseMigration.

(** A value of the device's raw storage. *)
Inductive RawValue :=
| RawString (s : string)
| RawNumber (n : Z).

(** The raw storage of the device interface, and the readings of the
    clock taken so far. *)
Record World := mkWorld {
  rawStorage : gmap string RawValue;
  reads : nat
}.

(** [BaseMigration.timestamp()]: [new Date('2020-01-01').getTime()]. *)
Definition timestamp : Z := 1577836800000.

Definition legacyKey : string := "migrations".

Section WithApplication.
Variable timeAt : nat -> Z.
(** The namespace of the application, and the storage key
    [RAW_STORAGE_KEY_LAST_MIGRATION_TIMESTAMP] of lib/storage_keys,
    which is not part of the sources. *)
Variable namespace : string.
Variable RAW_STORAGE_KEY_LAST_MIGRATION_TIMESTAMP : string.

Definition newKey : string :=
  String.append namespace (String.append "-" RAW_STORAGE_KEY_LAST_MIGRATION_TIMESTAMP).

Definition getRawStorageValue (key : string) : Eff.M World (option RawValue) :=
  fun w => (Returned (rawStorage w !! key), w).

Definition setRawStorageValue (key : string) (value : RawValue) : Eff.M World unit :=
  Eff.modify (fun w => mkWorld (<[key := value]> (rawStorage w)) (reads w)).

Definition now : Eff.M World Z :=
  fun w => (Returned (timeAt (reads w)), mkWorld (rawStorage w) (S (reads w))).

(** [migrateMigrationTimestampAllPlatforms]. *)
Definition migrateMigrationTimestampAllPlatforms : Eff.M World unit :=
  (let* legacyMigrationsValue := getRawStorageValue legacyKey in
   let* lastDate := getRawStorageValue newKey in
   let hasLegacyValue := negb (JS.isNullOrUndefined legacyMigrationsValue) in
   let hasNewStructure := negb (JS.isNullOrUndefined lastDate) in
   if negb hasNewStructure && hasLegacyValue then
     let newLastMigrationDate := 0 in
     setRawStorageValue newKey (RawNumber newLastMigrationDate)
   else if negb hasNewStructure && negb hasLegacyValue then
     let* newLastMigrationDate := now in
     setRawStorageValue newKey (RawNumber newLastMigrationDate)
   else Eff.ret tt)%eff.

End WithApplication.

End BaseMigration.

(** ** Migration service: marking migrations as done *)

Module MigrationService.
Import Migrations.

Section WithVersions.
Variable compareSemVersions : string -> string -> Z.
Variable isRightVersionGreaterThanLeft : string -> string -> bool.
Variable migrationImports : list MigrationClass.
(** [SnjsVersion] of lib/version, the version of the library. *)
Variable SnjsVersion : string.
(** [BaseMigration.preRun] of migrations/base: the base migration that
    is part of the sources has no such method, so what the pre-run
    makes of the services, or that it throws, is a parameter. *)
Variable preRun : Services -> Outcome Services.

(** [markMigrationsAsDone]: the library's version is stored. *)
Definition markMigrationsAsDone (services : Services) : Services :=
  mkServices
    (<[namespacedKey (identifier services) SnjsVersionKey := SnjsVersion]> (rawStorage services))
    (identifier services) (needsKeychainRepair services).

(** [runBaseMigrationPreRun]. *)
Definition runBaseMigrationPreRun (services : Services) : Outcome Services :=
  preRun services.

(** [initialize]: the base migration makes its pre-run; then the
    required migrations become the active ones; with none of them the
    library's version is stored at once, otherwise when the last of them
    is done. The result is the active migrations and the services as
    [initialize] leaves them. *)
Definition initialize (services : Services) : Outcome (list MigrationClass * Services) :=
  match runBaseMigrationPreRun services with
  | Thrown e => Thrown e
  | Returned services =>
      match getStoredSnjsVersion services with
      | Thrown e => Thrown e
      | Returned storedVersion =>
          let requiredMigrations :=
            getRequiredMigrations compareSemVersions isRightVersionGreaterThanLeft
              migrationImports storedVersion in
          if (0 <? length requiredMigrations)%nat
          then Returned (requiredMigrations, services)
          else Returned (requiredMigrations, markMigrationsAsDone services)
      end
  end.

End WithVersions.

End MigrationService.

(** ** Key recovery: the record of undecryptables and the queue *)

Module RecoveryQueue.
Import Payloads KeyRecovery.

Section WithKeyParams.
Context {KeyParams : Type}.
(** [keyParams.compare(other)] of SNRootKeyParams, which is not part of
    the sources. *)
Variable compare : KeyParams -> KeyParams -> bool.

(** [removeFromUndecryptables(key)]. *)
Definition removeFromUndecryptables (key : SNItem.t) (w : World KeyParams) : World KeyParams :=
  let record := getUndecryptables w in
  persistUndecryptables (delete (SNItem.uuid key) record) w.

(** [popQueueForKeyParams(keyParams)]: the queue items whose key params
    compare equal are taken off the queue and returned. *)
Definition popQueueForKeyParams (params : KeyParams) (w : World KeyParams)
  : list (DecryptionQueueItem KeyParams) * World KeyParams :=
  let '(matching, nonmatching) :=
    fold_left
      (fun '(matching, nonmatching) queueItem =>
         if compare (keyParams KeyParams queueItem) params
         then (matching ++ [queueItem], nonmatching)
         else (matching, nonmatching ++ [queueItem]))
      (decryptionQueue w) ([], []) in
  (matching, mkWorld (master w) (undecryptableItems w) nonmatching).

(** [readdQueueItem(queueItem)]: back to the front of the queue. *)
Definition readdQueueItem (queueItem : DecryptionQueueItem KeyParams) (w : World KeyParams)
  : World KeyParams :=
  mkWorld (master w) (undecryptableItems w) (queueItem :: decryptionQueue w).

End WithKeyParams.

End RecoveryQueue.

(** ** Session manager: counting requests *)

Module SessionTrace.



(** The session a successful response establishes: a JWT session of
    its [token] when that is truthy, a token session otherwise. *)
Definition sessionOf (r : Session.HttpResponse) : Session.SessionToken :=
  match Session.token r with
  | Some t => if bool_decide (t = "") then Session.TokenSession r else Session.JwtSession t
  | None => Session.TokenSession r
  end.


(** A server that asks for a second factor until it is given the code
    [code]. *)
Definition mfaServer (code : string) : Session.Env :=
  let params := Session.mkKeyParams "004" None "nonce" in
  let success :=
    Session.mkResponse None (Some (Session.mkUser "u-1" "a@b.c")) None (Some params) in
  let challenge :=
    Session.mkResponse (Some (Session.ServerError "mfa required" (Some "mfa_key_1")))
      None None None in
  Session.mkEnv
    (fun _ => Session.mkResponse None None None (Some params))
    Session.key_params
    ["001"; "002"; "003"; "004"]
    (fun v => negb (String.leb v "004"))
    (fun v => bool_decide (v = "001") || bool_decide (v = "002"))
    (fun _ => 3000)
    (fun _ => true)
    "004"
    (fun l r => String.leb r l)
    (fun _ _ _ => true)
    (fun _ _ => Session.mkRootKey "master" "server" params)
    (fun _ p => Session.mkRootKey "master" "server" p)
    (fun k _ => k)
    (fun _ _ _ => success)
    (fun _ _ _ given => if bool_decide (given = Some code) then success else challenge).

End SessionTrace.

(** ** Sync manager: the sync position tokens *)

Module SyncTokens.

(** The two storage keys the tokens are kept under. *)
Inductive StorageKeys := LastSyncToken | PaginationToken.

#[global] Instance StorageKeys_eq_dec : EqDecision StorageKeys.
Proof. solve_decision. Defined.

(** A token is a string, [null] or [undefined] ([None]). *)
Abbreviation Token := (option string).

Definition truthy (token : Token) : bool :=
  match token with
  | Some s => negb (bool_decide (s = ""))
  | None => false
  end.

(** The tokens the manager holds, and the storage manager's values
    (the storage manager is not part of the sources: a value is kept
    under a key until it is set anew or removed). *)
Record World := mkWorld {
  syncToken : Token;
  cursorToken : Token;
  storage : StorageKeys -> Token
}.

Definition setValue (key : StorageKeys) (value : Token) : Eff.M World unit :=
  Eff.modify (fun w =>
    mkWorld (syncToken w) (cursorToken w)
      (fun k => if bool_decide (k = key) then value else storage w k)).

Definition removeValue (key : StorageKeys) : Eff.M World unit := setValue key None.

Definition getValue (key : StorageKeys) : Eff.M World Token :=
  fun w => (Returned (storage w key), w).

Definition set_syncToken (token : Token) : Eff.M World unit :=
  Eff.modify (fun w => mkWorld token (cursorToken w) (storage w)).

Definition set_cursorToken (token : Token) : Eff.M World unit :=
  Eff.modify (fun w => mkWorld (syncToken w) token (storage w)).

Definition setLastSyncToken (token : Token) : Eff.M World unit :=
  (let* _ := set_syncToken token in
   setValue LastSyncToken token)%eff.

Definition setPaginationToken (token : Token) : Eff.M World unit :=
  (let* _ := set_cursorToken token in
   if truthy token then setValue PaginationToken token
   else removeValue PaginationToken)%eff.

Definition getLastSyncToken : Eff.M World Token :=
  (let* w := Eff.get in
   let* _ :=
     if negb (truthy (syncToken w)) then
       let* stored := getValue LastSyncToken in
       set_syncToken stored
     else Eff.ret tt in
   let* w := Eff.get in
   Eff.ret (syncToken w))%eff.

Definition getPaginationToken : Eff.M World Token :=
  (let* w := Eff.get in
   let* _ :=
     if negb (truthy (cursorToken w)) then
       let* stored := getValue PaginationToken in
       set_cursorToken stored
     else Eff.ret tt in
   let* w := Eff.get in
   Eff.ret (cursorToken w))%eff.

Definition clearSyncPositionTokens : Eff.M World unit :=
  (let* _ := set_syncToken None in
   let* _ := set_cursorToken None in
   let* _ := removeValue LastSyncToken in
   removeValue PaginationToken)%eff.

(** The operations on the tokens. *)
Inductive Operation :=
| SetLastSyncToken (token : Token)
| SetPaginationToken (token : Token)
| GetLastSyncToken
| GetPaginationToken
| ClearSyncPositionTokens.

Definition perform (op : Operation) : Eff.M World unit :=
  match op with
  | SetLastSyncToken token => setLastSyncToken token
  | SetPaginationToken token => setPaginationToken token
  | GetLastSyncToken => (let* _ := getLastSyncToken in Eff.ret tt)%eff
  | GetPaginationToken => (let* _ := getPaginationToken in Eff.ret tt)%eff
  | ClearSyncPositionTokens => clearSyncPositionTokens
  end.

(** A manager just constructed, over a given storage. *)
Definition fresh (stored : StorageKeys -> Token) : World := mkWorld None None stored.

(** A token the manager holds is the one in storage. *)
Definition coherent (w : World) : Prop :=
  (truthy (syncToken w) = true -> storage w LastSyncToken = syncToken w) /\
  (truthy (cursorToken w) = true -> storage w PaginationToken = cursorToken w).

End SyncTokens.

(** ** Sync manager: loading the local database *)

Module DatabaseLoad.
Import Payloads.

Definition DEFAULT_DATABASE_LOAD_BATCH_SIZE : nat := 100.

Inductive LoadEvent := LocalDataIncrementalLoad | LocalDataLoaded.

(** What loading does to its collaborators, in order: payloads mapped
    onto the local items, an event notified, the load status set. *)
Inductive Effect :=
| Mapped (payloads : list PurePayload) (s : PayloadSource)
| Notified (event : LoadEvent)
| DatabaseLoadStatus (current total : nat)
| DatabaseLoadDone.

Record World := mkWorld {
  databaseLoaded : bool;
  log : list Effect
}.

Definition effect (e : Effect) : Eff.M World unit :=
  Eff.modify (fun w => mkWorld (databaseLoaded w) (log w ++ [e])).

(** Content types appearing first are always mapped first. *)
Definition localLoadPriorty : list string :=
  [PayloadManager.ItemsKey; "SN|UserPreferences"; "SN|Privileges"; "SN|Component"; "SN|Theme"].

(** [array.slice(start, end)]. *)
Definition slice {A} (array : list A) (start finish : nat) : list A :=
  take (finish - start) (drop start array).

(** [Math.ceil(count / size)]. *)
Definition ceilDiv (count size : nat) : nat := ((count + (size - 1)) / size)%nat.
Arguments ceilDiv : simpl never.

Definition alreadyInitialized : Exception :=
  BareString "Attempting to initialize already initialized local database.".

Section WithCollaborators.
(** Not part of the sources: the sort by recency and content priority
    of services/sync/utils, and the protocol service's decryption. *)
Variable SortPayloadsByRecentAndContentPriority :
  list PurePayload -> list string -> list PurePayload.
Variable payloadsByDecryptingPayloads : list PurePayload -> list PurePayload.

(** The payloads [loadDatabasePayloads] works on: all of them sorted,
    the items keys among them, and the rest. *)
Definition sortedPayloads (rawPayloads : list PurePayload) : list PurePayload :=
  SortPayloadsByRecentAndContentPriority
    (map (fun rawPayload => CreateMaxPayloadFromAnyObject rawPayload []) rawPayloads)
    localLoadPriorty.

Definition itemsKeysPayloads (rawPayloads : list PurePayload) : list PurePayload :=
  List.filter (fun payload => bool_decide (content_type payload = PayloadManager.ItemsKey))
    (sortedPayloads rawPayloads).

Definition otherPayloads (rawPayloads : list PurePayload) : list PurePayload :=
  Sync.subtractFromArray (sortedPayloads rawPayloads) (itemsKeysPayloads rawPayloads).

(** The batch of index [batchIndex]. *)
Definition batchAt (payloads : list PurePayload) (batchIndex : nat) : list PurePayload :=
  let currentPosition := (batchIndex * DEFAULT_DATABASE_LOAD_BATCH_SIZE)%nat in
  slice payloads currentPosition (currentPosition + DEFAULT_DATABASE_LOAD_BATCH_SIZE).

(** One turn of the loop that maps in batches. *)
Definition mapBatch (payloads : list PurePayload) (batchIndex : nat) : Eff.M World unit :=
  (let currentPosition := (batchIndex * DEFAULT_DATABASE_LOAD_BATCH_SIZE)%nat in
   let batch := batchAt payloads batchIndex in
   let decrypted := payloadsByDecryptingPayloads batch in
   let* _ := effect (Mapped decrypted LocalRetrieved) in
   let* _ := effect (Notified LocalDataIncrementalLoad) in
   effect (DatabaseLoadStatus currentPosition (length payloads)))%eff.

(** [loadDatabasePayloads(rawPayloads)]. *)
Definition loadDatabasePayloads (rawPayloads : list PurePayload) : Eff.M World unit :=
  (let* w := Eff.get in
   if databaseLoaded w then Eff.throw alreadyInitialized
   else
     let payloads := otherPayloads rawPayloads in
     let decryptedItemsKeys := payloadsByDecryptingPayloads (itemsKeysPayloads rawPayloads) in
     let* _ := effect (Mapped decryptedItemsKeys LocalRetrieved) in
     let payloadCount := length payloads in
     let numBatches := ceilDiv payloadCount DEFAULT_DATABASE_LOAD_BATCH_SIZE in
     let* _ := Eff.forEach (seq 0 numBatches) (mapBatch payloads) in
     let* _ := effect DatabaseLoadDone in
     let* _ := effect (Notified LocalDataLoaded) in
     Eff.modify (fun w => mkWorld true (log w)))%eff.

(** What the loop of [loadDatabasePayloads] leaves in the log for the
    batch of index [batchIndex]. *)
Definition batchEffects (payloads : list PurePayload) (batchIndex : nat) : list Effect :=
  [Mapped (payloadsByDecryptingPayloads (batchAt payloads batchIndex)) LocalRetrieved;
   Notified LocalDataIncrementalLoad;
   DatabaseLoadStatus (batchIndex * DEFAULT_DATABASE_LOAD_BATCH_SIZE) (length payloads)].

End WithCollaborators.

(** A stored note of the given uuid, and a database of [n] of them. *)
Definition storedNote (n : nat) : PurePayload :=
  mkPayload (pretty n) "Note" (Ciphertext "004:nonce:ciphertext:aad") (Some 10) (Some 20)
    false false None false false None None None.

Definition storedNotes (n : nat) : list PurePayload := map storedNote (seq 0 n).

Definition unsorted (payloads : list PurePayload) (_ : list string) : list PurePayload := payloads.

Definition undecrypted (payloads : list PurePayload) : list PurePayload := payloads.

Definition unloaded : World := mkWorld false [].

End DatabaseLoad.

(** ** Filtering notes *)

Module NoteFilter.

(** A JavaScript string, as its UTF-16 code units. *)
Abbreviation JsString := (list N).

(** Modelled from the spec: a note as the filter reads it (the note
    class is not part of the sources): its uuid, its [safeTitle()] and
    [safeText()], and whether [archived] and [pinned] are truthy. *)
Record SNNote := mkNote {
  uuid : JsString;
  safeTitle : JsString;
  safeText : JsString;
  archived : bool;
  pinned : bool
}.

Definition quote : N := 34.
Definition space : N := 32.
Definition dash : N := 45.

Fixpoint startsWith (s searchString : JsString) : bool :=
  match searchString, s with
  | [], _ => true
  | _ :: _, [] => false
  | p :: searchString', c :: s' => (p =? c)%N && startsWith s' searchString'
  end.

(** [s.includes(searchString)], and so [s.indexOf(searchString) >= 0]. *)
Fixpoint includes (s searchString : JsString) : bool :=
  startsWith s searchString
  || match s with
     | [] => false
     | _ :: s' => includes s' searchString
     end.

(** [s.split(separator)] for a separator of one code unit; [current]
    holds the piece being read. *)
Fixpoint splitFrom (separator : N) (current s : JsString) : list JsString :=
  match s with
  | [] => [current]
  | c :: s' =>
      if (c =? separator)%N then current :: splitFrom separator [] s'
      else splitFrom separator (current ++ [c]) s'
  end.

Definition split (s : JsString) (separator : N) : list JsString := splitFrom separator [] s.

(** The line terminators, which [.] does not match. *)
Definition isLineTerminator (c : N) : bool :=
  ((c =? 10) || (c =? 13) || (c =? 8232) || (c =? 8233))%N.

(** After an opening quote, the lazy group and the closing quote: the
    code units up to the next quote, unless a line terminator comes
    first. *)
Fixpoint untilQuote (s : JsString) : option JsString :=
  match s with
  | [] => None
  | c :: s' =>
      if (c =? quote)%N then Some []
      else if isLineTerminator c then None
      else option_map (cons c) (untilQuote s')
  end.

(** [stringBetweenQuotes(text)]: the first group of the leftmost match
    of the regular expression (a quote, a lazy group of any characters
    but line terminators, a quote), or [null]. *)
Fixpoint stringBetweenQuotes (text : JsString) : option JsString :=
  match text with
  | [] => None
  | c :: text' =>
      if (c =? quote)%N then
        match untilQuote text' with
        | Some quoted => Some quoted
        | None => stringBetweenQuotes text'
        end
      else stringBetweenQuotes text'
  end.

Definition isHex (c : N) : bool :=
  ((48 <=? c) && (c <=? 57) || (97 <=? c) && (c <=? 102))%N.

(** [\w]: a letter, a digit or the underscore. *)
Definition isWord (c : N) : bool :=
  ((48 <=? c) && (c <=? 57) || (65 <=? c) && (c <=? 90) || (97 <=? c) && (c <=? 122)
   || (c =? 95))%N.

(** [[0-9a-f]{n}] at the head of [s]: what follows it. *)
Fixpoint hexRun (n : nat) (s : JsString) : option JsString :=
  match n with
  | O => Some s
  | S n' =>
      match s with
      | c :: s' => if isHex c then hexRun n' s' else None
      | [] => None
      end
  end.

Definition dashThen (s : JsString) : option JsString :=
  match s with
  | c :: s' => if (c =? dash)%N then Some s' else None
  | [] => None
  end.

(** The eight, four, four, four and twelve hexadecimal digits of a
    uuid, with their dashes, at the head of [s]: what follows them. *)
Definition uuidShape (s : JsString) : option JsString :=
  match hexRun 8 s with
  | None => None
  | Some s1 =>
  match dashThen s1 with
  | None => None
  | Some s2 =>
  match hexRun 4 s2 with
  | None => None
  | Some s3 =>
  match dashThen s3 with
  | None => None
  | Some s4 =>
  match hexRun 4 s4 with
  | None => None
  | Some s5 =>
  match dashThen s5 with
  | None => None
  | Some s6 =>
  match hexRun 4 s6 with
  | None => None
  | Some s7 =>
  match dashThen s7 with
  | None => None
  | Some s8 => hexRun 12 s8
  end end end end end end end end.

(** The uuid pattern matched at the head of [s]; its last [\b] asks
    that no word character follows. The [\b]s inside it hold wherever
    the digits and dashes match. *)
Definition uuidHere (s : JsString) : bool :=
  match uuidShape s with
  | Some [] => true
  | Some (c :: _) => negb (isWord c)
  | None => false
  end.

(** The pattern matched somewhere in [s]; its first [\b] asks that no
    word character comes before. *)
Fixpoint uuidFrom (previousIsWord : bool) (s : JsString) : bool :=
  (negb previousIsWord && uuidHere s)
  || match s with
     | [] => false
     | c :: s' => uuidFrom (isWord c) s'
     end.

(** [stringIsUuid(text)]. *)
Definition stringIsUuid (text : JsString) : bool := uuidFrom false text.

Section WithLowerCase.
(** [String.prototype.toLowerCase], which belongs to the engine. *)
Variable toLowerCase : JsString -> JsString.

(** [noteMatchesQuery(note, query)]. *)
Definition noteMatchesQuery (note : SNNote) (query : JsString) : bool :=
  if (length query =? 0)%nat then true
  else
    let title := toLowerCase (safeTitle note) in
    let text := toLowerCase (safeText note) in
    let lowercaseText := toLowerCase query in
    match stringBetweenQuotes lowercaseText with
    | Some (c :: quoted) => includes title (c :: quoted) || includes text (c :: quoted)
    | _ =>
        if stringIsUuid lowercaseText then bool_decide (uuid note = lowercaseText)
        else
          let words := split lowercaseText space in
          let matchesTitle := forallb (fun word => includes title word) words in
          let matchesBody := forallb (fun word => includes text word) words in
          matchesTitle || matchesBody
    end.

(** [notePassesFilter(note, showArchived, hidePinned, query)]. *)
Definition notePassesFilter (note : SNNote) (showArchived hidePinned : bool) (query : JsString)
  : bool :=
  let canShowArchived := showArchived in
  let canShowPinned := negb hidePinned in
  if (archived note && negb canShowArchived) || (pinned note && negb canShowPinned)
  then false
  else noteMatchesQuery note query.

End WithLowerCase.

(** Lower case for the code units of ASCII. *)
Definition asciiLowerCase (s : JsString) : JsString :=
  map (fun c => if ((65 <=? c) && (c <=? 90))%N then (c + 32)%N else c) s.

(** The code units of a string of ASCII characters. *)
Fixpoint codeUnits (s : string) : JsString :=
  match s with
  | EmptyString => []
  | String c s' => N_of_ascii c :: codeUnits s'
  end.

Definition exampleNote : SNNote :=
  mkNote (codeUnits "2f1e4d3c-0a9b-4c8d-9e7f-6a5b4c3d2e1f")
    (codeUnits "Shopping list") (codeUnits "Milk, eggs and brown bread") false false.

End NoteFilter.

(** * Properties *)

(** ** Sorting *)

Lemma JS_insert_Permutation {A} (cmp : A -> A -> option Z) x l :
  Permutation (JS.insert cmp x l) (x :: l).
Proof.
  induction l as [|y l IH]; simpl; [reflexivity|].
  destruct (JS.SortCompare cmp x y <=? 0); [reflexivity|].
  rewrite IH. apply perm_swap.
Qed.

Lemma JS_sort_Permutation {A} (cmp : A -> A -> option Z) l :
  Permutation (JS.sort cmp l) l.
Proof.
  induction l as [|x l IH]; simpl; [reflexivity|].
  rewrite JS_insert_Permutation. now constructor.
Qed.

Section SortSorted.
Context {A : Type} (cmp : A -> A -> option Z) (R : A -> A -> Prop).
Hypothesis R_of_le : forall x y, JS.SortCompare cmp x y <= 0 -> R x y.
Hypothesis R_of_gt : forall x y, 0 < JS.SortCompare cmp x y -> R y x.

Lemma JS_insert_Sorted x l : Sorted R l -> Sorted R (JS.insert cmp x l).
Proof.
  induction 1 as [|y l Hs IH Hhd]; simpl.
  - repeat constructor.
  - destruct (Z.leb_spec (JS.SortCompare cmp x y) 0) as [Hle|Hgt].
    + constructor; [constructor; assumption|]. constructor. auto.
    + constructor; [exact IH|].
      destruct l as [|z l]; simpl.
      * constructor. auto.
      * destruct (Z.leb_spec (JS.SortCompare cmp x z) 0); constructor; auto.
        inversion Hhd; assumption.
Qed.

Lemma JS_sort_Sorted l : Sorted R (JS.sort cmp l).
Proof.
  induction l as [|x l IH]; simpl; [constructor|].
  now apply JS_insert_Sorted.
Qed.

End SortSorted.

(** ** C1: the data integrity hash *)

(** C1, as stated, fails: for one non-deleted item updated at
    2021-03-29T08:00:05.233Z the code hashes the millisecond string
    1617004805233, the claim the microsecond string 1617004805233000, and
    the two SHA-256 digests differ. *)
Lemma C1_microseconds_counterexample :
  Integrity.computeDataIntegrityHash SHA256.sha256 [Integrity.integrity_item 1617004805233]
  <> Integrity.specifiedIntegrityHash SHA256.sha256 [Integrity.integrity_item 1617004805233].
Proof. vm_compute. discriminate. Qed.

(** C1, amended: for every digest function and every collection whose
    non-deleted items all have an [updated_at],
    [computeDataIntegrityHash] returns the digest of the comma-joined
    [updated_at] timestamps, as decimal millisecond strings, of the
    non-deleted items arranged in descending [updated_at] order: each
    item of the arrangement was updated no earlier than every item
    after it. *)
Theorem C1_computeDataIntegrityHash_milliseconds
    (sha256 : string -> string) (allItems : list SNItem.t) :
  Forall (fun i => is_Some (SNItem.updated_at i)) (Integrity.nonDeletedItems allItems) ->
  exists sorted : list SNItem.t,
    Permutation sorted (Integrity.nonDeletedItems allItems) /\
    StronglySorted Integrity.notEarlier sorted /\
    Integrity.computeDataIntegrityHash sha256 allItems
    = Some (sha256 (String.concat "," (map Integrity.millisecondString sorted))).
Proof.
  intros Hdated.
  set (sorted := JS.sort Integrity.compareFn (Integrity.nonDeletedItems allItems)).
  assert (Hperm : Permutation sorted (Integrity.nonDeletedItems allItems))
    by apply JS_sort_Permutation.
  assert (Hall : Forall (fun i => is_Some (SNItem.updated_at i)) sorted).
  { apply List.Forall_forall. intros i Hi.
    apply (Permutation_in _ Hperm) in Hi. revert i Hi. by apply List.Forall_forall. }
  assert (Hsorted : Sorted Integrity.updatedAtDescending sorted).
  { apply JS_sort_Sorted.
    - intros x y. unfold JS.SortCompare, Integrity.compareFn, Integrity.updatedAtDescending.
      destruct (SNItem.updated_at y), (SNItem.updated_at x); auto. lia.
    - intros x y. unfold JS.SortCompare, Integrity.compareFn, Integrity.updatedAtDescending.
      destruct (SNItem.updated_at y), (SNItem.updated_at x); auto. lia. }
  exists sorted. split; [exact Hperm|]. split.
  - clearbody sorted. clear Hperm.
    induction Hsorted as [|x l Hl IH Hhd]; [constructor|].
    apply Forall_cons in Hall as [[tx Hx] Hall].
    specialize (IH Hall). constructor; [exact IH|].
    destruct Hhd as [|y l Hxy]; [constructor|].
    apply Forall_cons in Hall as [[ty Hy] _].
    assert (Hfirst : Integrity.notEarlier x y).
    { unfold Integrity.updatedAtDescending in Hxy. rewrite Hx, Hy in Hxy.
      exists tx, ty. auto. }
    constructor; [exact Hfirst|].
    apply StronglySorted_inv in IH as [_ Hrest].
    apply List.Forall_forall. intros z Hz.
    destruct (proj1 (List.Forall_forall _ _) Hrest z Hz) as (ty' & tz & Hy' & Hz' & Hle).
    destruct Hfirst as (tx' & ty'' & Hx' & Hy'' & Hle').
    exists tx', tz. split; [exact Hx'|]. split; [exact Hz'|].
    assert (ty' = ty'') by congruence. lia.
  - unfold Integrity.computeDataIntegrityHash, JS.join. rewrite map_map.
    reflexivity.
Qed.

Lemma C1_computeDataIntegrityHash_milliseconds_witness :
  let allItems := [Integrity.integrity_item 1500; Integrity.integrity_item 1617004805233] in
  Forall (fun i => is_Some (SNItem.updated_at i)) (Integrity.nonDeletedItems allItems) /\
  exists sorted : list SNItem.t,
    Permutation sorted (Integrity.nonDeletedItems allItems) /\
    StronglySorted Integrity.notEarlier sorted /\
    Integrity.computeDataIntegrityHash SHA256.sha256 allItems
    = Some (SHA256.sha256 (String.concat "," (map Integrity.millisecondString sorted))).
Proof.
  cbv zeta.
  assert (Hdated : Forall (fun i => is_Some (SNItem.updated_at i))
                     (Integrity.nonDeletedItems
                        [Integrity.integrity_item 1500;
                         Integrity.integrity_item 1617004805233])).
  { simpl. repeat constructor; eexists; reflexivity. }
  split; [exact Hdated|].
  exact (C1_computeDataIntegrityHash_milliseconds SHA256.sha256 _ Hdated).
Defined.

(** ** C2: the conflict strategy *)

Lemma omitInPlace_lookup {V} (keys : list string) (o : gmap string V) (k : string) :
  Conflicts.omitInPlace o keys !! k = if decide (k ∈ keys) then None else o !! k.
Proof.
  unfold Conflicts.omitInPlace. revert o.
  induction keys as [|key keys IH]; intros o; simpl.
  - destruct (decide (k ∈ [])) as [Hin|]; [|done]. by apply elem_of_nil in Hin.
  - rewrite IH. destruct (decide (k ∈ keys)) as [Hin|Hnin].
    + rewrite decide_True; [done|]. by apply list_elem_of_further.
    + destruct (decide (k = key)) as [->|Hne].
      * rewrite decide_True; [|apply list_elem_of_here]. apply lookup_delete_eq.
      * rewrite decide_False; [by apply lookup_delete_ne|].
        intros [?|?]%elem_of_cons; congruence.
Qed.

Lemma omitAppDataKeys_lookup (c : Payloads.PayloadContent) (keys : list string) (k : string) :
  Conflicts.omitAppDataKeys c keys !! k
  = if decide (k = "appData") then Conflicts.omittedAppData keys (c !! "appData") else c !! k.
Proof.
  unfold Conflicts.omitAppDataKeys, Conflicts.omittedAppData.
  destruct (decide (k = "appData")) as [->|Hne].
  - destruct (c !! "appData") as [[s|l|d]|] eqn:E; rewrite ?E; try done.
    apply lookup_insert_eq.
  - destruct (c !! "appData") as [[s|l|d]|] eqn:E; try done.
    by rewrite lookup_insert_ne.
Qed.

Lemma ItemContentsEqual_agree (a b : Payloads.PayloadContent) (keys appKeys : list string) :
  (forall k, k ∉ keys -> k <> "appData" -> a !! k = b !! k) ->
  Conflicts.omittedAppData appKeys (a !! "appData") = Conflicts.omittedAppData appKeys (b !! "appData") ->
  Conflicts.ItemContentsEqual a b keys appKeys = true.
Proof.
  intros Hk Happ. unfold Conflicts.ItemContentsEqual. apply bool_decide_eq_true.
  apply map_eq. intros k. rewrite !omitInPlace_lookup.
  destruct (decide (k ∈ keys)); [done|].
  rewrite !omitAppDataKeys_lookup. destruct (decide (k = "appData")); auto.
Qed.

Lemma ItemContentsEqual_differ (a b : Payloads.PayloadContent) (keys appKeys : list string) (k : string) :
  k ∉ keys -> k <> "appData" -> a !! k <> b !! k ->
  Conflicts.ItemContentsEqual a b keys appKeys = false.
Proof.
  intros Hnin Hne Hdiff. unfold Conflicts.ItemContentsEqual. apply bool_decide_eq_false.
  intros Heq. apply Hdiff.
  assert (H := f_equal (fun m => m !! k) Heq). simpl in H.
  rewrite !omitInPlace_lookup, !decide_False in H by done.
  rewrite !omitAppDataKeys_lookup, !decide_False in H by done. exact H.
Qed.

Lemma appData_touch_omitted (keys : list string) (d : gmap string (gmap string Payloads.Scalar))
    (key : string) (v : Payloads.Scalar) :
  key ∈ keys ->
  Conflicts.omittedAppData keys
    (Some (Payloads.JDomains (alter (fun domainData => <[key := v]> domainData) SNItem.DefaultAppDomain d)))
  = Conflicts.omittedAppData keys (Some (Payloads.JDomains d)).
Proof.
  intros Hin. unfold Conflicts.omittedAppData. do 2 f_equal.
  apply map_eq. intros dom.
  rewrite !lookup_alter.
  destruct (decide (SNItem.DefaultAppDomain = dom)) as [<-|]; [|done].
  rewrite decide_True by done.
  destruct (d !! SNItem.DefaultAppDomain) as [m|]; simpl; [|done]. f_equal.
  apply map_eq. intros k. rewrite !omitInPlace_lookup.
  destruct (decide (k ∈ keys)); [done|].
  apply lookup_insert_ne. intros ->. contradiction.
Qed.

(** C2, as stated, fails: a locally errored item (not a singleton) is
    answered with [KeepLeftDuplicateRight], where the claim says
    [KeepLeft]. *)
Lemma C2_errored_counterexample :
  let this := Conflicts.note ∅ true in
  let item := Conflicts.note (Conflicts.titled "Groceries" []) false in
  SNItem.errorDecrypting this = true /\
  Conflicts.strategyWhenConflictingWithItem this item = Conflicts.KeepLeftDuplicateRight /\
  Conflicts.strategyWhenConflictingWithItem this item <> Conflicts.specifiedStrategy this item.
Proof. vm_compute. repeat split; discriminate. Qed.

Local Ltac not_listed :=
  let Hin := fresh "Hin" in
  intros Hin;
  repeat (apply elem_of_cons in Hin as [Hin|Hin]; [done || congruence|]);
  inversion Hin.

(** C2, amended: [strategyWhenConflictingWithItem] answers
    [KeepLeftDuplicateRight] when the local item is errored; otherwise
    [KeepLeft] when it is a singleton; otherwise [KeepRight] when either
    side is deleted or the contents are equal (ignoring [conflict_of] and
    the app-domain [client_updated_at]); otherwise [KeepLeftMergeRefs]
    when the contents differ only in [references]; otherwise
    [KeepLeftDuplicateRight]. *)
Theorem C2_strategyWhenConflictingWithItem (this item : SNItem.t) :
  let strategy := Conflicts.strategyWhenConflictingWithItem this item in
  (SNItem.errorDecrypting this = true -> strategy = Conflicts.KeepLeftDuplicateRight) /\
  (SNItem.errorDecrypting this = false -> SNItem.isSingleton this = true ->
     strategy = Conflicts.KeepLeft) /\
  (SNItem.errorDecrypting this = false -> SNItem.isSingleton this = false ->
     (SNItem.deleted this = true \/ SNItem.deleted item = true
      \/ Conflicts.ItemContentsDiffer this item [] = false) ->
     strategy = Conflicts.KeepRight) /\
  (SNItem.errorDecrypting this = false -> SNItem.isSingleton this = false ->
     SNItem.deleted this = false -> SNItem.deleted item = false ->
     Conflicts.ItemContentsDiffer this item [] = true ->
     strategy = (if Conflicts.ItemContentsDiffer this item ["references"]
                 then Conflicts.KeepLeftDuplicateRight else Conflicts.KeepLeftMergeRefs)) /\
  (forall a b : Payloads.PayloadContent,
     SNItem.errorDecrypting this = false -> SNItem.isSingleton this = false ->
     SNItem.deleted this = false -> SNItem.deleted item = false ->
     SNItem.content this = Payloads.Decrypted a ->
     SNItem.content item = Payloads.Decrypted b ->
     (* equal but for conflict_of *)
     ((forall k, k <> "conflict_of" -> a !! k = b !! k) -> strategy = Conflicts.KeepRight) /\
     (* equal but for the app-domain client_updated_at *)
     (forall d v, a !! "appData" = Some (Payloads.JDomains d) ->
        b = <["appData" := Payloads.JDomains
                (alter (fun domainData => <["client_updated_at" := v]> domainData)
                   SNItem.DefaultAppDomain d)]> a ->
        strategy = Conflicts.KeepRight) /\
     (* different in references only *)
     ((forall k, k <> "references" -> a !! k = b !! k) ->
      a !! "references" <> b !! "references" ->
      strategy = Conflicts.KeepLeftMergeRefs) /\
     (* different in some other key *)
     (forall k, k <> "conflict_of" -> k <> "references" -> k <> "appData" ->
        a !! k <> b !! k -> strategy = Conflicts.KeepLeftDuplicateRight)).
Proof.
  cbv zeta. unfold Conflicts.strategyWhenConflictingWithItem.
  split; [intros ->; reflexivity|].
  split; [intros -> ->; reflexivity|].
  split.
  { intros -> -> [ -> | [ -> | -> ] ]; try reflexivity.
    - rewrite orb_true_r. reflexivity.
    - destruct (_ || _); reflexivity. }
  split; [intros -> -> -> -> ->; simpl; reflexivity|].
  intros a b -> -> -> -> Ha Hb. simpl.
  unfold Conflicts.ItemContentsDiffer. rewrite Ha, Hb.
  unfold Conflicts.contentKeysToIgnoreWhenCheckingEquality,
    Conflicts.appDataContentKeysToIgnoreWhenCheckingEquality. simpl.
  repeat split.
  - intros Hagree.
    rewrite ItemContentsEqual_agree; [reflexivity| |].
    + intros k Hk _. apply Hagree. intros ->. apply Hk. apply list_elem_of_here.
    + f_equal. by apply Hagree.
  - intros d v Hd ->.
    rewrite ItemContentsEqual_agree; [reflexivity| |].
    + intros k _ Hk. by rewrite lookup_insert_ne.
    + rewrite lookup_insert_eq, Hd. symmetry. apply appData_touch_omitted.
      apply list_elem_of_here.
  - intros Hagree Hrefs.
    rewrite (ItemContentsEqual_differ a b _ _ "references"); try done.
    + simpl. rewrite ItemContentsEqual_agree; [reflexivity| |].
      * intros k Hk _. apply Hagree. intros ->. apply Hk. apply list_elem_of_further, list_elem_of_here.
      * f_equal. by apply Hagree.
    + not_listed.
  - intros k H1 H2 H3 Hdiff.
    rewrite (ItemContentsEqual_differ a b _ _ k); try done; [simpl|not_listed].
    rewrite (ItemContentsEqual_differ a b _ _ k); try done. not_listed.
Qed.

(** ** C6: the remote-rejected delta *)

Section RemoteRejected.
Import Payloads Deltas.
Variable timeAt : nat -> Z.
Variable this : PayloadsDelta.

Lemma rejectedPayload_found (p decrypted : PurePayload) (n : nat) :
  counterpartOf this p = Some decrypted ->
  exists r, rejectedPayload timeAt this p n = (Returned r, S n) /\ resourced (timeAt n) decrypted r.
Proof.
  intros Hd. unfold rejectedPayload. fold (counterpartOf this p). rewrite Hd.
  eexists. split; [reflexivity|]. repeat split.
Qed.

Lemma mapM_rejected_all_found (l : list PurePayload) (n : nat) :
  Forall (fun p => is_Some (counterpartOf this p)) l ->
  exists results,
    Eff.mapM (rejectedPayload timeAt this) l n = (Returned results, (n + length l)%nat) /\
    length results = length l /\
    forall i p, l !! i = Some p ->
      exists decrypted r,
        counterpartOf this p = Some decrypted /\ results !! i = Some r /\
        resourced (timeAt (n + i)) decrypted r.
Proof.
  intros Hall. revert n. induction Hall as [|p l [d Hd] _ IH]; intros n.
  - exists []. simpl. rewrite Nat.add_0_r. repeat split. intros i p Hi.
    by rewrite lookup_nil in Hi.
  - destruct (rejectedPayload_found p d n Hd) as (r & Hr & Hres).
    destruct (IH (S n)) as (rs & Hrs & Hlen & Hith).
    exists (r :: rs). simpl. unfold Eff.bind at 1. rewrite Hr.
    unfold Eff.bind at 1. rewrite Hrs. simpl.
    split; [do 2 f_equal; lia|]. split; [by rewrite Hlen|].
    intros [|i] q Hq; simpl in Hq.
    + inversion Hq; subst q. exists d, r. rewrite Nat.add_0_r. auto.
    + destruct (Hith i q Hq) as (d' & r' & ? & ? & ?).
      exists d', r'. replace (n + S i)%nat with (S n + i)%nat by lia. auto.
Qed.

Lemma mapM_rejected_some_missing (l : list PurePayload) (n : nat) :
  Exists (fun p => counterpartOf this p = None) l ->
  exists n',
    Eff.mapM (rejectedPayload timeAt this) l n
    = (Thrown (BareString "Unable to find decrypted counterpart for rejected payload."), n').
Proof.
  revert n. induction l as [|p l IH]; intros n Hex.
  - by apply Exists_nil in Hex.
  - simpl. unfold Eff.bind at 1.
    destruct (counterpartOf this p) as [d|] eqn:Hd.
    + destruct (rejectedPayload_found p d n Hd) as (r & -> & _).
      apply Exists_cons in Hex as [Hp|Hl]; [congruence|].
      destruct (IH (S n) Hl) as [n' Hn']. exists n'.
      unfold Eff.bind. by rewrite Hn'.
    + exists n. unfold rejectedPayload. fold (counterpartOf this p). by rewrite Hd.
Qed.

(** C6: when every rejected payload has a decrypted counterpart, the
    delta returns a collection of source [RemoteRejected] holding, in
    order, each counterpart re-sourced with [dirty = false] and
    [lastSyncEnd] the time read for it; when some rejected payload has
    none, it throws the bare string and returns no collection. *)
Theorem C6_DeltaRemoteRejected_resultingCollection (n : nat) :
  let rejected := all (applyCollection this) in
  (Forall (fun p => is_Some (counterpartOf this p)) rejected ->
     exists results,
       resultingCollection timeAt this n
       = (Returned (WithPayloads results RemoteRejected), (n + length rejected)%nat) /\
       length results = length rejected /\
       forall i p, rejected !! i = Some p ->
         exists decrypted r,
           counterpartOf this p = Some decrypted /\ results !! i = Some r /\
           resourced (timeAt (n + i)) decrypted r) /\
  (Exists (fun p => counterpartOf this p = None) rejected ->
     exists n',
       resultingCollection timeAt this n
       = (Thrown (BareString "Unable to find decrypted counterpart for rejected payload."), n')).
Proof.
  cbv zeta. unfold resultingCollection, Eff.bind. split.
  - intros Hall. destruct (mapM_rejected_all_found _ n Hall) as (rs & -> & Hlen & Hith).
    exists rs. auto.
  - intros Hex. destruct (mapM_rejected_some_missing _ n Hex) as (n' & ->). eauto.
Qed.

End RemoteRejected.

Lemma C6_DeltaRemoteRejected_witness :
  let found := Deltas.exampleDelta [Deltas.counterpart "u1"; Deltas.counterpart "u2"] in
  let missing := Deltas.exampleDelta [Deltas.counterpart "u1"] in
  (Forall (fun p => is_Some (Deltas.counterpartOf found p))
     (Deltas.all (Deltas.applyCollection found)) /\
   exists results,
     Deltas.resultingCollection Deltas.exampleClock found 0%nat
     = (Returned (Deltas.WithPayloads results Payloads.RemoteRejected), 2%nat) /\
     length results = 2%nat) /\
  (Exists (fun p => Deltas.counterpartOf missing p = None)
     (Deltas.all (Deltas.applyCollection missing)) /\
   exists n',
     Deltas.resultingCollection Deltas.exampleClock missing 0%nat
     = (Thrown (BareString "Unable to find decrypted counterpart for rejected payload."), n')).
Proof.
  cbv zeta.
  assert (Hfound : Forall (fun p => is_Some (Deltas.counterpartOf
            (Deltas.exampleDelta [Deltas.counterpart "u1"; Deltas.counterpart "u2"]) p))
            (Deltas.all (Deltas.applyCollection
               (Deltas.exampleDelta [Deltas.counterpart "u1"; Deltas.counterpart "u2"])))).
  { repeat constructor; vm_compute; eauto. }
  assert (Hmissing : Exists (fun p => Deltas.counterpartOf
            (Deltas.exampleDelta [Deltas.counterpart "u1"]) p = None)
            (Deltas.all (Deltas.applyCollection (Deltas.exampleDelta [Deltas.counterpart "u1"])))).
  { apply Exists_cons_tl, Exists_cons_hd. reflexivity. }
  split; (split; [assumption|]).
  - destruct (proj1 (C6_DeltaRemoteRejected_resultingCollection Deltas.exampleClock _ 0%nat) Hfound)
      as (results & Hrun & Hlen & _).
    exists results. split; assumption.
  - exact (proj2 (C6_DeltaRemoteRejected_resultingCollection Deltas.exampleClock _ 0%nat) Hmissing).
Defined.

(** ** C7: the item mutator *)

Lemma bind_Returned {S A B} (c : Eff.M S A) (k : A -> Eff.M S B) s b s' :
  Eff.bind c k s = (Returned b, s') ->
  exists a s1, c s = (Returned a, s1) /\ k a s1 = (Returned b, s').
Proof.
  unfold Eff.bind. destruct (c s) as [[a|e] s1]; [eauto|discriminate].
Qed.

Lemma forEach_invariant {S A} (P : S -> Prop) (body : A -> Eff.M S unit) :
  (forall x s s', P s -> body x s = (Returned tt, s') -> P s') ->
  forall l s s', P s -> Eff.forEach l body s = (Returned tt, s') -> P s'.
Proof.
  intros Hstep l. induction l as [|x l IH]; intros s s' HP Hrun; simpl in Hrun.
  - inversion Hrun; subst. exact HP.
  - apply bind_Returned in Hrun as ([] & s1 & Hx & Hl). eauto.
Qed.

Ltac eff_unfold :=
  unfold Eff.bind, Eff.get, Eff.ret, Eff.modify, Eff.throw in *; simpl in *.

Lemma appDataOf_insert_ne (c : Payloads.PayloadContent) key v :
  key <> "appData" ->
  Mutator.appDataOf (<[key := v]> c) = Mutator.appDataOf c.
Proof. intros Hne. unfold Mutator.appDataOf. by rewrite lookup_insert_ne. Qed.





(** ** C8: required and pending migrations *)

Lemma filter_Permutation_bool {A} (f : A -> bool) (l l' : list A) :
  Permutation l l' -> Permutation (List.filter f l) (List.filter f l').
Proof.
  induction 1 as [|x l l' _ IH|x y l|l l' l'' _ IH1 _ IH2]; simpl.
  - constructor.
  - destruct (f x); [by constructor|exact IH].
  - destruct (f x), (f y); try reflexivity. apply perm_swap.
  - by transitivity (List.filter f l').
Qed.

Lemma filter_StronglySorted {A} (R : A -> A -> Prop) (f : A -> bool) (l : list A) :
  StronglySorted R l -> StronglySorted R (List.filter f l).
Proof.
  induction 1 as [|x l _ IH Hall]; simpl; [constructor|].
  destruct (f x); [|exact IH]. constructor; [exact IH|].
  apply List.Forall_forall. intros y Hy. apply filter_In in Hy as [Hy _].
  revert y Hy. by apply List.Forall_forall.
Qed.

Section RequiredMigrations.
Import Migrations.
Variable compare : string -> string -> Z.
Variable rightGreater : string -> string -> bool.
Variable imports : list MigrationClass.
Hypothesis laws : ComparatorLaws compare rightGreater.

Lemma collect_is_filter (stored : string) (classes acc : list MigrationClass) :
  fold_left
    (fun resultingClasses migrationClass =>
       if bool_decide (version migrationClass = stored) then resultingClasses
       else if rightGreater stored (version migrationClass)
            then resultingClasses ++ [migrationClass]
            else resultingClasses)
    classes acc
  = acc ++ List.filter (fun c => compare stored (version c) <? 0) classes.
Proof.
  revert acc. induction classes as [|c classes IH]; intros acc; simpl.
  - by rewrite app_nil_r.
  - rewrite IH. destruct (bool_decide_reflect (version c = stored)) as [->|Hne].
    + rewrite (compare_refl _ _ laws). reflexivity.
    + destruct (rightGreater stored (version c)) eqn:Hg.
      * apply (greater_iff _ _ laws) in Hg. apply Z.ltb_lt in Hg. rewrite Hg.
        by rewrite <- app_assoc.
      * assert (Hge : (compare stored (version c) <? 0) = false).
        { apply Z.ltb_ge. apply Z.nlt_ge. intros Hlt.
          apply (greater_iff _ _ laws) in Hlt. congruence. }
        by rewrite Hge.
Qed.

Lemma required_is_filter (stored : string) :
  getRequiredMigrations compare rightGreater imports stored
  = List.filter (fun c => compare stored (version c) <? 0)
      (JS.sort (fun a b => Some (compare (version a) (version b))) imports).
Proof. unfold getRequiredMigrations. by rewrite collect_is_filter. Qed.

Lemma sorted_imports_ascending :
  StronglySorted (ascending compare)
    (JS.sort (fun a b => Some (compare (version a) (version b))) imports).
Proof.
  apply Sorted_StronglySorted.
  - intros a b c. unfold ascending. apply (compare_trans _ _ laws).
  - apply JS_sort_Sorted; unfold JS.SortCompare, ascending; intros x y H.
    + exact H.
    + apply (compare_flip _ _ laws) in H. lia.
Qed.

(** C8: given a comparator that orders versions, [getRequiredMigrations]
    returns exactly the exported migration classes whose version is
    strictly greater than the stored one, in ascending version order;
    and, a version being stored, [hasPendingMigrations] returns true
    exactly when that list is not empty or the keychain needs repair. *)
Theorem C8_required_and_pending_migrations (stored : string) (services : Services) :
  let required := getRequiredMigrations compare rightGreater imports stored in
  Permutation required (List.filter (fun c => compare stored (version c) <? 0) imports) /\
  StronglySorted (ascending compare) required /\
  (getStoredSnjsVersion services = Returned stored ->
   exists pending,
     hasPendingMigrations compare rightGreater imports services = Returned pending /\
     (pending = true <-> required <> [] \/ needsKeychainRepair services = true)).
Proof.
  cbv zeta. split; [|split].
  - rewrite required_is_filter. apply filter_Permutation_bool, JS_sort_Permutation.
  - rewrite required_is_filter. apply filter_StronglySorted, sorted_imports_ascending.
  - intros Hstored. unfold hasPendingMigrations. rewrite Hstored.
    eexists. split; [reflexivity|].
    destruct (getRequiredMigrations compare rightGreater imports stored) as [|c l]; simpl.
    + split; [intros ->; by right|]. intros [H|H]; [done|exact H].
    + split; [intros _; by left|reflexivity].
Qed.

End RequiredMigrations.

Lemma semver_laws : Migrations.ComparatorLaws Migrations.semverCompare Migrations.semverRightGreater.
Proof.
  split.
  - intros l r. unfold Migrations.semverRightGreater, Migrations.semverCompare.
    destruct (Migrations.components l) as [[a1 b1] c1], (Migrations.components r) as [[a2 b2] c2].
    unfold Migrations.compareNumbers. rewrite Z.eqb_eq.
    repeat match goal with |- context [?x <? ?y] => destruct (Z.ltb_spec x y) end; lia.
  - intros v. unfold Migrations.semverCompare.
    destruct (Migrations.components v) as [[a b] c].
    unfold Migrations.compareNumbers. by rewrite !Z.ltb_irrefl.
  - intros a b. unfold Migrations.semverCompare.
    destruct (Migrations.components a) as [[a1 b1] c1], (Migrations.components b) as [[a2 b2] c2].
    unfold Migrations.compareNumbers.
    repeat match goal with |- context [?x <? ?y] => destruct (Z.ltb_spec x y) end; lia.
  - intros a b c. unfold Migrations.semverCompare.
    destruct (Migrations.components a) as [[a1 b1] c1], (Migrations.components b) as [[a2 b2] c2],
      (Migrations.components c) as [[a3 b3] c3].
    unfold Migrations.compareNumbers.
    repeat match goal with |- context [?x <? ?y] => destruct (Z.ltb_spec x y) end; lia.
Qed.

Lemma C8_required_and_pending_migrations_witness :
  let services := Migrations.exampleServices "2.0.0" false in
  Migrations.ComparatorLaws Migrations.semverCompare Migrations.semverRightGreater /\
  Migrations.getStoredSnjsVersion services = Returned "2.0.0" /\
  Migrations.getRequiredMigrations Migrations.semverCompare Migrations.semverRightGreater
    Migrations.exampleImports "2.0.0"
  = [Migrations.mkMigration "Migration2_0_15" "2.0.15"; Migrations.mkMigration "Migration2_7_0" "2.7.0"] /\
  exists pending,
    Migrations.hasPendingMigrations Migrations.semverCompare Migrations.semverRightGreater
      Migrations.exampleImports services = Returned pending /\
    pending = true.
Proof.
  cbv zeta. split; [exact semver_laws|]. split; [reflexivity|]. split; [reflexivity|].
  destruct (C8_required_and_pending_migrations Migrations.semverCompare
              Migrations.semverRightGreater Migrations.exampleImports semver_laws
              "2.0.0" (Migrations.exampleServices "2.0.0" false))
    as (_ & _ & Hpending).
  destruct (Hpending eq_refl) as (pending & Hrun & Hiff).
  exists pending. split; [exact Hrun|]. apply Hiff. left. discriminate.
Defined.

(** ** C9 and C10: signing in and registering *)

Lemma call_run (c : Session.Call) (w : Session.World) :
  Session.call c w = (Returned tt, Session.afterCalls w [c]).
Proof. reflexivity. Qed.

Lemma afterCalls_afterCalls (w : Session.World) (cs cs' : list Session.Call) :
  Session.afterCalls (Session.afterCalls w cs) cs' = Session.afterCalls w (cs ++ cs').
Proof. unfold Session.afterCalls. simpl. by rewrite app_assoc. Qed.

(** C9: signing in against an account whose key params version is
    outdated: when the legacy cost is below the minimum for the version,
    [signIn] returns the invalid-cost error response having only fetched
    the key params; otherwise it puts the outdated-protocol warning to
    the user, returns an error response if the user declines (again
    without a sign-in request), and goes on with the sign-in if the user
    confirms. *)
Theorem C9_signIn_outdated_version
    (env : Session.Env) (email : string) (password : Session.CodeUnits)
    (strict : bool) (minAllowedVersion : option string)
    (params : Session.KeyParams) (w : Session.World) :
  Session.error (Session.apiGetAccountKeyParams env email) = None ->
  Session.KeyParamsFromApiResponse env (Session.apiGetAccountKeyParams env email) = Some params ->
  Session.version params <> "" ->
  Session.version params ∈ Session.supportedVersions env ->
  Session.isProtocolVersionOutdated env (Session.version params) = true ->
  let warning := Session.Confirm Session.OUTDATED_PROTOCOL_VERSION
                   Session.OUTDATED_PROTOCOL_ALERT_TITLE Session.OUTDATED_PROTOCOL_ALERT_IGNORE in
  let confirmed := Session.alertConfirm env Session.OUTDATED_PROTOCOL_VERSION
                     Session.OUTDATED_PROTOCOL_ALERT_TITLE Session.OUTDATED_PROTOCOL_ALERT_IGNORE in
  let result := Session.signIn env email password strict minAllowedVersion w in
  (Session.costBelow params (Session.costMinimumForVersion env (Session.version params)) = true ->
     result = (Returned (Session.mkSMResponse
                           (Session.createErrorResponse Session.INVALID_PASSWORD_COST) None),
               Session.afterCalls w [Session.GetAccountKeyParams email])) /\
  (Session.costBelow params (Session.costMinimumForVersion env (Session.version params)) = false ->
     (confirmed = false ->
        result = (Returned (Session.mkSMResponse
                              (Session.createErrorResponse Session.API_MESSAGE_FALLBACK_LOGIN_FAIL)
                              None),
                  Session.afterCalls w [Session.GetAccountKeyParams email; warning])) /\
     (confirmed = true ->
        result = Session.signInChecked env email password strict minAllowedVersion params
                   (Session.afterCalls w [Session.GetAccountKeyParams email; warning]))).
Proof.
  intros Herr Hparams Hversion Hsupported Houtdated. cbv zeta.
  unfold Session.signIn. unfold Eff.bind at 1. rewrite call_run.
  rewrite Herr, Hparams.
  rewrite bool_decide_eq_false_2 by exact Hversion.
  rewrite (bool_decide_eq_true_2 _ Hsupported). simpl.
  rewrite Houtdated. split.
  - intros ->. reflexivity.
  - intros ->. unfold Eff.bind, Session.call, Eff.modify, Session.afterCalls. simpl.
    rewrite <- app_assoc. simpl. split; intros ->; reflexivity.
Qed.

Lemma C9_signIn_outdated_version_witness :
  let env := Session.exampleEnv 1000 true in
  let params := Session.mkKeyParams "002" (Some 1000) "nonce" in
  (Session.error (Session.apiGetAccountKeyParams env "a@b.c") = None /\
   Session.KeyParamsFromApiResponse env (Session.apiGetAccountKeyParams env "a@b.c") = Some params /\
   Session.version params <> "" /\
   Session.version params ∈ Session.supportedVersions env /\
   Session.isProtocolVersionOutdated env (Session.version params) = true /\
   Session.costBelow params (Session.costMinimumForVersion env (Session.version params)) = true) /\
  Session.signIn env "a@b.c" [112; 119]%N false None Session.signedOut
  = (Returned (Session.mkSMResponse
                 (Session.createErrorResponse Session.INVALID_PASSWORD_COST) None),
     Session.afterCalls Session.signedOut [Session.GetAccountKeyParams "a@b.c"]).
Proof.
  cbv zeta.
  assert (Hsupported : Session.version (Session.mkKeyParams "002" (Some 1000) "nonce")
                       ∈ Session.supportedVersions (Session.exampleEnv 1000 true)).
  { simpl. apply list_elem_of_further, list_elem_of_here. }
  assert (Hversion : Session.version (Session.mkKeyParams "002" (Some 1000) "nonce") <> "")
    by discriminate.
  split.
  - repeat split; try reflexivity; assumption.
  - exact (proj1 (C9_signIn_outdated_version (Session.exampleEnv 1000 true) "a@b.c" [112; 119]%N
                    false None (Session.mkKeyParams "002" (Some 1000) "nonce") Session.signedOut
                    eq_refl eq_refl Hversion Hsupported eq_refl) eq_refl).
Defined.

(** C10: for every email and every password shorter than eight
    characters, [register] returns at once the insufficient-password
    error response: no root key is created, no registration request is
    made, and user, session and storage are as before. *)
Theorem C10_register_short_password
    (env : Session.Env) (email : string) (password : Session.CodeUnits) (w : Session.World) :
  (length password < 8)%nat ->
  Session.register env email password w
  = (Returned (Session.mkSMResponse
                 (Session.createErrorResponse
                    (Session.InsufficientPasswordMessage Session.MINIMUM_PASSWORD_LENGTH))
                 None),
     w) /\
  Session.error (Session.createErrorResponse
                   (Session.InsufficientPasswordMessage Session.MINIMUM_PASSWORD_LENGTH))
  <> None.
Proof.
  intros Hshort. unfold Session.register.
  assert (Hlt : (Z.of_nat (length password) <? Session.MINIMUM_PASSWORD_LENGTH) = true).
  { apply Z.ltb_lt. unfold Session.MINIMUM_PASSWORD_LENGTH. lia. }
  rewrite Hlt. split; [reflexivity|discriminate].
Qed.

Lemma C10_register_short_password_witness :
  (length [115; 101; 99; 114; 101; 116; 49]%N < 8)%nat /\
  Session.register (Session.exampleEnv 110000 true) "a@b.c" [115; 101; 99; 114; 101; 116; 49]%N
    Session.signedOut
  = (Returned (Session.mkSMResponse
                 (Session.createErrorResponse (Session.InsufficientPasswordMessage 8)) None),
     Session.signedOut).
Proof.
  assert (Hshort : (length [115; 101; 99; 114; 101; 116; 49]%N < 8)%nat) by (simpl; lia).
  split; [exact Hshort|].
  exact (proj1 (C10_register_short_password (Session.exampleEnv 110000 true) "a@b.c"
                  [115; 101; 99; 114; 101; 116; 49]%N Session.signedOut Hshort)).
Defined.

(** ** C3: undecryptable items keys *)

Section IgnoredItemsKeys.
Import Payloads PayloadManager.

Lemma mergeOntoMaster_other (state : gmap string PurePayload * Emission) (q : PurePayload)
    (id : string) :
  uuid q <> id -> fst (mergeOntoMaster state q) !! id = fst state !! id.
Proof.
  intros Hne. destruct state as [master e]. unfold mergeOntoMaster.
  destruct (isIgnored master q); [done|].
  destruct (master !! uuid q); simpl; by rewrite lookup_insert_ne.
Qed.



Lemma fold_merge_other (payloads : list PurePayload) state (id : string) :
  id ∉ map uuid payloads ->
  fst (fold_left mergeOntoMaster payloads state) !! id = fst state !! id.
Proof.
  revert state. induction payloads as [|q payloads IH]; intros state Hid; simpl; [done|].
  simpl in Hid. apply not_elem_of_cons in Hid as [Hne Hid].
  rewrite IH by done. apply mergeOntoMaster_other. congruence.
Qed.







Context {KeyParams : Type}.


Variable getKeyEmbeddedKeyParams : SNItem.t -> option KeyParams.
Variable beginProcessingQueue : KeyRecovery.World KeyParams -> KeyRecovery.World KeyParams.


End IgnoredItemsKeys.



(** ** C4 and C5: the sync operation *)

Section SyncRounds.
Import Payloads Sync.
Context {Body : Type}.
Variable timeAt : nat -> Z.
Variable encryptedContent : EncryptionIntents -> PurePayload -> ContentField.
Variable operationSignals : bool -> option (list PurePayload) -> option bool -> list (Signal Body).
Variable numberOfItemsInvolved : bool -> option (list PurePayload) -> option bool -> nat.
Variable handleSuccessServerResponse : Response Body -> Eff.M World unit.

Lemma sameControl_refl (w : World) : sameControl w w.
Proof. unfold sameControl. repeat split. Qed.

Lemma preSyncSave_returns (from : list PurePayload) (w : World) :
  exists w',
    preSyncSave timeAt from w = (Returned tt, w') /\
    sameControl w w' /\
    exists saved, log w' = log w ++ saved /\
      forall e, e ∈ saved -> exists ps, e = Persisted ps /\ forall q, In q ps -> In q from.
Proof.
  unfold preSyncSave, popPayloadsNeedingPreSyncSave, persistPayloads, newDate, effect.
  eff_unfold. destruct w as [? ? ? ? ? ? lastSave ? ? ? ? ? ? ? ? lg]. simpl.
  destruct lastSave as [lastSave|]; simpl.
  - match goal with |- context [List.filter ?f from] => set (ps := List.filter f from) end.
    assert (Hps : forall q, In q ps -> In q from).
    { intros q Hq. unfold ps in Hq. by apply filter_In in Hq as [Hq _]. }
    destruct (length ps =? 0)%nat; simpl.
    + eexists. split; [reflexivity|]. split; [repeat split|].
      exists []. rewrite app_nil_r. split; [reflexivity|]. intros e He.
      by apply elem_of_nil in He.
    + eexists. split; [reflexivity|]. split; [repeat split|].
      exists [Persisted ps]. split; [reflexivity|]. intros e He.
      apply list_elem_of_singleton in He as ->. eauto.
  - destruct (length from =? 0)%nat; simpl.
    + eexists. split; [reflexivity|]. split; [repeat split|].
      exists []. rewrite app_nil_r. split; [reflexivity|]. intros e He.
      by apply elem_of_nil in He.
    + eexists. split; [reflexivity|]. split; [repeat split|].
      exists [Persisted from]. split; [reflexivity|]. intros e He.
      apply list_elem_of_singleton in He as ->. eauto.
Qed.

Lemma bind_run {S A B} (c : Eff.M S A) (k : A -> Eff.M S B) s a s' :
  c s = (Returned a, s') -> Eff.bind c k s = k a s'.
Proof. intros H. unfold Eff.bind. by rewrite H. Qed.

Lemma bind_thrown {S A B} (c : Eff.M S A) (k : A -> Eff.M S B) s e s' :
  c s = (Thrown e, s') -> Eff.bind c k s = (Thrown e, s').
Proof. intros H. unfold Eff.bind. by rewrite H. Qed.

Lemma bind_assoc {S A B C} (c : Eff.M S A) (k1 : A -> Eff.M S B) (k2 : B -> Eff.M S C) s :
  Eff.bind (Eff.bind c k1) k2 s = Eff.bind c (fun a => Eff.bind (k1 a) k2) s.
Proof. unfold Eff.bind. by destruct (c s) as [[a|e] s']. Qed.

Lemma bind_get {S B} (k : S -> Eff.M S B) s : Eff.bind Eff.get k s = k s s.
Proof. reflexivity. Qed.

Lemma bind_modify {S B} (f : S -> S) (k : unit -> Eff.M S B) s :
  Eff.bind (Eff.modify f) k s = k tt (f s).
Proof. reflexivity. Qed.

Lemma defer_known (options : SyncOptions) (w : World) :
  knownStrategy (useStrategyOf options) = true ->
  exists promise w',
    defer options w = (Returned (Deferred promise), w') /\ log w' = log w.
Proof.
  unfold knownStrategy, useStrategyOf, defer. intros Hk.
  destruct (default TIMING_STRATEGY_RESOLVE_ON_NEXT (timingStrategy options)
            =? TIMING_STRATEGY_RESOLVE_ON_NEXT) eqn:H1.
  - do 2 eexists. split; reflexivity.
  - simpl in Hk. rewrite Hk. do 2 eexists. split; reflexivity.
Qed.

Lemma defer_unknown (options : SyncOptions) (w : World) :
  knownStrategy (useStrategyOf options) = false ->
  defer options w
  = (Thrown (BareString (String.append "Unhandled timing strategy "
                           (pretty (useStrategyOf options)))), w).
Proof.
  unfold knownStrategy, useStrategyOf, defer. intros Hk.
  apply orb_false_elim in Hk as [-> ->]. reflexivity.
Qed.




Lemma syncRound_locked (options : SyncOptions) (w : World) :
  locked w = true ->
  syncRound timeAt encryptedContent operationSignals numberOfItemsInvolved
    handleSuccessServerResponse options w = (Returned ReturnedLocked, w).
Proof. intros H. unfold syncRound. rewrite bind_get, H. reflexivity. Qed.

(** A round that is not locked saves what needs saving, then either
    defers or begins: [wA] is the world once saved, [wB] the world once
    begun. *)
Lemma syncRound_unlocked (options : SyncOptions) (w : World) :
  locked w = false ->
  exists wA wB saved,
    log wA = log w ++ saved /\
    (forall e, e ∈ saved ->
       exists ps, e = Persisted ps /\ forall q, In q ps -> In q (decryptedPayloadsOf w)) /\
    log wB = log wA /\ online wB = online w /\
    completedInitialSync wB = completedInitialSync w /\
    syncInProgress wB = true /\
    syncRound timeAt encryptedContent operationSignals numberOfItemsInvolved
      handleSuccessServerResponse options w
    = if mustDefer w then defer options wA
      else operate timeAt encryptedContent operationSignals numberOfItemsInvolved
             handleSuccessServerResponse options (online w) (decryptedPayloadsOf w)
             (resolveQueue w) (setAside w) wB.
Proof.
  intros Hlocked.
  destruct (preSyncSave_returns (decryptedPayloadsOf w) w)
    as (wA & Hsave & (H1 & H2 & H3 & H4 & H5 & H6 & H7 & H8 & H9) & saved & Hlog & Hsaved).
  set (wB := set_items
               (fold_left overlay
                  (map (fun i => SNItem.payloadRepresentation i
                                   [SetLastSyncBegan (timeAt (reads wA))]) (toUpload w))
                  (items wA))
               (set_reads (S (reads wA)) (set_syncInProgress true wA))).
  exists wA, wB, saved. split; [exact Hlog|]. split; [exact Hsaved|].
  split; [reflexivity|]. split; [exact H5|]. split; [exact H3|]. split; [reflexivity|].
  unfold syncRound. rewrite bind_get, Hlocked.
  unfold itemsNeedingSync at 1. unfold Eff.bind at 1.
  fold (setAside w). fold (toUpload w). fold (decryptedPayloadsOf w).
  rewrite (bind_run _ _ _ _ _ Hsave), bind_get.
  unfold mustDefer. rewrite H4, H2, H7.
  destruct (syncInProgress w || negb (databaseLoaded w)); [reflexivity|].
  rewrite bind_modify. unfold newDate at 1. unfold Eff.bind at 1. simpl.
  unfold setItemsProperties. rewrite bind_modify, bind_get.
  simpl. fold wB. by rewrite H5.
Qed.


Local Abbreviation round :=
  (syncRound timeAt encryptedContent operationSignals numberOfItemsInvolved
     handleSuccessServerResponse).
Local Abbreviation runs :=
  (runOperation encryptedContent operationSignals handleSuccessServerResponse).
Local Abbreviation windsUp := (windUp timeAt encryptedContent numberOfItemsInvolved).
Local Abbreviation uploads := (uploadsOf encryptedContent).

(** A round that begins either stops at the premature default sync, or
    creates its operation, runs it and winds up: [wC] is the world the
    operation is run in, a sync marked in progress. *)
Lemma syncRound_begun (options : SyncOptions) (w : World) :
  locked w = false -> mustDefer w = false ->
  exists wB saved,
    log wB = log w ++ saved /\
    (forall e, e ∈ saved ->
       exists ps, e = Persisted ps /\ forall q, In q ps -> In q (decryptedPayloadsOf w)) /\
    if prematureDefault options w
    then round options w = (Thrown prematureDefaultSync, wB)
    else exists wC,
        log wC = log wB ++ [OperationCreated (online w) (uploads options w)
                              (integrityOf options w)] /\
        syncInProgress wC = true /\
        round options w
        = Eff.bind (runs options w) (fun _ => windsUp options w) wC.
Proof.
  intros Hlocked Hdefer.
  destruct (syncRound_unlocked options w Hlocked)
    as (wA & wB & saved & HlogA & Hsaved & HlogB & Honline & Hinitial & Hprogress & Hround).
  rewrite Hdefer in Hround.
  exists wB, saved. split; [congruence|]. split; [exact Hsaved|].
  rewrite Hround. unfold operate, uploadPayloadsFor.
  rewrite bind_assoc, bind_get, Hinitial. unfold prematureDefault, uploadsOf, useModeOf.
  destruct (default SYNC_MODE_DEFAULT (mode options) =? SYNC_MODE_DEFAULT) eqn:Hmode; simpl.
  - destruct (completedInitialSync w); simpl; [|reflexivity].
    eexists. split; [|split; [|unfold runOperation, windUp, uploadsOf, useModeOf, integrityOf;
                               rewrite Hmode; reflexivity]]; [reflexivity|exact Hprogress].
  - destruct (default SYNC_MODE_DEFAULT (mode options) =? SYNC_MODE_INITIAL) eqn:Hmode';
      (eexists; split; [|split; [|unfold runOperation, windUp, uploadsOf, useModeOf, integrityOf;
                                  rewrite Hmode, Hmode'; reflexivity]];
       [reflexivity|exact Hprogress]).
Qed.

Lemma handleErrorServerResponse_captures (response : Response Body) (w : World) :
  exists w',
    handleErrorServerResponse response w = (Returned tt, w') /\
    log w' = log w
             ++ (if status response =? INVALID_SESSION_RESPONSE_STATUS
                 then [Notified InvalidSession] else [])
             ++ [Notified (SyncError (error response))].
Proof.
  unfold handleErrorServerResponse, notifyEvent, effect.
  destruct (status response =? INVALID_SESSION_RESPONSE_STATUS);
    eff_unfold; eexists; (split; [reflexivity|]); simpl;
    rewrite <- ?app_assoc; reflexivity.
Qed.

(** C4, amended: [sync] itself throws, to its caller and without an
    event, the bare string "Unhandled timing strategy" when it must
    defer under a timing strategy it does not know, and the bare string
    "Attempting to default mode sync without having completed initial."
    when a default mode sync is begun before the initial sync completed;
    and what is thrown while the operation runs reaches the caller as
    well: the operation is run in the world [wC], where a sync is marked
    in progress and all that was added to the log is what was saved
    before the request and the creation of the operation, and what it
    throws there the call of [sync] throws, leaving the world as the
    operation left it. An error response of the server is captured: the
    receiver returns, having notified [SyncError] (after
    [InvalidSession] when the status is 401). *)
Theorem C4_what_crosses_the_sync_boundary (options : SyncOptions) (w : World) :
  (locked w = false -> mustDefer w = true -> knownStrategy (useStrategyOf options) = false ->
   exists w', round options w = (Thrown (unhandledTimingStrategy options), w') /\
              forall event, Notified event ∈ log w' -> Notified event ∈ log w) /\
  (locked w = false -> mustDefer w = false -> prematureDefault options w = true ->
   exists w', round options w = (Thrown prematureDefaultSync, w') /\
              forall event, Notified event ∈ log w' -> Notified event ∈ log w) /\
  (locked w = false -> mustDefer w = false -> prematureDefault options w = false ->
   exists wC saved,
     syncInProgress wC = true /\
     log wC = log w ++ saved ++ [OperationCreated (online w) (uploads options w)
                                   (integrityOf options w)] /\
     (forall e, e ∈ saved -> exists ps, e = Persisted ps) /\
     round options w = Eff.bind (runs options w) (fun _ => windsUp options w) wC /\
     forall e wD,
       runs options w wC = (Thrown e, wD) -> round options w = (Thrown e, wD)) /\
  (forall (response : Response Body) (w1 : World),
     hasError response = true ->
     exists w1',
       receiver handleSuccessServerResponse true (ResponseSignal response) w1
       = (Returned tt, w1') /\
       log w1' = log w1
                 ++ (if status response =? INVALID_SESSION_RESPONSE_STATUS
                     then [Notified InvalidSession] else [])
                 ++ [Notified (SyncError (error response))]).
Proof.
  assert (Hnotified : forall (w' : World) saved,
            log w' = log w ++ saved ->
            (forall e, e ∈ saved -> exists ps, e = Persisted ps /\
                                      forall q, In q ps -> In q (decryptedPayloadsOf w)) ->
            forall event, Notified event ∈ log w' -> Notified event ∈ log w).
  { intros w' saved Hlog Hsaved event Hin. rewrite Hlog in Hin.
    apply elem_of_app in Hin as [Hin|Hin]; [exact Hin|].
    destruct (Hsaved _ Hin) as (ps & Hps & _). discriminate. }
  split; [|split; [|split]].
  - intros Hlocked Hdefer Hunknown.
    destruct (syncRound_unlocked options w Hlocked)
      as (wA & wB & saved & HlogA & Hsaved & _ & _ & _ & _ & Hround).
    rewrite Hdefer in Hround. exists wA. split.
    + rewrite Hround. by apply defer_unknown.
    + by apply (Hnotified wA saved).
  - intros Hlocked Hdefer Hpremature.
    destruct (syncRound_begun options w Hlocked Hdefer) as (wB & saved & Hlog & Hsaved & Hround).
    rewrite Hpremature in Hround. exists wB. split; [exact Hround|].
    by apply (Hnotified wB saved).
  - intros Hlocked Hdefer Hpremature.
    destruct (syncRound_begun options w Hlocked Hdefer) as (wB & saved & Hlog & Hsaved & Hround).
    rewrite Hpremature in Hround. destruct Hround as (wC & HlogC & Hprogress & Hround).
    exists wC, saved. split; [exact Hprogress|].
    split; [by rewrite HlogC, Hlog, <- app_assoc|].
    split; [intros e He; destruct (Hsaved e He) as (ps & Hps & _); eauto|].
    split; [exact Hround|].
    intros e wD Hrun. rewrite Hround. by apply bind_thrown.
  - intros response w1 Herror. simpl. rewrite Herror.
    apply handleErrorServerResponse_captures.
Qed.








End SyncRounds.

(** C4, as stated, fails: a default mode sync asked of a manager whose
    initial sync has not completed throws a bare string to the caller;
    no event is notified. *)
Lemma C4_premature_default_counterexample :
  let result := Sync.sync Sync.exampleClock Sync.exampleEncryption Sync.quietServer
                  Sync.noItemsInvolved Sync.ignoreSuccess 1 Sync.noOptions
                  (Sync.loadedWorld false [Sync.editedNote]) in
  fst result
  = Thrown (BareString "Attempting to default mode sync without having completed initial.") /\
  forall event, ~ In (Sync.Notified event) (Sync.log (snd result)).
Proof.
  cbv zeta. split; [reflexivity|].
  intros event. vm_compute. intros [H|[]]. discriminate.
Qed.

Lemma C4_what_crosses_the_sync_boundary_witness :
  let w := Sync.loadedWorld false [Sync.editedNote] in
  (Sync.locked w = false /\ Sync.mustDefer w = false /\
   Sync.prematureDefault Sync.noOptions w = true) /\
  exists w',
    Sync.syncRound Sync.exampleClock Sync.exampleEncryption Sync.quietServer
      Sync.noItemsInvolved Sync.ignoreSuccess Sync.noOptions w
    = (Thrown Sync.prematureDefaultSync, w').
Proof.
  cbv zeta. split; [repeat split|].
  destruct (C4_what_crosses_the_sync_boundary Sync.exampleClock Sync.exampleEncryption
              Sync.quietServer Sync.noItemsInvolved Sync.ignoreSuccess Sync.noOptions
              (Sync.loadedWorld false [Sync.editedNote]))
    as (_ & Hpremature & _).
  destruct (Hpremature eq_refl eq_refl eq_refl) as (w' & Hround & _).
  exists w'. exact Hround.
Defined.



Lemma C2_strategyWhenConflictingWithItem_witness :
  let this := Conflicts.note (Conflicts.titled "Groceries" []) false in
  let item := Conflicts.note
                (Conflicts.titled "Groceries" [Payloads.mkReference "t-1" "Tag"]) false in
  (SNItem.errorDecrypting this = false /\ SNItem.isSingleton this = false /\
   SNItem.deleted this = false /\ SNItem.deleted item = false) /\
  Conflicts.strategyWhenConflictingWithItem this item = Conflicts.KeepLeftMergeRefs.
Proof.
  cbv zeta. split; [repeat split|].
  destruct (C2_strategyWhenConflictingWithItem
              (Conflicts.note (Conflicts.titled "Groceries" []) false)
              (Conflicts.note (Conflicts.titled "Groceries" [Payloads.mkReference "t-1" "Tag"]) false))
    as (_ & _ & _ & _ & Hcontents).
  destruct (Hcontents _ _ eq_refl eq_refl eq_refl eq_refl eq_refl eq_refl)
    as (_ & _ & Hrefs & _).
  apply Hrefs.
  - intros k Hk. unfold Conflicts.titled. rewrite !lookup_insert.
    destruct (decide ("title" = k)); [done|].
    destruct (decide ("references" = k)); [congruence|done].
  - unfold Conflicts.titled. rewrite !lookup_insert_ne by done.
    rewrite !lookup_insert_eq. discriminate.
Defined.

(** * Further properties of the code *)

(** ** Utilities: omitting keys *)

(** X1: [omitInPlace] deletes exactly the listed keys: looking up a
    listed key afterwards finds nothing, and every other key holds what
    it held. *)
Theorem omitInPlace_removes_exactly_the_keys {V}
  (object : gmap string V) (keys : list string) (k : string) :
  Conflicts.omitInPlace object keys !! k
  = if bool_decide (k ∈ keys) then None else object !! k.
Proof.
  rewrite omitInPlace_lookup. destruct (decide (k ∈ keys)) as [Hin|Hnot].
  - by rewrite bool_decide_eq_true_2.
  - by rewrite bool_decide_eq_false_2.
Qed.

(** ** The data integrity hash and the order of the collection *)

Lemma descending_timestamps (l : list SNItem.t) :
  Forall (fun i => is_Some (SNItem.updated_at i)) l ->
  Sorted Integrity.updatedAtDescending l ->
  Sorted (fun a b : Z => b <= a) (map (fun i => default 0 (SNItem.updated_at i)) l).
Proof.
  intros Hall Hsorted. induction Hsorted as [|x l Hs IH Hhd]; simpl; [constructor|].
  apply Forall_cons_1 in Hall as [Hx Hl]. constructor; [by apply IH|].
  destruct Hhd as [|y l Hxy]; simpl; constructor.
  apply Forall_cons_1 in Hl as [Hy _].
  unfold Integrity.updatedAtDescending in Hxy.
  destruct Hx as [tx Hx], Hy as [ty Hy]. rewrite Hx, Hy in *. exact Hxy.
Qed.

Lemma dates_of_timestamps (l : list SNItem.t) :
  Forall (fun i => is_Some (SNItem.updated_at i)) l ->
  map SNItem.updatedAtTimestamp l = map Some (map (fun i => default 0 (SNItem.updated_at i)) l).
Proof.
  induction 1 as [|x l [t Ht] _ IH]; simpl; [reflexivity|].
  unfold SNItem.updatedAtTimestamp at 1. rewrite Ht, IH. reflexivity.
Qed.

Lemma sorted_timestamps_of_collection (l : list SNItem.t) :
  Forall (fun i => is_Some (SNItem.updated_at i)) l ->
  Sorted (fun a b : Z => b <= a)
    (map (fun i => default 0 (SNItem.updated_at i)) (JS.sort Integrity.compareFn l)).
Proof.
  intros Hall. apply descending_timestamps.
  - eapply Permutation_Forall; [|exact Hall]. symmetry. apply JS_sort_Permutation.
  - apply JS_sort_Sorted.
    + intros x y. unfold JS.SortCompare, Integrity.compareFn, Integrity.updatedAtDescending.
      destruct (SNItem.updated_at y), (SNItem.updated_at x); auto. lia.
    + intros x y. unfold JS.SortCompare, Integrity.compareFn, Integrity.updatedAtDescending.
      destruct (SNItem.updated_at y), (SNItem.updated_at x); auto. lia.
Qed.

#[local] Instance descending_transitive : Transitive (fun a b : Z => b <= a).
Proof. intros x y z. lia. Qed.

#[local] Instance descending_antisymmetric : AntiSymm eq (fun a b : Z => b <= a).
Proof. intros x y. lia. Qed.

(** X2: the integrity hash does not depend on the order in which the
    collection lists its items, nor on its deleted items: two
    collections whose non-deleted items are the same up to order, each
    of them with an [updated_at], have the same hash. *)
Theorem computeDataIntegrityHash_order_irrelevant
    (sha256 : string -> string) (items1 items2 : list SNItem.t) :
  Permutation (Integrity.nonDeletedItems items1) (Integrity.nonDeletedItems items2) ->
  Forall (fun i => is_Some (SNItem.updated_at i)) (Integrity.nonDeletedItems items1) ->
  Integrity.computeDataIntegrityHash sha256 items1
  = Integrity.computeDataIntegrityHash sha256 items2.
Proof.
  intros Hperm Hall1.
  assert (Hall2 : Forall (fun i => is_Some (SNItem.updated_at i))
                    (Integrity.nonDeletedItems items2))
    by (eapply Permutation_Forall; eauto).
  unfold Integrity.computeDataIntegrityHash. do 3 f_equal.
  rewrite !dates_of_timestamps
    by (eapply Permutation_Forall; [symmetry; apply JS_sort_Permutation|assumption]).
  f_equal.
  apply (Sorted_unique (fun a b : Z => b <= a)).
  - by apply sorted_timestamps_of_collection.
  - by apply sorted_timestamps_of_collection.
  - apply Permutation_map. rewrite !JS_sort_Permutation. exact Hperm.
Qed.

Lemma computeDataIntegrityHash_order_irrelevant_witness :
  Integrity.computeDataIntegrityHash SHA256.sha256
    [Integrity.integrity_item 1617004805233; Integrity.integrity_item 1617004805999]
  = Integrity.computeDataIntegrityHash SHA256.sha256
      [Integrity.integrity_item 1617004805999; Integrity.integrity_item 1617004805233].
Proof.
  apply computeDataIntegrityHash_order_irrelevant.
  - apply perm_swap.
  - repeat constructor; eexists; reflexivity.
Defined.

(** ** Saving before a sync *)

(** X3: as long as no pre-sync save date is recorded,
    [popPayloadsNeedingPreSyncSave] hands back every payload and records
    no date. Once a date is recorded, it hands back the payloads without
    a [dirtiedDate] and those dirtied after that date, and records the
    time of the call: asked again, it hands back the payloads without a
    [dirtiedDate] (every time) and those dirtied after the first call. *)
Theorem popPayloadsNeedingPreSyncSave_twice
    (timeAt : nat -> Z) (from : list Payloads.PurePayload) (w : Sync.World) :
  (Sync.lastPreSyncSaveDate w = None ->
   Sync.popPayloadsNeedingPreSyncSave timeAt from w = (Returned from, w)) /\
  (forall last, Sync.lastPreSyncSaveDate w = Some last ->
   exists first w1 second w2,
     Sync.popPayloadsNeedingPreSyncSave timeAt from w = (Returned first, w1) /\
     Sync.popPayloadsNeedingPreSyncSave timeAt from w1 = (Returned second, w2) /\
     (forall p, In p first <->
        In p from /\ (Payloads.dirtiedDate p = None
                      \/ exists d, Payloads.dirtiedDate p = Some d /\ last < d)) /\
     (forall p, In p second <->
        In p from /\ (Payloads.dirtiedDate p = None
                      \/ exists d, Payloads.dirtiedDate p = Some d
                                   /\ timeAt (Sync.reads w) < d)) /\
     Sync.lastPreSyncSaveDate w1 = Some (timeAt (Sync.reads w)) /\
     Sync.lastPreSyncSaveDate w2 = Some (timeAt (S (Sync.reads w))) /\
     Sync.log w2 = Sync.log w /\ Sync.items w2 = Sync.items w).
Proof.
  assert (Hfilter : forall (last : Z) (p : Payloads.PurePayload),
            In p (List.filter
                    (fun candidate =>
                       match Payloads.dirtiedDate candidate with
                       | None => true
                       | Some d => last <? d
                       end) from)
            <-> In p from /\ (Payloads.dirtiedDate p = None
                              \/ exists d, Payloads.dirtiedDate p = Some d /\ last < d)).
  { intros last p. rewrite filter_In. split; intros [Hin H]; (split; [exact Hin|]).
    - destruct (Payloads.dirtiedDate p) as [d|]; [|by left].
      right. exists d. split; [reflexivity|]. by apply Z.ltb_lt.
    - destruct H as [->|(d & -> & Hd)]; [reflexivity|]. by apply Z.ltb_lt. }
  split.
  - intros Hnone. unfold Sync.popPayloadsNeedingPreSyncSave.
    rewrite bind_get, Hnone. reflexivity.
  - intros last Hlast. unfold Sync.popPayloadsNeedingPreSyncSave, Sync.newDate.
    destruct w as [? ? ? ? ? ? lastSave ? ? ? ? ? ? ? rd lg]. simpl in Hlast. subst lastSave.
    eff_unfold. do 4 eexists. split; [reflexivity|]. split; [reflexivity|].
    split; [apply Hfilter|]. split; [apply Hfilter|]. repeat split.
Qed.

(** ** Sync: queues, follow-up syncs and the initial sync *)

Lemma In_subtracted {A} `{EqDecision A} (x : A) (array toSubtract : list A) :
  In x (Sync.subtractFromArray array toSubtract) <-> In x array /\ ~ In x toSubtract.
Proof.
  unfold Sync.subtractFromArray. rewrite filter_In, negb_true_iff, bool_decide_eq_false.
  by rewrite list_elem_of_In.
Qed.

Section SyncQueues.
Import Payloads Sync.
Context {Body : Type}.
Variable timeAt : nat -> Z.
Variable encryptedContent : EncryptionIntents -> PurePayload -> ContentField.
Variable operationSignals : bool -> option (list PurePayload) -> option bool -> list (Signal Body).
Variable numberOfItemsInvolved : bool -> option (list PurePayload) -> option bool -> nat.
Variable handleSuccessServerResponse : Response Body -> Eff.M World unit.

(** The sync that winding up starts in the background, if any: the
    first of the spawn queue, or else one for the waiters still in the
    resolve queue. *)
Lemma afterOperation_state (useMode : Z) (involved : nat) (inTime : list nat)
    (neverSyncedDeleted : list SNItem.t) (w : World) :
  exists result w',
    afterOperation timeAt useMode involved inTime neverSyncedDeleted w = (Returned result, w') /\
    syncInProgress w' = false /\
    resolved w' = resolved w ++ inTime /\
    resolveQueue w' = subtractFromArray (resolveQueue w) inTime /\
    spawnQueue w' = tail (spawnQueue w) /\
    pendingSyncs w'
    = pendingSyncs w
      ++ match spawnQueue w with
         | (_, integrity) :: _ => [mkOptions (Some TIMING_STRATEGY_FORCE_SPAWN_NEW) None integrity]
         | [] => if (0 <? length (subtractFromArray (resolveQueue w) inTime))%nat
                 then [noOptions] else []
         end /\
    completedInitialSync w' = (useMode =? SYNC_MODE_INITIAL) || completedInitialSync w /\
    lastSyncDate w' = Some (timeAt (reads w)) /\
    opError w' = None /\
    result = (if (useMode =? SYNC_MODE_INITIAL) || (0 <? length (getDirtyItems w'))%nat
              then Chained else Finished).
Proof.
  unfold afterOperation, popSpawnQueue, syncInBackground, handleSyncOperationCompletion,
    handleNeverSyncedDeleted, mapPayloadsToLocalItems, persistPayloads, itemsNeedingSync,
    notifyEvent, effect, newDate.
  fold (clearedPayloads neverSyncedDeleted).
  generalize (clearedPayloads neverSyncedDeleted) as ps. intros ps.
  destruct (DEFAULT_MAJOR_CHANGE_THRESHOLD <=? involved)%nat;
    destruct (length ps =? 0)%nat;
    destruct (useMode =? SYNC_MODE_INITIAL);
    destruct w as [? ? ? ? ? its ? rq sq ? ? ? ? ? ? lg]; eff_unfold;
    destruct sq as [|[promise integrity] sq]; simpl;
    destruct (0 <? length (subtractFromArray rq inTime))%nat; simpl;
    try match goal with
      |- context [(0 <? length (getDirtyItems ?w0))%nat] =>
        destruct (0 <? length (getDirtyItems w0))%nat eqn:Hdirty
      end; simpl;
    do 2 eexists; (split; [reflexivity|]); simpl;
    rewrite ?app_nil_r, ?Hdirty; repeat split; reflexivity.
Qed.

Local Abbreviation round :=
  (syncRound timeAt encryptedContent operationSignals numberOfItemsInvolved
     handleSuccessServerResponse).
Local Abbreviation runs :=
  (runOperation encryptedContent operationSignals handleSuccessServerResponse).
Local Abbreviation windsUp := (windUp timeAt encryptedContent numberOfItemsInvolved).

Lemma preSyncSave_frame (from : list PurePayload) (w : World) :
  exists w',
    preSyncSave timeAt from w = (Returned tt, w') /\
    sameControl w w' /\
    pendingSyncs w' = pendingSyncs w /\ resolved w' = resolved w.
Proof.
  unfold preSyncSave, popPayloadsNeedingPreSyncSave, persistPayloads, newDate, effect.
  eff_unfold. destruct w as [? ? ? ? ? ? lastSave ? ? ? ? ? ? ? ? lg]. simpl.
  destruct lastSave as [lastSave|]; simpl.
  - match goal with |- context [List.filter ?f from] => set (ps := List.filter f from) end.
    destruct (length ps =? 0)%nat; simpl;
      (eexists; split; [reflexivity|]; split; [repeat split|by split]).
  - destruct (length from =? 0)%nat; simpl;
      (eexists; split; [reflexivity|]; split; [repeat split|by split]).
Qed.

(** A round that begins and is not premature creates its operation and
    runs it in a world [wC] in which a sync is marked in progress and
    the queues are as the caller left them; it then winds up. *)
Lemma syncRound_operation_begins (options : SyncOptions) (w : World) :
  locked w = false -> mustDefer w = false -> prematureDefault options w = false ->
  exists wC,
    syncInProgress wC = true /\
    resolveQueue wC = resolveQueue w /\ spawnQueue wC = spawnQueue w /\
    pendingSyncs wC = pendingSyncs w /\ resolved wC = resolved w /\
    round options w = Eff.bind (runs options w) (fun _ => windsUp options w) wC.
Proof.
  intros Hlocked Hdefer Hpremature.
  destruct (preSyncSave_frame (decryptedPayloadsOf w) w)
    as (wA & Hsave & (H1 & H2 & H3 & H4 & H5 & H6 & H7 & H8 & H9) & Hpending & Hresolved).
  unfold syncRound. rewrite bind_get, Hlocked.
  unfold itemsNeedingSync at 1. unfold Eff.bind at 1.
  fold (setAside w). fold (toUpload w). fold (decryptedPayloadsOf w).
  rewrite (bind_run _ _ _ _ _ Hsave), bind_get.
  unfold mustDefer in Hdefer. rewrite H4, H2, Hdefer.
  rewrite bind_modify. unfold newDate at 1. unfold Eff.bind at 1. simpl.
  unfold setItemsProperties. rewrite bind_modify, bind_get. simpl.
  unfold operate, uploadPayloadsFor. rewrite bind_assoc, bind_get. simpl.
  unfold prematureDefault, useModeOf in Hpremature.
  unfold runOperation, windUp, uploadsOf, integrityOf, useModeOf.
  rewrite H3, H5, H7.
  destruct (default SYNC_MODE_DEFAULT (mode options) =? SYNC_MODE_DEFAULT) eqn:Hmode.
  - simpl in Hpremature. apply negb_false_iff in Hpremature. rewrite Hpremature. simpl.
    eexists. split; [|split; [|split; [|split; [|split; [|reflexivity]]]]]; simpl; congruence.
  - destruct (default SYNC_MODE_DEFAULT (mode options) =? SYNC_MODE_INITIAL);
      (eexists; split; [|split; [|split; [|split; [|split; [|reflexivity]]]]]; simpl;
       congruence).
Qed.

(** X4: while the operation of a sync runs, a sync is marked in
    progress; and the callers waiting in the resolve queue when the sync
    began are resolved when the operation has run, whatever it did to
    the queue in between: each of them is among the resolved, none of
    them is left in the queue, and no sync is in progress any more. *)
Theorem sync_resolves_waiting_callers (options : SyncOptions) (w : World) :
  locked w = false -> mustDefer w = false -> prematureDefault options w = false ->
  exists wC,
    syncInProgress wC = true /\ resolveQueue wC = resolveQueue w /\
    forall wD, runs options w wC = (Returned tt, wD) ->
      exists result wE,
        round options w = (Returned result, wE) /\
        syncInProgress wE = false /\
        forall promise, In promise (resolveQueue w) ->
          In promise (resolved wE) /\ ~ In promise (resolveQueue wE).
Proof.
  intros Hlocked Hdefer Hpremature.
  destruct (syncRound_operation_begins options w Hlocked Hdefer Hpremature)
    as (wC & Hprogress & Hqueue & _ & _ & _ & Hround).
  exists wC. split; [exact Hprogress|]. split; [exact Hqueue|].
  intros wD Hrun. rewrite Hround, (bind_run _ _ _ _ _ Hrun). unfold windUp.
  destruct (afterOperation_state (useModeOf options)
              (numberOfItemsInvolved (online w) (uploadsOf encryptedContent options w)
                 (integrityOf options w))
              (resolveQueue w) (setAside w) wD)
    as (result & wE & Hwind & Hended & Hresolved & Hleft & _).
  exists result, wE. split; [exact Hwind|]. split; [exact Hended|].
  intros promise Hin. split.
  - rewrite Hresolved. apply in_or_app. by right.
  - rewrite Hleft. intros Hstill. apply In_subtracted in Hstill as [_ Hnot]. done.
Qed.

(** X5: winding up starts at most one sync in the background. A call
    waiting in the spawn queue comes first: it is taken off the queue
    and a sync is started with the force-spawn strategy and that call's
    [checkIntegrity]. Only when the spawn queue is empty, and callers
    are still waiting in the resolve queue, is a plain sync started for
    them. The operation itself begins with the spawn queue and the
    pending syncs as the caller left them. *)
Theorem sync_starts_at_most_one_follow_up (options : SyncOptions) (w : World) :
  locked w = false -> mustDefer w = false -> prematureDefault options w = false ->
  exists wC,
    spawnQueue wC = spawnQueue w /\ pendingSyncs wC = pendingSyncs w /\
    forall wD, runs options w wC = (Returned tt, wD) ->
      exists result wE,
        round options w = (Returned result, wE) /\
        match spawnQueue wD with
        | (_, integrity) :: rest =>
            spawnQueue wE = rest /\
            pendingSyncs wE
            = pendingSyncs wD ++ [mkOptions (Some TIMING_STRATEGY_FORCE_SPAWN_NEW) None integrity]
        | [] =>
            spawnQueue wE = [] /\
            pendingSyncs wE
            = pendingSyncs wD ++ (if (0 <? length (resolveQueue wE))%nat then [noOptions] else [])
        end.
Proof.
  intros Hlocked Hdefer Hpremature.
  destruct (syncRound_operation_begins options w Hlocked Hdefer Hpremature)
    as (wC & _ & _ & Hspawn & Hpending & _ & Hround).
  exists wC. split; [exact Hspawn|]. split; [exact Hpending|].
  intros wD Hrun. rewrite Hround, (bind_run _ _ _ _ _ Hrun). unfold windUp.
  destruct (afterOperation_state (useModeOf options)
              (numberOfItemsInvolved (online w) (uploadsOf encryptedContent options w)
                 (integrityOf options w))
              (resolveQueue w) (setAside w) wD)
    as (result & wE & Hwind & _ & _ & Hqueue & Hspawned & Hstarted & _).
  exists result, wE. split; [exact Hwind|].
  rewrite Hqueue. destruct (spawnQueue wD) as [|[promise integrity] rest]; by split.
Qed.

(** X6: a caller who asks for a sync while the operation runs is put
    on the resolve queue after the round took its callers in; when the
    operation has run, and no call waits in the spawn queue, that caller
    is still on the resolve queue and a plain sync is started in the
    background for it. *)
Theorem late_caller_gets_a_follow_up_sync (options : SyncOptions) (w : World) :
  locked w = false -> mustDefer w = false -> prematureDefault options w = false ->
  exists wC,
    resolveQueue wC = resolveQueue w /\ spawnQueue wC = spawnQueue w /\
    forall wD promise,
      runs options w wC = (Returned tt, wD) ->
      In promise (resolveQueue wD) -> ~ In promise (resolveQueue w) -> spawnQueue wD = [] ->
      exists result wE,
        round options w = (Returned result, wE) /\
        In promise (resolveQueue wE) /\
        resolved wE = resolved wD ++ resolveQueue w /\
        pendingSyncs wE = pendingSyncs wD ++ [noOptions].
Proof.
  intros Hlocked Hdefer Hpremature.
  destruct (syncRound_operation_begins options w Hlocked Hdefer Hpremature)
    as (wC & _ & Hqueued & Hspawned & _ & _ & Hround).
  exists wC. split; [exact Hqueued|]. split; [exact Hspawned|].
  intros wD promise Hrun Hwaiting Hlate Hspawn.
  rewrite Hround, (bind_run _ _ _ _ _ Hrun). unfold windUp.
  destruct (afterOperation_state (useModeOf options)
              (numberOfItemsInvolved (online w) (uploadsOf encryptedContent options w)
                 (integrityOf options w))
              (resolveQueue w) (setAside w) wD)
    as (result & wE & Hwind & _ & Hresolved & Hqueue & _ & Hstarted & _).
  assert (Hstill : In promise (resolveQueue wE)).
  { rewrite Hqueue. apply In_subtracted. by split. }
  exists result, wE. split; [exact Hwind|]. split; [exact Hstill|]. split; [exact Hresolved|].
  rewrite Hstarted, Hspawn, <- Hqueue.
  destruct (resolveQueue wE) as [|first rest]; [destruct Hstill|reflexivity].
Qed.

(** X7: a sync asked for while another is in progress, or before the
    database is loaded, creates no operation and notifies nothing: it
    saves what needs saving and hands back a new promise, queued at the
    end of the resolve queue under the resolve-on-next strategy (the
    default), and at the end of the spawn queue, with the call's
    [checkIntegrity], under the force-spawn strategy. *)
Theorem sync_in_progress_is_deferred (options : SyncOptions) (w : World) :
  locked w = false -> mustDefer w = true -> knownStrategy (useStrategyOf options) = true ->
  exists w' saved,
    round options w = (Returned (Deferred (nextPromise w)), w') /\
    log w' = log w ++ saved /\
    (forall e, In e saved -> exists payloads, e = Persisted payloads) /\
    nextPromise w' = S (nextPromise w) /\
    syncInProgress w' = syncInProgress w /\ items w' = items w /\
    pendingSyncs w' = pendingSyncs w /\
    if useStrategyOf options =? TIMING_STRATEGY_RESOLVE_ON_NEXT
    then resolveQueue w' = resolveQueue w ++ [nextPromise w] /\ spawnQueue w' = spawnQueue w
    else resolveQueue w' = resolveQueue w
         /\ spawnQueue w' = spawnQueue w ++ [(nextPromise w, checkIntegrity options)].
Proof.
  intros Hlocked Hdefer Hknown.
  destruct (preSyncSave_returns timeAt (decryptedPayloadsOf w) w)
    as (wA & Hsave & (H1 & H2 & H3 & H4 & H5 & H6 & H7 & H8 & H9) & saved & Hlog & Hsaved).
  destruct (preSyncSave_frame (decryptedPayloadsOf w) w)
    as (wA' & Hsave' & _ & Hpending & _).
  rewrite Hsave in Hsave'. inversion Hsave'; subst wA'. clear Hsave'.
  unfold syncRound. rewrite bind_get, Hlocked.
  unfold itemsNeedingSync at 1. unfold Eff.bind at 1.
  fold (setAside w). fold (toUpload w). fold (decryptedPayloadsOf w).
  rewrite (bind_run _ _ _ _ _ Hsave), bind_get.
  unfold mustDefer in Hdefer. rewrite H4, H2, Hdefer.
  unfold knownStrategy in Hknown. unfold defer. fold (useStrategyOf options).
  unfold timingStrategyResolveOnNext, timingStrategyForceSpawnNew.
  assert (Honly : forall e, In e saved -> exists payloads, e = Persisted payloads).
  { intros e He. apply list_elem_of_In in He. destruct (Hsaved e He) as (ps & -> & _). eauto. }
  rewrite <- H9.
  destruct (useStrategyOf options =? TIMING_STRATEGY_RESOLVE_ON_NEXT) eqn:Hstrategy.
  - eff_unfold. eexists _, saved. split; [reflexivity|]. simpl.
    split; [exact Hlog|]. split; [exact Honly|]. split; [reflexivity|].
    split; [exact H4|]. split; [exact H6|]. split; [exact Hpending|].
    split; [by rewrite H7|exact H8].
  - simpl in Hknown. rewrite Hknown. eff_unfold.
    eexists _, saved. split; [reflexivity|]. simpl.
    split; [exact Hlog|]. split; [exact Honly|]. split; [reflexivity|].
    split; [exact H4|]. split; [exact H6|]. split; [exact Hpending|].
    split; [exact H7|by rewrite H8].
Qed.

(** X8: a sync in initial mode is created with nothing to upload; when
    its operation has run it marks the initial sync completed and ends
    in a further, default mode sync, which then does not stop at the
    check that the initial sync has completed. *)
Theorem initial_sync_then_default (rounds : nat) (options : SyncOptions) (w : World) :
  locked w = false -> mustDefer w = false -> mode options = Some SYNC_MODE_INITIAL ->
  uploadsOf encryptedContent options w = Some [] /\
  exists wC,
    forall wD, runs options w wC = (Returned tt, wD) ->
      exists wE,
        round options w = (Returned Chained, wE) /\
        completedInitialSync wE = true /\
        prematureDefault noOptions wE = false /\
        sync timeAt encryptedContent operationSignals numberOfItemsInvolved
          handleSuccessServerResponse (S rounds) options w
        = sync timeAt encryptedContent operationSignals numberOfItemsInvolved
            handleSuccessServerResponse rounds noOptions wE.
Proof.
  intros Hlocked Hdefer Hmode.
  assert (Huse : useModeOf options = SYNC_MODE_INITIAL) by (unfold useModeOf; by rewrite Hmode).
  split; [unfold uploadsOf; by rewrite Huse|].
  assert (Hpremature : prematureDefault options w = false)
    by (unfold prematureDefault; by rewrite Huse).
  destruct (syncRound_operation_begins options w Hlocked Hdefer Hpremature)
    as (wC & _ & _ & _ & _ & _ & Hround).
  exists wC. intros wD Hrun. rewrite (bind_run _ _ _ _ _ Hrun) in Hround. unfold windUp in Hround.
  destruct (afterOperation_state (useModeOf options)
              (numberOfItemsInvolved (online w) (uploadsOf encryptedContent options w)
                 (integrityOf options w))
              (resolveQueue w) (setAside w) wD)
    as (result & wE & Hwind & _ & _ & _ & _ & _ & Hinitial & _ & _ & Hresult).
  rewrite Huse in Hinitial, Hresult. simpl in Hinitial, Hresult. subst result.
  rewrite Hwind in Hround.
  exists wE. split; [exact Hround|]. split; [exact Hinitial|].
  split; [unfold prematureDefault; by rewrite Hinitial|].
  simpl. by rewrite (bind_run _ _ _ _ _ Hround).
Qed.

End SyncQueues.

(** ** Mutating an item and reading it back *)

Ltac mutator_unfold :=
  unfold Mutator.getResult, Mutator.setDeleted, Mutator.set_lastSyncBegan,
    Mutator.set_protected, Mutator.set_trashed, Mutator.set_pinned, Mutator.set_archived,
    Mutator.set_locked, Mutator.setAppDataItem, Mutator.setDomainData,
    Mutator.setDomainDataKey, Mutator.addItemAsRelationship,
    Mutator.removeItemAsRelationship, Mutator.setContentKey, Mutator.setThisContent,
    Mutator.setThisPayload, Mutator.newDate, Mutator.liftOutcome in *;
  eff_unfold.

Lemma source_is_one (s : Z) :
  s = Mutator.UserInteraction \/ s = Mutator.Internal -> (s =? Mutator.UserInteraction) = true.
Proof.
  unfold Mutator.UserInteraction, Mutator.Internal. intros [->| ->]; reflexivity.
Qed.


(** X10: [protected] and [trashed] set through a mutator are what the
    item made of the mutator's result reads back. *)
Theorem set_protected_trashed_read_back (timeAt : nat -> Z) (w : Mutator.World)
    (c : Payloads.PayloadContent) (b : bool) :
  Mutator.content (Mutator.this w) = Payloads.Decrypted c ->
  is_Some (Mutator.appDataOf c) ->
  Mutator.source (Mutator.this w) = Mutator.UserInteraction
  \/ Mutator.source (Mutator.this w) = Mutator.Internal ->
  (exists w1 p w2,
     Mutator.set_protected b w = (Returned tt, w1) /\
     Mutator.getResult timeAt w1 = (Returned p, w2) /\
     forall i, SNItem.payload i = p ->
       Reading.protected i = Some (Payloads.JScalar (Payloads.SBool b))) /\
  (exists w1 p w2,
     Mutator.set_trashed b w = (Returned tt, w1) /\
     Mutator.getResult timeAt w1 = (Returned p, w2) /\
     forall i, SNItem.payload i = p ->
       Reading.trashed i = Some (Payloads.JScalar (Payloads.SBool b))).
Proof.
  intros Hcontent [g Hg] Hsource.
  destruct w as [[it src p0 c0] r]. simpl in *. subst c0.
  apply source_is_one in Hsource.
  destruct (Payloads.deleted p0) eqn:Hdeleted;
    [|destruct (Payloads.errorDecrypting p0) eqn:Herrored];
    (split; mutator_unfold;
     (do 3 eexists; split; [reflexivity|]; simpl;
      rewrite Hsource, ?Hdeleted; simpl; rewrite ?Herrored; simpl;
      rewrite ?appDataOf_insert_ne by done; rewrite ?Hg; simpl;
      (split; [reflexivity|]);
      intros i Hi;
      unfold Reading.protected, Reading.trashed, Reading.safeContent, SNItem.content;
      rewrite Hi; simpl;
      rewrite ?lookup_insert_ne by done; by rewrite lookup_insert_eq)).
Qed.

(** X11: [setDomainData] stores nothing: whether it returns or throws,
    the mutator is as it was. On a mutator that is not flagged
    [errorDecrypting] it returns only if the content's [appData] has a
    domain that is itself called appData, and throws a [TypeError]
    otherwise. *)
Theorem setDomainData_stores_nothing
    (data : gmap string Payloads.Scalar) (domain : string) (w : Mutator.World) :
  snd (Mutator.setDomainData data domain w) = w /\
  (Payloads.errorDecrypting (Mutator.payload (Mutator.this w)) = true ->
   fst (Mutator.setDomainData data domain w) = Returned tt) /\
  (Payloads.errorDecrypting (Mutator.payload (Mutator.this w)) = false ->
   (fst (Mutator.setDomainData data domain w) = Returned tt <->
    exists c d, Mutator.content (Mutator.this w) = Payloads.Decrypted c /\
                c !! "appData" = Some (Payloads.JDomains d) /\ is_Some (d !! "appData")) /\
   (fst (Mutator.setDomainData data domain w) <> Returned tt ->
    exists message, fst (Mutator.setDomainData data domain w)
                    = Thrown (Mutator.TypeError message))).
Proof.
  destruct w as [[it src p0 c0] r]. mutator_unfold.
  destruct (Payloads.errorDecrypting p0); simpl.
  { split; [reflexivity|]. split; [reflexivity|]. discriminate. }
  split; [|split; [discriminate|intros _]].
  - destruct c0 as [|s|c]; simpl; try reflexivity.
    destruct (c !! "appData") as [[s|l|d]|]; simpl; try reflexivity.
    destruct (d !! "appData"); reflexivity.
  - destruct c0 as [|s|c]; simpl.
    + split; [split; [discriminate|intros (c & d & H & _); discriminate]|eauto].
    + split; [split; [discriminate|intros (c & d & H & _); discriminate]|eauto].
    + destruct (c !! "appData") as [[s|l|d]|] eqn:Happ; simpl.
      * split; [split; [discriminate|intros (c' & d & H & H' & _); congruence]|eauto].
      * split; [split; [discriminate|intros (c' & d & H & H' & _); congruence]|eauto].
      * destruct (d !! "appData") eqn:Hd; simpl.
        -- split; [|done]. split; [|done]. intros _. exists c, d. rewrite Hd. eauto.
        -- split; [|eauto]. split; [discriminate|].
           intros (c' & d' & H & H' & [x Hx]). congruence.
      * split; [split; [discriminate|intros (c' & d & H & H' & _); congruence]|eauto].
Qed.

(** X12: deleting through a mutator discards the content: the result of
    [setDeleted] followed by [getResult] is, for every item, a payload
    of the same uuid that is [deleted] and [dirty], has no content, and
    whose [dirtiedDate] is the time of the call, the only reading of the
    clock (no user modified date is stamped). *)
Theorem setDeleted_getResult (timeAt : nat -> Z) (w : Mutator.World) :
  exists p w',
    Eff.bind Mutator.setDeleted (fun _ => Mutator.getResult timeAt) w = (Returned p, w') /\
    Payloads.deleted p = true /\
    Payloads.content p = Payloads.NoContent /\
    Payloads.dirty p = true /\
    Payloads.dirtiedDate p = Some (timeAt (Mutator.reads w)) /\
    Payloads.uuid p = Payloads.uuid (Mutator.payload (Mutator.this w)) /\
    Mutator.reads w' = S (Mutator.reads w).
Proof.
  destruct w as [[it src p0 c0] r]. mutator_unfold.
  do 2 eexists. split; [reflexivity|]. repeat split.
Qed.

Lemma hasReference_added (references : list Payloads.ContentReference) (x : SNItem.t) :
  Mutator.hasReference
    (if Mutator.hasReference references x then references
     else references ++ [Payloads.mkReference (SNItem.uuid x) (SNItem.content_type x)]) x
  = true.
Proof.
  destruct (Mutator.hasReference references x) eqn:Hhas; [exact Hhas|].
  unfold Mutator.hasReference. rewrite existsb_app. simpl.
  rewrite bool_decide_eq_true_2 by reflexivity. by rewrite orb_true_r.
Qed.

Lemma hasReference_removed (references : list Payloads.ContentReference) (x : SNItem.t) :
  Mutator.hasReference
    (List.filter (fun r => negb (bool_decide (Payloads.ref_uuid r = SNItem.uuid x))) references) x
  = false.
Proof.
  unfold Mutator.hasReference. induction references as [|r references IH]; simpl; [reflexivity|].
  destruct (bool_decide (Payloads.ref_uuid r = SNItem.uuid x)) eqn:Hr; simpl; [exact IH|].
  by rewrite Hr.
Qed.

Lemma filter_not_referenced (references : list Payloads.ContentReference) (x : SNItem.t) :
  Mutator.hasReference references x = false ->
  List.filter (fun r => negb (bool_decide (Payloads.ref_uuid r = SNItem.uuid x))) references
  = references.
Proof.
  unfold Mutator.hasReference. induction references as [|r references IH]; simpl; [reflexivity|].
  intros [Hr Hrest]%orb_false_elim. rewrite Hr. simpl. by rewrite IH.
Qed.

Lemma referencesOf_insert (c : Payloads.PayloadContent) (l : list Payloads.ContentReference) :
  Mutator.referencesOf (<["references" := Payloads.JReferences l]> c) = Some l.
Proof. unfold Mutator.referencesOf. by rewrite lookup_insert_eq. Qed.

(** X13: relationships through a mutator. After [addItemAsRelationship]
    the item made of the result has a relationship with the item added,
    and adding it once more changes nothing; after
    [removeItemAsRelationship] it has none; and adding an item that was
    not referenced, then removing it, leaves the references as they
    were. *)
Theorem relationships_added_and_removed (timeAt : nat -> Z) (w : Mutator.World)
    (c : Payloads.PayloadContent) (references : list Payloads.ContentReference) (x : SNItem.t) :
  Mutator.content (Mutator.this w) = Payloads.Decrypted c ->
  Mutator.referencesOf c = Some references ->
  is_Some (Mutator.appDataOf c) ->
  Mutator.source (Mutator.this w) = Mutator.UserInteraction
  \/ Mutator.source (Mutator.this w) = Mutator.Internal ->
  (exists w1 p w2,
     Mutator.addItemAsRelationship x w = (Returned tt, w1) /\
     Mutator.addItemAsRelationship x w1 = (Returned tt, w1) /\
     Mutator.getResult timeAt w1 = (Returned p, w2) /\
     forall i, SNItem.payload i = p -> Reading.hasRelationshipWithItem i x = Returned true) /\
  (exists w1 p w2,
     Mutator.removeItemAsRelationship x w = (Returned tt, w1) /\
     Mutator.getResult timeAt w1 = (Returned p, w2) /\
     forall i, SNItem.payload i = p -> Reading.hasRelationshipWithItem i x = Returned false) /\
  (Mutator.hasReference references x = false ->
   exists w1 w2,
     Mutator.addItemAsRelationship x w = (Returned tt, w1) /\
     Mutator.removeItemAsRelationship x w1 = (Returned tt, w2) /\
     Mutator.content (Mutator.this w2)
     = Payloads.Decrypted (<["references" := Payloads.JReferences references]> c)).
Proof.
  intros Hcontent Hrefs [g Hg] Hsource.
  destruct w as [[it src p0 c0] r]. simpl in *. subst c0.
  apply source_is_one in Hsource.
  split; [|split].
  - destruct (Payloads.deleted p0) eqn:Hdeleted;
      [|destruct (Payloads.errorDecrypting p0) eqn:Herrored];
      mutator_unfold; rewrite Hrefs; simpl;
      (do 3 eexists; split; [reflexivity|]; simpl;
       rewrite referencesOf_insert; simpl; rewrite hasReference_added, insert_insert_eq;
       (split; [reflexivity|]);
       rewrite Hsource, ?Hdeleted; simpl; rewrite ?Herrored; simpl;
       rewrite ?appDataOf_insert_ne by done; rewrite ?Hg; simpl;
       (split; [reflexivity|]);
       intros i Hi; unfold Reading.hasRelationshipWithItem, Reading.safeContent, SNItem.content;
       rewrite Hi; simpl;
       rewrite ?lookup_insert_ne by done; rewrite lookup_insert_eq;
       by rewrite hasReference_added).
  - destruct (Payloads.deleted p0) eqn:Hdeleted;
      [|destruct (Payloads.errorDecrypting p0) eqn:Herrored];
      mutator_unfold; rewrite Hrefs; simpl;
      (do 3 eexists; split; [reflexivity|]; simpl;
       rewrite Hsource, ?Hdeleted; simpl; rewrite ?Herrored; simpl;
       rewrite ?appDataOf_insert_ne by done; rewrite ?Hg; simpl;
       (split; [reflexivity|]);
       intros i Hi; unfold Reading.hasRelationshipWithItem, Reading.safeContent, SNItem.content;
       rewrite Hi; simpl;
       rewrite ?lookup_insert_ne by done; rewrite lookup_insert_eq;
       by rewrite hasReference_removed).
  - intros Hnot. mutator_unfold. rewrite Hrefs, Hnot. simpl.
    do 2 eexists. split; [reflexivity|]. simpl. rewrite referencesOf_insert. simpl.
    split; [reflexivity|]. simpl. rewrite insert_insert_eq. do 2 f_equal. f_equal.
    rewrite List.filter_app. simpl. rewrite bool_decide_eq_true_2 by reflexivity. simpl.
    rewrite app_nil_r. by apply filter_not_referenced.
Qed.

(** X14: the two members of [MutationType] have the same value, so a
    mutator created with [MutationType.Internal] stamps the user
    modified date like one created for a user interaction: the item
    made of its result has [user_modified_at] equal to the time
    [getResult] was called, whatever it held before, and its
    [dirtiedDate] is the next reading of the clock. *)
Theorem internal_mutation_stamps_user_modified_date
    (timeAt : nat -> Z) (parseDate : string -> option Z) (w : Mutator.World)
    (c : Payloads.PayloadContent) :
  Mutator.source (Mutator.this w) = Mutator.Internal ->
  Payloads.deleted (Mutator.payload (Mutator.this w)) = false ->
  Payloads.errorDecrypting (Mutator.payload (Mutator.this w)) = false ->
  Mutator.content (Mutator.this w) = Payloads.Decrypted c ->
  is_Some (Mutator.appDataOf c) ->
  exists p w',
    Mutator.getResult timeAt w = (Returned p, w') /\
    Payloads.dirtiedDate p = Some (timeAt (S (Mutator.reads w))) /\
    forall i, SNItem.payload i = p ->
      Reading.user_modified_at parseDate i = Returned (Some (timeAt (Mutator.reads w))).
Proof.
  intros Hsource Hdeleted Herrored Hcontent [g Hg].
  destruct w as [[it src p0 c0] r]. simpl in *. subst c0 src.
  mutator_unfold. rewrite Hdeleted. simpl. rewrite Herrored. simpl. rewrite Hg. simpl.
  do 2 eexists. split; [reflexivity|]. split; [reflexivity|].
  intros i Hi.
  unfold Reading.user_modified_at, Mutator.getAppDomainValue, Mutator.getDomainData,
    SNItem.content.
  rewrite Hi. simpl. rewrite !lookup_insert_eq. reflexivity.
Qed.

(** X15: the getters that read the default app domain do not check that
    it is there: on an item whose content is not a parsed object, or has
    no [appData], [pinned], [archived], [locked] and [user_modified_at]
    throw a [TypeError]. *)
Theorem app_domain_getters_throw_without_app_data
    (parseDate : string -> option Z) (i : SNItem.t) :
  (forall c, SNItem.content i = Payloads.Decrypted c -> c !! "appData" = None) ->
  exists message,
    Reading.pinned i = Thrown (Mutator.TypeError message) /\
    Reading.archived i = Thrown (Mutator.TypeError message) /\
    Reading.locked i = Thrown (Mutator.TypeError message) /\
    Reading.user_modified_at parseDate i = Thrown (Mutator.TypeError message).
Proof.
  intros Hnone.
  assert (Hdata : Mutator.getDomainData i SNItem.DefaultAppDomain = None).
  { unfold Mutator.getDomainData. destruct (SNItem.content i) as [|s|c]; try reflexivity.
    by rewrite (Hnone c eq_refl). }
  unfold Reading.pinned, Reading.archived, Reading.locked, Reading.user_modified_at,
    Mutator.getAppDomainValue.
  rewrite Hdata. eauto.
Qed.

(** ** Privileges *)

Ltac privileges_unfold :=
  unfold Privileges.toggleCredentialForAction, Privileges.addCredentialForAction,
    Privileges.removeCredentialForAction, Privileges.isCredentialRequiredForAction,
    Privileges.getCredentialsForAction, Privileges.setCredentialsForAction,
    Privileges.credentialsAt, Eff.put in *;
  eff_unfold.

Lemma elem_of_removed (credentials : list string) (credential c : string) :
  c ∈ List.filter (fun x => negb (bool_decide (x = credential))) credentials
  <-> c ∈ credentials /\ c <> credential.
Proof.
  rewrite !list_elem_of_In, filter_In, negb_true_iff, bool_decide_eq_false. reflexivity.
Qed.

Section PrivilegesOfActions.
Variable arrayGet : list string -> string -> Privileges.Value.

Local Abbreviation isRequired := (Privileges.isCredentialRequiredForAction arrayGet).
Local Abbreviation toggle := (Privileges.toggleCredentialForAction arrayGet).
Local Abbreviation add := (Privileges.addCredentialForAction arrayGet).
Local Abbreviation remove := (Privileges.removeCredentialForAction arrayGet).

(** Privileges whose [desktopPrivileges] holds [d] and inherits from
    [Object.prototype]. *)
Local Abbreviation plain errored d :=
  (Privileges.mkPrivileges errored
     (Privileges.Parsed (Some (Privileges.mkDesktopPrivileges d None)))).

Lemma getProperty_plain (d : gmap string (list string)) (action : string) :
  Privileges.inherited action = false ->
  Privileges.getProperty arrayGet (Privileges.mkDesktopPrivileges d None) action
  = from_option Privileges.Credentials Privileges.Undefined (d !! action).
Proof.
  intros Haction. unfold Privileges.getProperty. simpl.
  destruct (d !! action); [reflexivity|]. by rewrite Haction.
Qed.

Lemma setProperty_plain (d : gmap string (list string)) (action : string)
    (credentials : list string) :
  Privileges.inherited action = false ->
  Privileges.setProperty (Privileges.mkDesktopPrivileges d None) action credentials
  = Privileges.mkDesktopPrivileges (<[action := credentials]> d) None.
Proof.
  intros Haction. unfold Privileges.setProperty. simpl.
  destruct (d !! action); [reflexivity|].
  rewrite bool_decide_eq_false_2; [reflexivity|]. by intros ->.
Qed.


Lemma isRequired_plain (errored : bool) (d : gmap string (list string))
    (action credential : string) :
  Privileges.inherited action = false ->
  isRequired action credential (plain errored d)
  = (Returned (bool_decide (credential ∈ default [] (d !! action))), plain errored d).
Proof.
  intros Haction. privileges_unfold. rewrite getProperty_plain by done.
  by destruct (d !! action).
Qed.

Lemma add_plain (errored : bool) (d : gmap string (list string)) (action credential : string) :
  Privileges.inherited action = false ->
  add action credential (plain errored d)
  = (Returned tt, plain errored (<[action := default [] (d !! action) ++ [credential]]> d)).
Proof.
  intros Haction. privileges_unfold. rewrite getProperty_plain by done.
  destruct (d !! action); simpl; by rewrite setProperty_plain.
Qed.

Lemma remove_plain (errored : bool) (d : gmap string (list string))
    (action credential : string) (credentials : list string) :
  Privileges.inherited action = false -> d !! action = Some credentials ->
  remove action credential (plain errored d)
  = (Returned tt,
     plain errored
       (<[action := List.filter (fun c => negb (bool_decide (c = credential))) credentials]> d)).
Proof.
  intros Haction Hd. privileges_unfold. rewrite getProperty_plain by done.
  rewrite Hd. simpl. by rewrite setProperty_plain.
Qed.


(** X17: on such privileges and for such an action, adding a credential
    appends it to those the action requires, also when it is required
    already; removing it takes every occurrence out, so that it is no
    longer required however often it was added. For a name every object
    inherits that is not a property of [desktopPrivileges] itself,
    asking whether a credential is required, adding one and toggling
    one throw a [TypeError], and nothing is stored. *)
Theorem credentials_added_and_removed
    (this : Privileges.SNPrivileges) (d : gmap string (list string))
    (action credential : string) :
  Privileges.content this
  = Privileges.Parsed (Some (Privileges.mkDesktopPrivileges d None)) ->
  (Privileges.inherited action = false ->
   (exists this',
      add action credential this = (Returned tt, this') /\
      Privileges.getCredentialsForAction arrayGet action this'
      = (Returned (Privileges.Credentials (default [] (d !! action) ++ [credential])), this')) /\
   (exists this1 this2 this3,
      add action credential this = (Returned tt, this1) /\
      add action credential this1 = (Returned tt, this2) /\
      remove action credential this2 = (Returned tt, this3) /\
      isRequired action credential this3 = (Returned false, this3))) /\
  (Privileges.inherited action = true -> d !! action = None ->
   exists message1 message2,
     isRequired action credential this = (Thrown (Privileges.TypeError message1), this) /\
     add action credential this = (Thrown (Privileges.TypeError message2), this) /\
     toggle action credential this = (Thrown (Privileges.TypeError message1), this)).
Proof.
  intros Hcontent. destruct this as [errored content]. simpl in Hcontent. subst content.
  split.
  - intros Haction. split.
    + eexists. split; [by apply add_plain|].
      privileges_unfold. rewrite getProperty_plain by done.
      by rewrite lookup_insert_eq.
    + do 3 eexists. split; [by apply add_plain|].
      split; [by apply add_plain|]. rewrite lookup_insert_eq. simpl.
      split; [apply remove_plain; [done|by rewrite lookup_insert_eq]|].
      rewrite isRequired_plain by done. rewrite lookup_insert_eq. simpl.
      rewrite bool_decide_eq_false_2; [reflexivity|].
      rewrite elem_of_removed. intros [_ Hne]. done.
  - intros Haction Hd. do 2 eexists.
    privileges_unfold. unfold Privileges.getProperty. simpl.
    rewrite Hd, Haction. simpl. repeat split; reflexivity.
Qed.

End PrivilegesOfActions.

(** ** The base migration *)

Section BaseMigrationTimestamp.
Variable timeAt : nat -> Z.
Variable namespace : string.
Variable lastMigrationKey : string.

Local Abbreviation migrate :=
  (BaseMigration.migrateMigrationTimestampAllPlatforms timeAt namespace lastMigrationKey).
Local Abbreviation key := (BaseMigration.newKey namespace lastMigrationKey).

(** X18: [migrateMigrationTimestampAllPlatforms] always leaves a last
    migration timestamp in storage and touches no other key: a stored
    timestamp is kept; without one, a device that holds the legacy
    [migrations] value gets the epoch, 0, and a new one the time of the
    call. Run again, it changes nothing. *)
Theorem migrateMigrationTimestamp_establishes_timestamp (w : BaseMigration.World) :
  exists w',
    migrate w = (Returned tt, w') /\
    migrate w' = (Returned tt, w') /\
    (forall k, k <> key -> BaseMigration.rawStorage w' !! k = BaseMigration.rawStorage w !! k) /\
    match BaseMigration.rawStorage w !! key with
    | Some value => w' = w
    | None =>
        match BaseMigration.rawStorage w !! BaseMigration.legacyKey with
        | Some _ =>
            BaseMigration.rawStorage w' !! key = Some (BaseMigration.RawNumber 0) /\
            BaseMigration.reads w' = BaseMigration.reads w
        | None =>
            BaseMigration.rawStorage w' !! key
            = Some (BaseMigration.RawNumber (timeAt (BaseMigration.reads w))) /\
            BaseMigration.reads w' = S (BaseMigration.reads w)
        end
    end.
Proof.
  destruct w as [storage r].
  unfold BaseMigration.migrateMigrationTimestampAllPlatforms, BaseMigration.getRawStorageValue,
    BaseMigration.setRawStorageValue, BaseMigration.now.
  eff_unfold.
  destruct (storage !! key) as [value|] eqn:Hnew; simpl.
  - exists (BaseMigration.mkWorld storage r). simpl. rewrite Hnew. simpl. repeat split.
  - destruct (storage !! BaseMigration.legacyKey) as [legacy|] eqn:Hlegacy; simpl;
      eexists; (split; [reflexivity|]); simpl; rewrite lookup_insert_eq; simpl;
      (split; [reflexivity|]); (split; [|by split]);
      intros k Hk; by rewrite lookup_insert_ne.
Qed.

End BaseMigrationTimestamp.

(** ** Migrations marked as done *)

Section MigrationsDone.
Import Migrations.
Variable compare : string -> string -> Z.
Variable rightGreater : string -> string -> bool.
Variable imports : list MigrationClass.
Variable SnjsVersion : string.
Variable preRun : Services -> Outcome Services.

Lemma none_required (stored : string) (classes : list MigrationClass)
    (acc : list MigrationClass) :
  (forall c, In c classes -> rightGreater stored (version c) = false) ->
  fold_left
    (fun resultingClasses migrationClass =>
       let migrationVersion := version migrationClass in
       if bool_decide (migrationVersion = stored) then resultingClasses
       else if rightGreater stored migrationVersion
            then resultingClasses ++ [migrationClass]
            else resultingClasses)
    classes acc = acc.
Proof.
  revert acc. induction classes as [|c classes IH]; intros acc Hnone; simpl; [reflexivity|].
  rewrite (Hnone c) by (by left).
  destruct (bool_decide (version c = stored)); apply IH; intros c' Hc'; apply Hnone; by right.
Qed.

(** X19: once the migrations are marked as done the stored version is
    the library's; and when no registered migration is newer than the
    library, none is required from then on and the only thing that can
    still be pending is the keychain repair: [initialize], whenever the
    base migration's pre-run leaves the services so, activates no
    migration and leaves them so. When the pre-run throws, [initialize]
    throws the same; and with no version stored (once the pre-run is
    made, for [initialize]), [hasPendingMigrations] and [initialize]
    throw the error that asks for the base migration. *)
Theorem migrations_marked_as_done (services : Services) :
  SnjsVersion <> "" ->
  (forall c, In c imports -> rightGreater SnjsVersion (version c) = false) ->
  let done := MigrationService.markMigrationsAsDone SnjsVersion services in
  getStoredSnjsVersion done = Returned SnjsVersion /\
  getRequiredMigrations compare rightGreater imports SnjsVersion = [] /\
  hasPendingMigrations compare rightGreater imports done
  = Returned (needsKeychainRepair services) /\
  (forall starting, preRun starting = Returned done ->
     MigrationService.initialize compare rightGreater imports SnjsVersion preRun starting
     = Returned ([], done)) /\
  (forall starting e, preRun starting = Thrown e ->
     MigrationService.initialize compare rightGreater imports SnjsVersion preRun starting
     = Thrown e) /\
  forall unversioned,
    rawStorage unversioned !! namespacedKey (identifier unversioned) SnjsVersionKey = None ->
    hasPendingMigrations compare rightGreater imports unversioned
    = Thrown (ErrorObject "Error" "Snjs version missing from storage, run base migration.") /\
    forall starting, preRun starting = Returned unversioned ->
      MigrationService.initialize compare rightGreater imports SnjsVersion preRun starting
      = Thrown (ErrorObject "Error" "Snjs version missing from storage, run base migration.").
Proof.
  intros Hversion Hnewest. cbv zeta.
  assert (Hstored : getStoredSnjsVersion (MigrationService.markMigrationsAsDone SnjsVersion services)
                    = Returned SnjsVersion).
  { unfold getStoredSnjsVersion, MigrationService.markMigrationsAsDone. simpl.
    rewrite lookup_insert_eq. by rewrite bool_decide_eq_false_2. }
  assert (Hnone : getRequiredMigrations compare rightGreater imports SnjsVersion = []).
  { unfold getRequiredMigrations. apply none_required. intros c Hc. apply Hnewest.
    eapply Permutation_in; [apply JS_sort_Permutation|exact Hc]. }
  split; [exact Hstored|]. split; [exact Hnone|]. split; [|split; [|split]].
  - unfold hasPendingMigrations. rewrite Hstored, Hnone. reflexivity.
  - intros starting Hpre.
    unfold MigrationService.initialize, MigrationService.runBaseMigrationPreRun.
    rewrite Hpre, Hstored, Hnone. simpl.
    do 2 f_equal. unfold MigrationService.markMigrationsAsDone. simpl.
    by rewrite insert_insert_eq.
  - intros starting e Hpre.
    unfold MigrationService.initialize, MigrationService.runBaseMigrationPreRun.
    by rewrite Hpre.
  - intros unversioned Hmissing. split.
    + unfold hasPendingMigrations, getStoredSnjsVersion. by rewrite Hmissing.
    + intros starting Hpre.
      unfold MigrationService.initialize, MigrationService.runBaseMigrationPreRun,
        getStoredSnjsVersion.
      by rewrite Hpre, Hmissing.
Qed.

End MigrationsDone.

(** ** Key recovery: the record of undecryptables and the queue *)

Section UndecryptablesRecord.
Import Payloads KeyRecovery.
Context {KeyParams : Type}.

Lemma saved_record_other (keys : list SNItem.t) (record : gmap string PurePayload) (u : string) :
  ~ In u (map SNItem.uuid keys) ->
  fold_left (fun record key => <[SNItem.uuid key := ejected (SNItem.payload key)]> record)
    keys record !! u
  = record !! u.
Proof.
  revert record. induction keys as [|k keys IH]; intros record Hnot; simpl; [reflexivity|].
  simpl in Hnot. rewrite IH by tauto. rewrite lookup_insert_ne; [reflexivity|]. tauto.
Qed.

(** X20: the record of undecryptable items keys. Saving writes each key
    under its uuid, a later key replacing an earlier one of the same
    uuid, and leaves the other entries alone; removing a key deletes
    the entry of its uuid and no other. *)
Theorem undecryptables_saved_and_removed
    (keys : list SNItem.t) (key : SNItem.t) (w : World KeyParams) :
  getUndecryptables (saveToUndecryptables (keys ++ [key]) w) !! SNItem.uuid key
  = Some (ejected (SNItem.payload key)) /\
  (forall u, ~ In u (map SNItem.uuid keys) ->
     getUndecryptables (saveToUndecryptables keys w) !! u = getUndecryptables w !! u) /\
  getUndecryptables (RecoveryQueue.removeFromUndecryptables key w) !! SNItem.uuid key = None /\
  (forall u, u <> SNItem.uuid key ->
     getUndecryptables (RecoveryQueue.removeFromUndecryptables key w) !! u
     = getUndecryptables w !! u) /\
  master (RecoveryQueue.removeFromUndecryptables key (saveToUndecryptables keys w)) = master w /\
  decryptionQueue (RecoveryQueue.removeFromUndecryptables key (saveToUndecryptables keys w))
  = decryptionQueue w.
Proof.
  split; [|split; [|split; [|split; [|split]]]].
  - unfold saveToUndecryptables, persistUndecryptables. unfold getUndecryptables at 1. simpl.
    rewrite fold_left_app. simpl. by rewrite lookup_insert_eq.
  - intros u Hu.
    unfold saveToUndecryptables, persistUndecryptables. unfold getUndecryptables at 1. simpl.
    by apply saved_record_other.
  - unfold RecoveryQueue.removeFromUndecryptables, persistUndecryptables.
    unfold getUndecryptables at 1. simpl. by rewrite lookup_delete_eq.
  - intros u Hu. unfold RecoveryQueue.removeFromUndecryptables, persistUndecryptables.
    unfold getUndecryptables at 1. simpl. by rewrite lookup_delete_ne.
  - reflexivity.
  - reflexivity.
Qed.

Variable compare : KeyParams -> KeyParams -> bool.

Lemma partition_queue (params : KeyParams) (queue matching nonmatching : list (DecryptionQueueItem KeyParams)) :
  fold_left
    (fun '(matching, nonmatching) queueItem =>
       if compare (keyParams KeyParams queueItem) params
       then (matching ++ [queueItem], nonmatching)
       else (matching, nonmatching ++ [queueItem]))
    queue (matching, nonmatching)
  = (matching ++ List.filter (fun q => compare (keyParams KeyParams q) params) queue,
     nonmatching ++ List.filter (fun q => negb (compare (keyParams KeyParams q) params)) queue).
Proof.
  revert matching nonmatching.
  induction queue as [|q queue IH]; intros matching nonmatching; simpl.
  - by rewrite !app_nil_r.
  - destruct (compare (keyParams KeyParams q) params); simpl; rewrite IH;
      by rewrite <- app_assoc.
Qed.

(** X21: [popQueueForKeyParams] splits the decryption queue by the key
    params: it returns the queue items whose key params compare equal
    to the given ones, leaves the others on the queue, both in the
    order they were queued in, loses none and touches nothing else. *)
Theorem popQueueForKeyParams_partitions (params : KeyParams) (w : World KeyParams) :
  let popped := RecoveryQueue.popQueueForKeyParams compare params w in
  fst popped = List.filter (fun q => compare (keyParams KeyParams q) params) (decryptionQueue w) /\
  decryptionQueue (snd popped)
  = List.filter (fun q => negb (compare (keyParams KeyParams q) params)) (decryptionQueue w) /\
  Permutation (fst popped ++ decryptionQueue (snd popped)) (decryptionQueue w) /\
  fst (RecoveryQueue.popQueueForKeyParams compare params (snd popped)) = [] /\
  master (snd popped) = master w /\
  undecryptableItems (snd popped) = undecryptableItems w.
Proof.
  cbv zeta. unfold RecoveryQueue.popQueueForKeyParams. rewrite partition_queue. simpl.
  split; [reflexivity|]. split; [reflexivity|]. split; [|split; [|by split]].
  - induction (decryptionQueue w) as [|q queue IH]; simpl; [constructor|].
    destruct (compare (keyParams KeyParams q) params); simpl.
    + by constructor.
    + rewrite <- Permutation_middle. by constructor.
  - rewrite partition_queue. simpl.
    induction (decryptionQueue w) as [|q queue IH]; simpl; [reflexivity|].
    destruct (compare (keyParams KeyParams q) params) eqn:Hq; simpl; [exact IH|].
    by rewrite Hq.
Qed.

End UndecryptablesRecord.

(** ** Session manager: registering and signing in *)

Ltac session_unfold :=
  unfold Session.register, Session.handleSuccessAuthResponse, Session.setSession,
    Session.promptForMfaValue, Session.call, Session.afterCalls, Eff.put in *;
  eff_unfold.

(** X22: [register] with a password of eight code units or more asks
    the protocol service for a root key and the server to register the
    email with the key's server password, and returns the server's
    response with the root key. When the response carries an error,
    nothing else is done; otherwise the response's user becomes the
    manager's and is stored, and the session of the response is set. *)
Theorem register_signs_in_on_success
    (env : Session.Env) (email : string) (password : Session.CodeUnits) (w : Session.World) :
  (8 <= length password)%nat ->
  let rootKey := Session.createRootKey env email password in
  let r := Session.apiRegister env email (Session.serverPassword rootKey)
             (Session.keyParams rootKey) in
  let asked := [Session.CreateRootKey email password;
                Session.ApiRegister email (Session.serverPassword rootKey)
                  (Session.keyParams rootKey)] in
  exists w',
    Session.register env email password w
    = (Returned (Session.mkSMResponse r (Some rootKey)), w') /\
    (Session.error r <> None -> w' = Session.afterCalls w asked) /\
    (Session.error r = None ->
       Session.thisUser w' = Session.user r /\
       Session.storedUser w' = Session.user r /\
       Session.apiSession w' = Some (SessionTrace.sessionOf r) /\
       Session.calls w'
       = Session.calls w ++ asked
         ++ [Session.StorageSetUser (Session.user r);
             Session.ApiSetSession (SessionTrace.sessionOf r)]).
Proof.
  intros Hlong. cbv zeta.
  assert (Hlt : (Z.of_nat (length password) <? Session.MINIMUM_PASSWORD_LENGTH) = false).
  { apply Z.ltb_ge. unfold Session.MINIMUM_PASSWORD_LENGTH. lia. }
  unfold Session.register. rewrite Hlt. unfold SessionTrace.sessionOf.
  set (rootKey := Session.createRootKey env email password).
  set (r := Session.apiRegister env email (Session.serverPassword rootKey)
              (Session.keyParams rootKey)).
  destruct (Session.error r) as [e|] eqn:Herror.
  - session_unfold. eexists. split; [reflexivity|]. split; [|discriminate].
    intros _. by rewrite <- app_assoc.
  - destruct (Session.token r) as [t|] eqn:Htoken; session_unfold; rewrite Htoken;
      try destruct (bool_decide (t = ""));
      (eexists; split; [reflexivity|]; split; [done|]; intros _; simpl;
       repeat split; by rewrite <- !app_assoc).
Qed.

(** X23: a strict sign-in accepts only the latest protocol version.
    When the account's key params are of a version that is not greater
    than or equal to the latest, [signIn] with [strict] set returns an
    error response it made itself, whatever minimum version the caller
    passed: the user and the session are as before, and the only calls
    made are the request for the key params and, possibly, the
    outdated-protocol warning; no root key is derived and no sign-in
    request sent. *)
Theorem strict_signIn_requires_latest_version
    (env : Session.Env) (email : string) (password : Session.CodeUnits)
    (minAllowedVersion : option string) (params : Session.KeyParams) (w : Session.World) :
  Session.error (Session.apiGetAccountKeyParams env email) = None ->
  Session.KeyParamsFromApiResponse env (Session.apiGetAccountKeyParams env email) = Some params ->
  Session.leftVersionGreaterThanOrEqualToRight env (Session.version params)
    (Session.getLatestVersion env) = false ->
  let warning := Session.Confirm Session.OUTDATED_PROTOCOL_VERSION
                   Session.OUTDATED_PROTOCOL_ALERT_TITLE Session.OUTDATED_PROTOCOL_ALERT_IGNORE in
  exists message asked,
    Session.signIn env email password true minAllowedVersion w
    = (Returned (Session.mkSMResponse (Session.createErrorResponse message) None),
       Session.afterCalls w asked) /\
    (asked = [Session.GetAccountKeyParams email]
     \/ asked = [Session.GetAccountKeyParams email; warning]) /\
    Session.thisUser (Session.afterCalls w asked) = Session.thisUser w /\
    Session.apiSession (Session.afterCalls w asked) = Session.apiSession w /\
    Session.storedUser (Session.afterCalls w asked) = Session.storedUser w.
Proof.
  intros Herror Hparams Hlatest. cbv zeta.
  unfold Session.signIn. unfold Eff.bind at 1. rewrite call_run.
  rewrite Herror, Hparams.
  destruct (bool_decide (Session.version params = "")).
  { do 2 eexists. split; [reflexivity|]. split; [by left|]. repeat split. }
  destruct (bool_decide (Session.version params ∈ Session.supportedVersions env)); simpl.
  2:{ destruct (Session.isVersionNewerThanLibraryVersion env (Session.version params));
        (do 2 eexists; split; [reflexivity|]; split; [by left|]; repeat split). }
  assert (Hchecked : forall w0,
            Session.signInChecked env email password true minAllowedVersion params w0
            = (if negb (Session.platformSupportsKeyDerivation env params)
               then Returned (Session.mkSMResponse
                                (Session.createErrorResponse Session.UNSUPPORTED_KEY_DERIVATION)
                                None)
               else Returned (Session.mkSMResponse
                                (Session.createErrorResponse
                                   (Session.StrictSignInFailed (Session.version params)
                                      (Session.getLatestVersion env))) None),
               w0)).
  { intros w0. unfold Session.signInChecked.
    destruct (Session.platformSupportsKeyDerivation env params); simpl; [|reflexivity].
    by rewrite Hlatest. }
  destruct (Session.isProtocolVersionOutdated env (Session.version params)).
  - destruct (Session.costBelow params _).
    { do 2 eexists. split; [reflexivity|]. split; [by left|]. repeat split. }
    unfold Eff.bind, Session.call, Eff.modify. simpl.
    destruct (Session.alertConfirm env _ _ _); simpl.
    + rewrite Hchecked.
      destruct (Session.platformSupportsKeyDerivation env params); simpl;
        (do 2 eexists; split;
         [unfold Session.afterCalls; rewrite <- app_assoc; reflexivity|];
         split; [by right|]; repeat split).
    + do 2 eexists. split; [unfold Session.afterCalls; rewrite <- app_assoc; reflexivity|].
      split; [by right|]. repeat split.
  - rewrite Hchecked.
    destruct (Session.platformSupportsKeyDerivation env params); simpl;
      (do 2 eexists; split; [reflexivity|]; split; [by left|]; repeat split).
Qed.

Section MfaRounds.
Variable env : Session.Env.
Variables email serverPassword : string.





End MfaRounds.

(** ** Sync manager: the sync position tokens *)

Ltac tokens_unfold :=
  unfold SyncTokens.perform, SyncTokens.setLastSyncToken, SyncTokens.setPaginationToken,
    SyncTokens.getLastSyncToken, SyncTokens.getPaginationToken,
    SyncTokens.clearSyncPositionTokens, SyncTokens.removeValue, SyncTokens.setValue,
    SyncTokens.getValue, SyncTokens.set_syncToken, SyncTokens.set_cursorToken in *;
  eff_unfold.

(** X25: the sync position tokens read back. The last sync token set is
    the one got, whatever it is; a pagination token set is the one got
    when it is a non-empty string, and setting an empty or missing one
    removes it, so that none is got; neither setter changes what the
    other getter returns; and once the tokens are cleared both getters
    return none. *)
Theorem sync_tokens_read_back (token : SyncTokens.Token) (w : SyncTokens.World) :
  (exists w1 w2,
     SyncTokens.setLastSyncToken token w = (Returned tt, w1) /\
     SyncTokens.getLastSyncToken w1 = (Returned token, w2) /\
     fst (SyncTokens.getPaginationToken w1) = fst (SyncTokens.getPaginationToken w)) /\
  (exists w1 w2,
     SyncTokens.setPaginationToken token w = (Returned tt, w1) /\
     SyncTokens.getPaginationToken w1
     = (Returned (if SyncTokens.truthy token then token else None), w2) /\
     fst (SyncTokens.getLastSyncToken w1) = fst (SyncTokens.getLastSyncToken w)) /\
  (exists w1,
     SyncTokens.clearSyncPositionTokens w = (Returned tt, w1) /\
     fst (SyncTokens.getLastSyncToken w1) = Returned None /\
     fst (SyncTokens.getPaginationToken w1) = Returned None).
Proof.
  destruct w as [sync cursor stored]. split; [|split].
  - tokens_unfold. do 2 eexists. split; [reflexivity|]. simpl.
    destruct (SyncTokens.truthy token) eqn:Htoken; simpl; (split; [reflexivity|]);
      by destruct (SyncTokens.truthy cursor).
  - tokens_unfold.
    destruct (SyncTokens.truthy token) eqn:Htoken; simpl;
      (do 2 eexists; split; [reflexivity|]; simpl; rewrite ?Htoken; simpl;
       split; [reflexivity|]; by destruct (SyncTokens.truthy sync)).
  - tokens_unfold. eexists. split; [reflexivity|]. by split.
Qed.

Lemma perform_coherent (op : SyncTokens.Operation) (w : SyncTokens.World) :
  SyncTokens.coherent w ->
  exists w', SyncTokens.perform op w = (Returned tt, w') /\ SyncTokens.coherent w'.
Proof.
  destruct w as [sync cursor stored]. unfold SyncTokens.coherent. simpl. intros [Hsync Hcursor].
  destruct op as [token|token| | |]; tokens_unfold.
  - eexists. split; [reflexivity|]. simpl. by split.
  - destruct (SyncTokens.truthy token) eqn:Htoken; simpl;
      (eexists; split; [reflexivity|]; simpl; split; [exact Hsync|]); [done|congruence].
  - destruct (SyncTokens.truthy sync) eqn:Htoken; simpl;
      (eexists; split; [reflexivity|]; simpl; split; auto).
  - destruct (SyncTokens.truthy cursor) eqn:Htoken; simpl;
      (eexists; split; [reflexivity|]; simpl; split; auto).
  - eexists. split; [reflexivity|]. simpl. by split.
Qed.

(** X26: the tokens the manager holds never disagree with storage.
    Starting from a manager just constructed, after any sequence of
    setting, getting and clearing the tokens, [getLastSyncToken] and
    [getPaginationToken] return what is in storage under their keys. *)
Theorem sync_tokens_agree_with_storage
    (stored : SyncTokens.StorageKeys -> SyncTokens.Token) (ops : list SyncTokens.Operation) :
  exists w,
    Eff.forEach ops SyncTokens.perform (SyncTokens.fresh stored) = (Returned tt, w) /\
    fst (SyncTokens.getLastSyncToken w) = Returned (SyncTokens.storage w SyncTokens.LastSyncToken) /\
    fst (SyncTokens.getPaginationToken w)
    = Returned (SyncTokens.storage w SyncTokens.PaginationToken).
Proof.
  assert (Hrun : forall w0, SyncTokens.coherent w0 ->
            exists w, Eff.forEach ops SyncTokens.perform w0 = (Returned tt, w)
                      /\ SyncTokens.coherent w).
  { induction ops as [|op ops IH]; intros w0 Hw0; simpl.
    - exists w0. by split.
    - destruct (perform_coherent op w0 Hw0) as (w1 & Hop & Hw1).
      destruct (IH w1 Hw1) as (w & Hops & Hw). exists w. split; [|exact Hw].
      by rewrite (bind_run _ _ _ _ _ Hop). }
  destruct (Hrun (SyncTokens.fresh stored)) as (w & Hops & Hsync & Hcursor).
  { split; discriminate. }
  exists w. split; [exact Hops|]. destruct w as [sync cursor storage]. simpl in *.
  tokens_unfold. split.
  - destruct (SyncTokens.truthy sync) eqn:Htoken; simpl; [|reflexivity]. by rewrite Hsync.
  - destruct (SyncTokens.truthy cursor) eqn:Htoken; simpl; [|reflexivity]. by rewrite Hcursor.
Qed.

(** ** Sync manager: loading the local database *)

Lemma batches_cover {A} (size : nat) (batches : nat) :
  forall payloads : list A,
    (0 < size)%nat -> (length payloads <= batches * size)%nat ->
    concat (map (fun batchIndex =>
                   DatabaseLoad.slice payloads (batchIndex * size) (batchIndex * size + size))
              (seq 0 batches))
    = payloads.
Proof.
  unfold DatabaseLoad.slice.
  induction batches as [|batches IH]; intros payloads Hsize Hlength; simpl.
  - destruct payloads; [reflexivity|simpl in Hlength; lia].
  - transitivity (take size payloads ++ drop size payloads); [|apply take_drop].
    f_equal.
    + rewrite drop_0. f_equal. lia.
    + rewrite <- seq_shift, map_map.
      simpl in Hlength.
      rewrite <- (IH (drop size payloads) Hsize) by (rewrite length_drop; lia).
      f_equal. apply map_ext. intros batchIndex. rewrite drop_drop.
      replace (S batchIndex * size + size - S batchIndex * size)%nat with size by nia.
      replace (batchIndex * size + size - batchIndex * size)%nat with size by nia.
      do 2 (f_equal; try (simpl; lia)).
Qed.

Lemma ceilDiv_covers (count size : nat) :
  (0 < size)%nat -> (count <= DatabaseLoad.ceilDiv count size * size)%nat.
Proof.
  intros Hsize. unfold DatabaseLoad.ceilDiv.
  pose proof (Nat.div_mod_eq (count + (size - 1)) size) as Hdiv.
  pose proof (Nat.mod_upper_bound (count + (size - 1)) size) as Hmod. nia.
Qed.

Lemma ceilDiv_tight (count size batchIndex : nat) :
  (0 < size)%nat -> (batchIndex < DatabaseLoad.ceilDiv count size)%nat ->
  (batchIndex * size < count)%nat.
Proof.
  intros Hsize Hindex. unfold DatabaseLoad.ceilDiv in Hindex.
  pose proof (Nat.div_mod_eq (count + (size - 1)) size) as Hdiv.
  pose proof (Nat.mod_upper_bound (count + (size - 1)) size) as Hmod. nia.
Qed.

Section LoadingTheDatabase.
Import Payloads DatabaseLoad.
Variable sort : list PurePayload -> list string -> list PurePayload.
Variable decrypt : list PurePayload -> list PurePayload.

Lemma forEach_mapBatch (payloads : list PurePayload) (indices : list nat) (w : World) :
  Eff.forEach indices (mapBatch decrypt payloads) w
  = (Returned tt,
     mkWorld (databaseLoaded w) (log w ++ flat_map (batchEffects decrypt payloads) indices)).
Proof.
  revert w. induction indices as [|batchIndex indices IH]; intros w; simpl.
  - rewrite app_nil_r. by destruct w.
  - unfold mapBatch at 1, effect. eff_unfold. rewrite IH. simpl.
    unfold batchEffects at 2. by rewrite <- !app_assoc.
Qed.

(** X27: [loadDatabasePayloads] on a database not yet loaded maps the
    items keys first and then the other payloads in batches, notifying
    an incremental load after each batch and the end of the load after
    the last, and marks the database loaded. The batches are not empty,
    hold a hundred payloads at most and, put end to end, are the other
    payloads in their sorted order: each is mapped exactly once. Asked
    again, it throws a bare string and does nothing. *)
Theorem loadDatabasePayloads_in_batches (rawPayloads : list PurePayload) (w : World) :
  databaseLoaded w = false ->
  let keys := itemsKeysPayloads sort rawPayloads in
  let others := otherPayloads sort rawPayloads in
  let batches :=
    map (batchAt others) (seq 0 (ceilDiv (length others) DEFAULT_DATABASE_LOAD_BATCH_SIZE)) in
  exists w',
    loadDatabasePayloads sort decrypt rawPayloads w = (Returned tt, w') /\
    databaseLoaded w' = true /\
    log w'
    = log w ++ [Mapped (decrypt keys) LocalRetrieved]
      ++ flat_map (batchEffects decrypt others)
           (seq 0 (ceilDiv (length others) DEFAULT_DATABASE_LOAD_BATCH_SIZE))
      ++ [DatabaseLoadDone; Notified LocalDataLoaded] /\
    concat batches = others /\
    Forall (fun batch => (0 < length batch <= DEFAULT_DATABASE_LOAD_BATCH_SIZE)%nat) batches /\
    (forall payload, In payload others <->
       In payload (sortedPayloads sort rawPayloads)
       /\ content_type payload <> PayloadManager.ItemsKey) /\
    forall again,
      loadDatabasePayloads sort decrypt again w' = (Thrown alreadyInitialized, w').
Proof.
  intros Hunloaded. cbv zeta. destruct w as [loaded lg]. simpl in Hunloaded. subst loaded.
  unfold loadDatabasePayloads. rewrite bind_get. simpl.
  unfold effect at 1. rewrite bind_modify. simpl.
  unfold Eff.bind at 1. rewrite forEach_mapBatch. simpl.
  unfold effect. eff_unfold.
  eexists. split; [reflexivity|]. simpl. split; [reflexivity|].
  split; [by rewrite <- !app_assoc|]. split; [|split; [|split]].
  - unfold batchAt.
    apply batches_cover; [unfold DEFAULT_DATABASE_LOAD_BATCH_SIZE; lia|].
    apply ceilDiv_covers. unfold DEFAULT_DATABASE_LOAD_BATCH_SIZE. lia.
  - apply Forall_forall. intros batch Hbatch.
    apply list_elem_of_In, in_map_iff in Hbatch as (batchIndex & <- & Hindex).
    apply in_seq in Hindex as [_ Hindex]. rewrite Nat.add_0_l in Hindex.
    apply ceilDiv_tight in Hindex; [|unfold DEFAULT_DATABASE_LOAD_BATCH_SIZE; lia].
    unfold batchAt, slice. rewrite length_take, length_drop.
    unfold DEFAULT_DATABASE_LOAD_BATCH_SIZE in *. lia.
  - intros payload. unfold otherPayloads. rewrite In_subtracted.
    unfold itemsKeysPayloads. rewrite filter_In, bool_decide_eq_true. tauto.
  - reflexivity.
Qed.

End LoadingTheDatabase.

(** ** Filtering notes *)

Section NoteQueries.
Import NoteFilter.
Variable toLowerCase : JsString -> JsString.

Lemma startsWith_prefix (s searchString : JsString) :
  startsWith s searchString = true <-> exists rest, s = searchString ++ rest.
Proof.
  revert s. induction searchString as [|p searchString IH]; intros s; simpl.
  - split; [intros _; by exists s|]. by destruct s.
  - destruct s as [|c s]; simpl.
    + split; [discriminate|]. intros [rest Hrest]. discriminate.
    + rewrite andb_true_iff, N.eqb_eq, IH. split.
      * intros [-> [rest ->]]. by exists rest.
      * intros [rest Hrest]. inversion Hrest; subst. eauto.
Qed.

Lemma includes_infix (s searchString : JsString) :
  includes s searchString = true <-> exists before after, s = before ++ searchString ++ after.
Proof.
  induction s as [|c s IH].
  - change (includes [] searchString) with (startsWith [] searchString || false).
    rewrite orb_false_r, startsWith_prefix. split.
    + intros [rest Hrest]. by exists [], rest.
    + intros (before & after & Hs). symmetry in Hs.
      apply app_eq_nil in Hs as [-> Hs]. apply app_eq_nil in Hs as [-> ->]. by exists [].
  - change (includes (c :: s) searchString)
      with (startsWith (c :: s) searchString || includes s searchString).
    rewrite orb_true_iff, startsWith_prefix, IH. split.
    + intros [[rest Hrest]|(before & after & ->)].
      * by exists [], rest.
      * by exists (c :: before), after.
    + intros (before & after & Hs). destruct before as [|b before]; simpl in Hs.
      * left. by exists after.
      * right. inversion Hs; subst. by exists before, after.
Qed.

Lemma untilQuote_phrase (phrase after : JsString) :
  Forall (fun c => c <> quote /\ isLineTerminator c = false) phrase ->
  untilQuote (phrase ++ quote :: after) = Some phrase.
Proof.
  induction 1 as [|c phrase [Hquote Hline] _ IH]; simpl.
  - reflexivity.
  - apply N.eqb_neq in Hquote. by rewrite Hquote, Hline, IH.
Qed.

Lemma stringBetweenQuotes_skips (before rest : JsString) :
  Forall (fun c => c <> quote) before ->
  stringBetweenQuotes (before ++ rest) = stringBetweenQuotes rest.
Proof.
  induction 1 as [|c before Hquote _ IH]; simpl; [reflexivity|].
  apply N.eqb_neq in Hquote. by rewrite Hquote.
Qed.

Lemma hexRun_digits (n : nat) (s rest : JsString) :
  hexRun n s = Some rest ->
  exists digits, s = digits ++ rest /\ Forall (fun c => isHex c = true) digits.
Proof.
  revert s. induction n as [|n IH]; intros s; simpl.
  - intros [= ->]. by exists [].
  - destruct s as [|c s]; [discriminate|]. destruct (isHex c) eqn:Hc; [|discriminate].
    intros (digits & -> & Hdigits)%IH. exists (c :: digits). split; [reflexivity|].
    by constructor.
Qed.

Lemma dashThen_dash (s rest : JsString) : dashThen s = Some rest -> s = dash :: rest.
Proof.
  destruct s as [|c s]; simpl; [discriminate|].
  destruct (N.eqb_spec c dash) as [->|]; [|discriminate]. by intros [= ->].
Qed.

Lemma uuidShape_no_quote (s : JsString) :
  uuidShape s = Some [] -> Forall (fun c => c <> quote) s.
Proof.
  unfold uuidShape. intros Hshape.
  repeat match type of Hshape with
    | match hexRun ?n ?x with _ => _ end = _ =>
        let H := fresh "Hrun" in
        destruct (hexRun n x) eqn:H; [apply hexRun_digits in H as (? & -> & ?)|discriminate]
    | match dashThen ?x with _ => _ end = _ =>
        let H := fresh "Hdash" in
        destruct (dashThen x) eqn:H; [apply dashThen_dash in H as ->|discriminate]
    end.
  apply hexRun_digits in Hshape as (? & -> & ?).
  assert (Hhex : forall digits, Forall (fun c => isHex c = true) digits ->
                                Forall (fun c => c <> quote) digits).
  { intros digits Hdigits. eapply Forall_impl; [exact Hdigits|]. intros c Hc ->. discriminate. }
  repeat first [ apply Forall_app; split | apply Forall_cons; split
               | by apply Hhex | discriminate | apply Forall_nil ]; done.
Qed.

(** X28: searching for a uuid. When the query, in lower case, is a uuid
    and nothing else, a note that is not hidden passes the filter
    exactly when its uuid is that query: the title and the text are
    not looked at. *)
Theorem uuid_query_matches_by_uuid
    (note : SNNote) (showArchived hidePinned : bool) (query : JsString) :
  query <> [] ->
  uuidShape (toLowerCase query) = Some [] ->
  archived note && negb showArchived = false ->
  pinned note && hidePinned = false ->
  notePassesFilter toLowerCase note showArchived hidePinned query
  = bool_decide (uuid note = toLowerCase query).
Proof.
  intros Hquery Hshape Harchived Hpinned.
  unfold notePassesFilter. rewrite negb_involutive, Harchived, Hpinned. simpl.
  unfold noteMatchesQuery. destruct query as [|c query]; [done|]. simpl length. simpl Nat.eqb.
  cbv iota. cbv zeta.
  rewrite <- (app_nil_r (toLowerCase (c :: query))) at 1.
  rewrite stringBetweenQuotes_skips by (by apply uuidShape_no_quote). simpl.
  unfold stringIsUuid. destruct (toLowerCase (c :: query)) as [|d lower] eqn:Hlower.
  - simpl in Hshape. discriminate.
  - unfold uuidFrom. fold uuidFrom. unfold uuidHere. by rewrite Hshape.
Qed.

(** X29: searching for a phrase in quotes. When the query, in lower
    case, has a first quoted phrase that is not empty, a note that is
    not hidden passes the filter exactly when the phrase occurs as it
    stands in the title or in the text (in lower case); what the query
    holds before and after the phrase is not looked at. *)
Theorem quoted_query_matches_the_phrase
    (note : SNNote) (showArchived hidePinned : bool) (query before phrase after : JsString) :
  query <> [] ->
  toLowerCase query = before ++ quote :: phrase ++ quote :: after ->
  Forall (fun c => c <> quote) before ->
  phrase <> [] ->
  Forall (fun c => c <> quote /\ isLineTerminator c = false) phrase ->
  archived note && negb showArchived = false ->
  pinned note && hidePinned = false ->
  notePassesFilter toLowerCase note showArchived hidePinned query
  = includes (toLowerCase (safeTitle note)) phrase
    || includes (toLowerCase (safeText note)) phrase /\
  (notePassesFilter toLowerCase note showArchived hidePinned query = true <->
   (exists l r, toLowerCase (safeTitle note) = l ++ phrase ++ r)
   \/ (exists l r, toLowerCase (safeText note) = l ++ phrase ++ r)).
Proof.
  intros Hquery Hlower Hbefore Hphrase Hclean Harchived Hpinned.
  assert (Hpasses : notePassesFilter toLowerCase note showArchived hidePinned query
                    = includes (toLowerCase (safeTitle note)) phrase
                      || includes (toLowerCase (safeText note)) phrase).
  { unfold notePassesFilter. rewrite negb_involutive, Harchived, Hpinned. simpl.
    unfold noteMatchesQuery. destruct query as [|c query]; [done|]. simpl length. simpl Nat.eqb.
    cbv iota. cbv zeta. rewrite Hlower.
    rewrite stringBetweenQuotes_skips by exact Hbefore. simpl.
    rewrite untilQuote_phrase by exact Hclean.
    destruct phrase as [|p phrase]; [done|]. reflexivity. }
  split; [exact Hpasses|].
  rewrite Hpasses, orb_true_iff, !includes_infix. reflexivity.
Qed.

End NoteQueries.

(** ** Instances *)

(** ** The properties above at concrete inputs *)

Lemma sync_resolves_waiting_callers_witness :
  let w := Sync.set_resolveQueue [7%nat] (Sync.loadedWorld true [Sync.editedNote]) in
  (Sync.locked w = false /\ Sync.mustDefer w = false
   /\ Sync.prematureDefault Sync.noOptions w = false) /\
  exists result wE,
    Sync.syncRound Sync.exampleClock Sync.exampleEncryption Sync.quietServer
      Sync.noItemsInvolved Sync.ignoreSuccess Sync.noOptions w = (Returned result, wE) /\
    In 7%nat (Sync.resolved wE) /\ ~ In 7%nat (Sync.resolveQueue wE).
Proof.
  cbv zeta. split; [repeat split|].
  destruct (sync_resolves_waiting_callers Sync.exampleClock Sync.exampleEncryption
              Sync.quietServer Sync.noItemsInvolved Sync.ignoreSuccess Sync.noOptions
              (Sync.set_resolveQueue [7%nat] (Sync.loadedWorld true [Sync.editedNote]))
              eq_refl eq_refl eq_refl)
    as (wC & _ & _ & Hafter).
  destruct (Hafter wC eq_refl) as (result & wE & Hround & _ & Hresolved).
  exists result, wE. split; [exact Hround|]. apply Hresolved. by left.
Defined.

Lemma sync_starts_at_most_one_follow_up_witness :
  let w := Sync.set_spawnQueue [(3%nat, Some true)] (Sync.loadedWorld true [Sync.editedNote]) in
  (Sync.locked w = false /\ Sync.mustDefer w = false
   /\ Sync.prematureDefault Sync.noOptions w = false) /\
  exists result wE,
    Sync.syncRound Sync.exampleClock Sync.exampleEncryption Sync.quietServer
      Sync.noItemsInvolved Sync.ignoreSuccess Sync.noOptions w = (Returned result, wE) /\
    Sync.spawnQueue wE = [] /\
    Sync.pendingSyncs wE
    = [Sync.mkOptions (Some Sync.TIMING_STRATEGY_FORCE_SPAWN_NEW) None (Some true)].
Proof.
  cbv zeta. split; [repeat split|].
  destruct (sync_starts_at_most_one_follow_up Sync.exampleClock Sync.exampleEncryption
              Sync.quietServer Sync.noItemsInvolved Sync.ignoreSuccess Sync.noOptions
              (Sync.set_spawnQueue [(3%nat, Some true)]
                 (Sync.loadedWorld true [Sync.editedNote]))
              eq_refl eq_refl eq_refl)
    as (wC & Hspawn & Hpending & Hafter).
  destruct (Hafter wC eq_refl) as (result & wE & Hround & Hfollow).
  rewrite Hspawn, Hpending in Hfollow. simpl in Hfollow. destruct Hfollow as [Hrest Hstarted].
  exists result, wE. split; [exact Hround|]. split; [exact Hrest|exact Hstarted].
Defined.

Lemma initial_sync_then_default_witness :
  let options := Sync.mkOptions None (Some Sync.SYNC_MODE_INITIAL) None in
  let w := Sync.loadedWorld false [Sync.editedNote] in
  (Sync.locked w = false /\ Sync.mustDefer w = false
   /\ Sync.mode options = Some Sync.SYNC_MODE_INITIAL) /\
  exists wE,
    Sync.syncRound Sync.exampleClock Sync.exampleEncryption Sync.quietServer
      Sync.noItemsInvolved Sync.ignoreSuccess options w = (Returned Sync.Chained, wE) /\
    Sync.completedInitialSync wE = true.
Proof.
  cbv zeta. split; [repeat split|].
  destruct (initial_sync_then_default Sync.exampleClock Sync.exampleEncryption
              Sync.quietServer Sync.noItemsInvolved Sync.ignoreSuccess 0
              (Sync.mkOptions None (Some Sync.SYNC_MODE_INITIAL) None)
              (Sync.loadedWorld false [Sync.editedNote]) eq_refl eq_refl eq_refl)
    as (_ & wC & Hafter).
  destruct (Hafter wC eq_refl) as (wE & Hround & Hinitial & _).
  exists wE. split; [exact Hround|exact Hinitial].
Defined.


Lemma set_protected_trashed_read_back_witness :
  let w := Mutator.mkWorld (Mutator.new Reading.plainNote Mutator.UserInteraction) 0%nat in
  exists w1 p w2,
    Mutator.set_trashed true w = (Returned tt, w1) /\
    Mutator.getResult Mutator.exampleClock w1 = (Returned p, w2) /\
    Reading.trashed (SNItem.mkItem p SNItem.BaseItem)
    = Some (Payloads.JScalar (Payloads.SBool true)).
Proof.
  cbv zeta.
  assert (Hsome : is_Some (Mutator.appDataOf (<["title" := Payloads.JScalar (Payloads.SStr "Groceries")]> ∅)))
    by (eexists; reflexivity).
  destruct (set_protected_trashed_read_back Mutator.exampleClock
              (Mutator.mkWorld (Mutator.new Reading.plainNote Mutator.UserInteraction) 0%nat)
              _ true eq_refl Hsome (or_introl eq_refl))
    as (_ & w1 & p & w2 & Hset & Hresult & Hread).
  exists w1, p, w2. split; [exact Hset|]. split; [exact Hresult|].
  exact (Hread (SNItem.mkItem p SNItem.BaseItem) eq_refl).
Defined.

Lemma relationships_added_and_removed_witness :
  let w := Mutator.mkWorld (Mutator.new Reading.plainNote Mutator.UserInteraction) 0%nat in
  exists w1 p w2,
    Mutator.addItemAsRelationship Reading.someTag w = (Returned tt, w1) /\
    Mutator.getResult Mutator.exampleClock w1 = (Returned p, w2) /\
    Reading.hasRelationshipWithItem (SNItem.mkItem p SNItem.BaseItem) Reading.someTag
    = Returned true.
Proof.
  cbv zeta.
  assert (Hsome : is_Some (Mutator.appDataOf (<["title" := Payloads.JScalar (Payloads.SStr "Groceries")]> ∅)))
    by (eexists; reflexivity).
  destruct (relationships_added_and_removed Mutator.exampleClock
              (Mutator.mkWorld (Mutator.new Reading.plainNote Mutator.UserInteraction) 0%nat)
              _ [] Reading.someTag eq_refl eq_refl Hsome (or_introl eq_refl))
    as ((w1 & p & w2 & Hadd & _ & Hresult & Hread) & _).
  exists w1, p, w2. split; [exact Hadd|]. split; [exact Hresult|].
  exact (Hread (SNItem.mkItem p SNItem.BaseItem) eq_refl).
Defined.

Lemma internal_mutation_stamps_user_modified_date_witness :
  let w := Mutator.mkWorld (Mutator.new Reading.plainNote Mutator.Internal) 0%nat in
  exists p w',
    Mutator.getResult Mutator.exampleClock w = (Returned p, w') /\
    Reading.user_modified_at (fun _ => None) (SNItem.mkItem p SNItem.BaseItem)
    = Returned (Some 1617004805233).
Proof.
  cbv zeta.
  assert (Hsome : is_Some (Mutator.appDataOf (<["title" := Payloads.JScalar (Payloads.SStr "Groceries")]> ∅)))
    by (eexists; reflexivity).
  destruct (internal_mutation_stamps_user_modified_date Mutator.exampleClock (fun _ => None)
              (Mutator.mkWorld (Mutator.new Reading.plainNote Mutator.Internal) 0%nat)
              _ eq_refl eq_refl eq_refl eq_refl Hsome)
    as (p & w' & Hresult & _ & Hread).
  exists p, w'. split; [exact Hresult|].
  exact (Hread (SNItem.mkItem p SNItem.BaseItem) eq_refl).
Defined.

Lemma app_domain_getters_throw_without_app_data_witness :
  exists message, Reading.pinned Reading.plainNote = Thrown (Mutator.TypeError message).
Proof.
  assert (Hnone : forall c, SNItem.content Reading.plainNote = Payloads.Decrypted c
                            -> c !! "appData" = None).
  { intros c Hc. inversion Hc. reflexivity. }
  destruct (app_domain_getters_throw_without_app_data (fun _ => None) Reading.plainNote Hnone)
    as (message & Hpinned & _).
  exists message. exact Hpinned.
Defined.


Lemma credentials_added_and_removed_witness :
  (exists this',
     Privileges.addCredentialForAction Privileges.exampleArrayGet
       "ActionManagePasscode" "CredentialLocalPasscode"
       Privileges.examplePrivileges = (Returned tt, this') /\
     Privileges.getCredentialsForAction Privileges.exampleArrayGet "ActionManagePasscode" this'
     = (Returned (Privileges.Credentials ["CredentialLocalPasscode"]), this')) /\
  exists message,
    Privileges.isCredentialRequiredForAction Privileges.exampleArrayGet
      "constructor" "CredentialLocalPasscode" Privileges.examplePrivileges
    = (Thrown (Privileges.TypeError message), Privileges.examplePrivileges).
Proof.
  assert (Haction : Privileges.inherited "ActionManagePasscode" = false)
    by (vm_compute; reflexivity).
  assert (Hinherited : Privileges.inherited "constructor" = true)
    by (vm_compute; reflexivity).
  split.
  - destruct (credentials_added_and_removed Privileges.exampleArrayGet
                Privileges.examplePrivileges _
                "ActionManagePasscode" "CredentialLocalPasscode" eq_refl)
      as (Hordinary & _).
    destruct (Hordinary Haction) as ((this' & Hadd & Hget) & _).
    exists this'. split; [exact Hadd|exact Hget].
  - destruct (credentials_added_and_removed Privileges.exampleArrayGet
                Privileges.examplePrivileges _
                "constructor" "CredentialLocalPasscode" eq_refl)
      as (_ & Hthrows).
    destruct (Hthrows Hinherited eq_refl) as (message1 & message2 & Hrequired & _).
    exists message1. exact Hrequired.
Defined.

Lemma migrations_marked_as_done_witness :
  let services := Migrations.exampleServices "2.0.0" false in
  Migrations.hasPendingMigrations Migrations.semverCompare Migrations.semverRightGreater
    Migrations.exampleImports
    (MigrationService.markMigrationsAsDone "2.7.0" services)
  = Returned false.
Proof.
  cbv zeta.
  assert (Hversion : "2.7.0" <> "") by discriminate.
  assert (Hnewest : forall c, In c Migrations.exampleImports ->
                      Migrations.semverRightGreater "2.7.0" (Migrations.version c) = false).
  { intros c [<-|[<-|[<-|[]]]]; reflexivity. }
  exact (proj1 (proj2 (proj2
           (migrations_marked_as_done Migrations.semverCompare Migrations.semverRightGreater
              Migrations.exampleImports "2.7.0" (fun services => Returned services)
              (Migrations.exampleServices "2.0.0" false) Hversion Hnewest)))).
Defined.

Lemma register_signs_in_on_success_witness :
  let env := Session.exampleEnv 110000 true in
  exists r w',
    Session.register env "a@b.c" [115; 101; 99; 114; 101; 116; 49; 50]%N Session.signedOut
    = (Returned r, w') /\
    Session.thisUser w' = Some (Session.mkUser "u-1" "a@b.c").
Proof.
  cbv zeta.
  assert (Hlong : (8 <= length [115; 101; 99; 114; 101; 116; 49; 50]%N)%nat) by (simpl; lia).
  destruct (register_signs_in_on_success (Session.exampleEnv 110000 true) "a@b.c"
              [115; 101; 99; 114; 101; 116; 49; 50]%N Session.signedOut Hlong)
    as (w' & Hregister & _ & Hsuccess).
  eexists. exists w'. split; [exact Hregister|].
  exact (proj1 (Hsuccess eq_refl)).
Defined.

Lemma strict_signIn_requires_latest_version_witness :
  let env := Session.exampleEnv 110000 true in
  exists message asked,
    Session.signIn env "a@b.c" [115; 101; 99; 114; 101; 116; 49; 50]%N true None
      Session.signedOut
    = (Returned (Session.mkSMResponse (Session.createErrorResponse message) None),
       Session.afterCalls Session.signedOut asked).
Proof.
  cbv zeta.
  destruct (strict_signIn_requires_latest_version (Session.exampleEnv 110000 true) "a@b.c"
              [115; 101; 99; 114; 101; 116; 49; 50]%N None
              (Session.mkKeyParams "002" (Some 110000) "nonce") Session.signedOut
              eq_refl eq_refl eq_refl)
    as (message & asked & HsignIn & _).
  exists message, asked. exact HsignIn.
Defined.

Lemma loadDatabasePayloads_in_batches_witness :
  exists w',
    DatabaseLoad.loadDatabasePayloads DatabaseLoad.unsorted DatabaseLoad.undecrypted
      (DatabaseLoad.storedNotes 250) DatabaseLoad.unloaded = (Returned tt, w') /\
    DatabaseLoad.databaseLoaded w' = true /\
    DatabaseLoad.loadDatabasePayloads DatabaseLoad.unsorted DatabaseLoad.undecrypted
      (DatabaseLoad.storedNotes 250) w' = (Thrown DatabaseLoad.alreadyInitialized, w').
Proof.
  destruct (loadDatabasePayloads_in_batches DatabaseLoad.unsorted DatabaseLoad.undecrypted
              (DatabaseLoad.storedNotes 250) DatabaseLoad.unloaded eq_refl)
    as (w' & Hload & Hloaded & _ & _ & _ & _ & Hagain).
  exists w'. split; [exact Hload|]. split; [exact Hloaded|]. apply Hagain.
Defined.

Lemma uuid_query_matches_by_uuid_witness :
  NoteFilter.notePassesFilter NoteFilter.asciiLowerCase NoteFilter.exampleNote false false
    (NoteFilter.codeUnits "2F1E4D3C-0A9B-4C8D-9E7F-6A5B4C3D2E1F")
  = true.
Proof.
  assert (Hquery : NoteFilter.codeUnits "2F1E4D3C-0A9B-4C8D-9E7F-6A5B4C3D2E1F" <> [])
    by discriminate.
  rewrite (uuid_query_matches_by_uuid NoteFilter.asciiLowerCase NoteFilter.exampleNote
             false false _ Hquery eq_refl eq_refl eq_refl).
  reflexivity.
Defined.

Lemma quoted_query_matches_the_phrase_witness :
  NoteFilter.notePassesFilter NoteFilter.asciiLowerCase NoteFilter.exampleNote false false
    (NoteFilter.codeUnits "recipe " ++ NoteFilter.quote :: NoteFilter.codeUnits "Brown Bread"
       ++ NoteFilter.quote :: NoteFilter.codeUnits " soon")
  = true.
Proof.
  assert (Hquery : NoteFilter.codeUnits "recipe " ++ NoteFilter.quote
                     :: NoteFilter.codeUnits "Brown Bread"
                     ++ NoteFilter.quote :: NoteFilter.codeUnits " soon" <> [])
    by discriminate.
  assert (Hbefore : Forall (fun c => c <> NoteFilter.quote) (NoteFilter.codeUnits "recipe "))
    by (repeat constructor; discriminate).
  assert (Hphrase : NoteFilter.codeUnits "brown bread" <> []) by discriminate.
  assert (Hclean : Forall (fun c => c <> NoteFilter.quote /\ NoteFilter.isLineTerminator c = false)
                     (NoteFilter.codeUnits "brown bread"))
    by (repeat constructor; discriminate).
  rewrite (proj1 (quoted_query_matches_the_phrase NoteFilter.asciiLowerCase
                    NoteFilter.exampleNote false false _ (NoteFilter.codeUnits "recipe ")
                    (NoteFilter.codeUnits "brown bread") (NoteFilter.codeUnits " soon")
                    Hquery eq_refl Hbefore Hphrase Hclean eq_refl eq_refl)).
  reflexivity.
Defined.

Lemma late_caller_gets_a_follow_up_sync_witness :
  let w := Sync.loadedWorld true [Sync.editedNote] in
  exists result wE promise,
    Sync.syncRound Sync.exampleClock Sync.exampleEncryption SyncExamples.oneResponse
      Sync.noItemsInvolved SyncExamples.lateCaller Sync.noOptions w = (Returned result, wE) /\
    In promise (Sync.resolveQueue wE) /\
    In Sync.noOptions (Sync.pendingSyncs wE).
Proof.
  cbv zeta.
  destruct (late_caller_gets_a_follow_up_sync Sync.exampleClock Sync.exampleEncryption
              SyncExamples.oneResponse Sync.noItemsInvolved SyncExamples.lateCaller
              Sync.noOptions (Sync.loadedWorld true [Sync.editedNote])
              eq_refl eq_refl eq_refl)
    as (wC & Hqueued & Hspawned & Hafter).
  assert (Hwaiting : In (Sync.nextPromise wC) (Sync.resolveQueue wC ++ [Sync.nextPromise wC]))
    by (apply in_or_app; right; by left).
  destruct (Hafter _ (Sync.nextPromise wC) eq_refl Hwaiting (fun H => H) Hspawned)
    as (result & wE & Hround & Hstill & _ & Hstarted).
  exists result, wE, (Sync.nextPromise wC). split; [exact Hround|]. split; [exact Hstill|].
  rewrite Hstarted. apply in_or_app. right. by left.
Defined.

Lemma sync_in_progress_is_deferred_witness :
  let w := Sync.set_syncInProgress true (Sync.loadedWorld true [Sync.editedNote]) in
  exists w',
    Sync.syncRound Sync.exampleClock Sync.exampleEncryption Sync.quietServer
      Sync.noItemsInvolved Sync.ignoreSuccess Sync.noOptions w
    = (Returned (Sync.Deferred 0), w') /\
    Sync.resolveQueue w' = [0%nat].
Proof.
  cbv zeta.
  destruct (sync_in_progress_is_deferred Sync.exampleClock Sync.exampleEncryption
              Sync.quietServer Sync.noItemsInvolved Sync.ignoreSuccess Sync.noOptions
              (Sync.set_syncInProgress true (Sync.loadedWorld true [Sync.editedNote]))
              eq_refl eq_refl eq_refl)
    as (w' & saved & Hround & _ & _ & _ & _ & _ & _ & Hqueued).
  exists w'. split; [exact Hround|]. exact (proj1 Hqueued).
Defined.
